(** * A mirroring registry proxy: upstream selector, chunked cache, forwarder

  Shallow embedding of [docker/sum/main.go]:
  - [URLInfo], [URLManager] with [AddURL], [Get], [Done], [MarkDead],
    [resume] (the adaptive upstream selector);
  - the path helpers [shouldCache], [extractHashFromURL],
    [getCacheFilePath], [getCacheFilePathWithPart], [getRecordFilePath];
  - [serveFromCache], [checkCacheFileSize] and the tee-writing body loop of
    [proxyRequest] over a file system modelled as a finite map from paths
    to byte strings;
  - the retry loop of [proxyRequest].

  Conventions.  Go's [int] and [int64] are 64-bit two's complement
  integers, modelled as [Z] with the wrap-around of [++] written out
  ([wrap64]).  Go's [float64] is IEEE 754 binary64, modelled by the
  kernel's primitive floats.  The mutexes of the source are not modelled:
  every operation below is one sequential execution of the Go function. *)

From Stdlib Require Import ZArith Lia Floats.PrimFloat Floats.SpecFloat.
From Stdlib Require Import Floats.FloatOps Floats.FloatAxioms Uint63 String Ascii.
From Stdlib Require Import Strings.Byte DecimalString DecimalPos DecimalZ.
From stdpp Require Import base option list gmap strings.

Set Warnings "-inexact-float".
#[local] Open Scope string_scope.
#[local] Open Scope Z_scope.

(** ** Machine numbers *)

Module Num.

Definition MinInt64 : Z := - 2 ^ 63.
Definition MaxInt64 : Z := 2 ^ 63 - 1.

(** The value a 64-bit signed register holds after an arithmetic result [z]. *)
Definition wrap64 (z : Z) : Z := (z + 2 ^ 63) mod 2 ^ 64 - 2 ^ 63.

Definition in_int64 (z : Z) : Prop := MinInt64 <= z <= MaxInt64.

(** [math.MaxFloat64] *)
Definition MaxFloat64 : float := 0x1.fffffffffffffp+1023%float.

(** The conversion [float64(x)] of a 64-bit signed integer: round to
    nearest even.  [of_uint63] covers the 63-bit magnitudes; the one
    remaining value, [MinInt64], is the power of two [-2^63]. *)
Definition float64_of_int (z : Z) : float :=
  if z =? MinInt64 then (-0x1p+63)%float
  else if z <? 0 then PrimFloat.opp (PrimFloat.of_uint63 (Uint63.of_Z (- z)))
  else PrimFloat.of_uint63 (Uint63.of_Z z).

End Num.

(** ** The upstream selector *)

Module Selector.
Import Num.

(** [type URLInfo struct] (the mutex [mu] is left out). *)
Record URLInfo : Type := mkURLInfo {
  URL : string;
  Dead : bool;
  Load : Z;
  ResponseTime : float;
  Weight : float
}.

(** [type URLManager struct]: the slice [urls].  The lock [mu] is left
    out; the generator [rand] is an oracle passed to [Get]. *)
Record URLManager : Type := mkURLManager {
  urls : list URLInfo
}.

Definition NewURLManager : URLManager := mkURLManager [].

(** [um.urls = append(um.urls, &URLInfo{URL: url, Weight: 1})] *)
Definition AddURL (um : URLManager) (url : string) : URLManager :=
  mkURLManager (urls um ++ [mkURLInfo url false 0 0%float 1%float]).

Definition set_Dead (b : bool) (u : URLInfo) : URLInfo :=
  mkURLInfo (URL u) b (Load u) (ResponseTime u) (Weight u).

Definition set_Load (l : Z) (u : URLInfo) : URLInfo :=
  mkURLInfo (URL u) (Dead u) l (ResponseTime u) (Weight u).

Definition set_Weight (w : float) (u : URLInfo) : URLInfo :=
  mkURLInfo (URL u) (Dead u) (Load u) (ResponseTime u) w.

(** [resume]: every mirror gets [Dead = false]. *)
Definition resume (um : URLManager) : URLManager :=
  mkURLManager (map (set_Dead false) (urls um)).

(** The body of the scan loop of [Get] for one [urlInfo]; the pair is
    ([selectedURL] as an index into [urls], [minLoadRatio]). *)
Definition scan_step (acc : option nat * float) (idx : nat) (u : URLInfo)
  : option nat * float :=
  if Dead u then acc
  else
    let loadRatio := PrimFloat.div (float64_of_int (Load u)) (Weight u) in
    if PrimFloat.ltb loadRatio (snd acc) then (Some idx, loadRatio) else acc.

(** [for i := 0; i < n; i++ { urlInfo := um.urls[(startIndex+i)%n] ... }] *)
Definition scan (us : list URLInfo) (startIndex : nat) : option nat * float :=
  let n := length us in
  fold_left
    (fun acc i =>
       let idx := ((startIndex + i) mod n)%nat in
       match us !! idx with
       | Some u => scan_step acc idx u
       | None => acc
       end)
    (seq 0 n) (None, MaxFloat64).

(** Whether the scan can take [u] when nothing is selected yet: its load
    ratio is below the initial [minLoadRatio]. *)
Definition selectable (u : URLInfo) : bool :=
  PrimFloat.ltb (PrimFloat.div (float64_of_int (Load u)) (Weight u)) MaxFloat64.

(** [selectedURL.Load++] *)
Definition incr_Load (u : URLInfo) : URLInfo := set_Load (wrap64 (Load u + 1)) u.

(** What a run of [Get] has done when it stops or when the fuel is spent:
    [got = None] means that the [for] loop is still running. *)
Record GetResult : Type := mkGetResult {
  got : option string;
  resumes : nat;
  after : URLManager
}.

(** [Get].  [rnd k] is the raw value the generator delivers at the [k]-th
    draw; [rand.Intn(n)] is that value reduced into [[0, n)].  Each round
    of the outer [for] costs one unit of fuel. *)
Fixpoint Get_loop (fuel : nat) (rnd : nat -> nat) (passes : nat)
    (um : URLManager) : GetResult :=
  match fuel with
  | O => mkGetResult None passes um
  | S fuel' =>
      let n := length (urls um) in
      if (n =? 0)%nat then mkGetResult (Some "") passes um
      else
        let startIndex := (rnd O mod n)%nat in
        match fst (scan (urls um) startIndex) with
        | Some idx =>
            match urls um !! idx with
            | Some u =>
                mkGetResult (Some (URL u)) passes
                  (mkURLManager (<[idx := incr_Load u]> (urls um)))
            | None => mkGetResult None passes um
            end
        | None =>
            Get_loop fuel' (fun k => rnd (S k)) (S passes) (resume um)
        end
  end.

Definition Get (fuel : nat) (rnd : nat -> nat) (um : URLManager) : GetResult :=
  Get_loop fuel rnd O um.

(** The weight update of [Done] for the matching mirror: every operation
    is one binary64 operation, rounded on its own (no fused
    multiply-add). *)
Definition beta : float := 0.7%float.

Definition pick_k (ratio : float) : float :=
  if PrimFloat.ltb 1e9%float ratio then 1e3%float
  else if PrimFloat.ltb 1e6%float ratio then 1e5%float
  else 1e6%float.

Definition Done_update (responseTime : float) (contentLength : Z)
    (u : URLInfo) : URLInfo :=
  let load' := if 0 <? Load u then Load u - 1 else Load u in
  let ratio := PrimFloat.div (float64_of_int contentLength) responseTime in
  let k := pick_k ratio in
  let w :=
    PrimFloat.add
      (PrimFloat.mul beta (float64_of_int load'))
      (PrimFloat.mul (PrimFloat.sub 1%float beta)
         (PrimFloat.div
            (PrimFloat.div (float64_of_int contentLength) responseTime) k)) in
  set_Weight w (set_Load load' u).

(** [for _, urlInfo := range um.urls { if urlInfo.URL == url { ...; break } }] *)
Fixpoint update_first (url : string) (f : URLInfo -> URLInfo)
    (us : list URLInfo) : list URLInfo :=
  match us with
  | [] => []
  | u :: rest =>
      if String.eqb (URL u) url then f u :: rest
      else u :: update_first url f rest
  end.

Definition Done (um : URLManager) (url : string) (responseTime : float)
    (contentLength : Z) : URLManager :=
  mkURLManager (update_first url (Done_update responseTime contentLength) (urls um)).

(** [MarkDead]: [Dead = true; Load = 0] for the first mirror named [url]. *)
Definition MarkDead (um : URLManager) (url : string) : URLManager :=
  mkURLManager (update_first url (fun u => set_Load 0 (set_Dead true u)) (urls um)).

(** The tiers of the normalisation constant, as the specification words
    them: by the magnitude of the throughput. *)
Definition k_for (throughput : float) : float :=
  if PrimFloat.ltb 1e6%float throughput then
    if PrimFloat.ltb 1e9%float throughput then 1e3%float else 1e5%float
  else 1e6%float.

(** A call of the public interface of the selector, and the state after a
    sequence of calls.  A call of [Get] that does not return within its
    fuel leaves the state its resurrection passes have produced. *)
Inductive Call : Type :=
| CallGet (fuel : nat) (rnd : nat -> nat)
| CallDone (url : string) (responseTime : float) (contentLength : Z)
| CallMarkDead (url : string).

Definition call (um : URLManager) (c : Call) : URLManager :=
  match c with
  | CallGet fuel rnd => after (Get fuel rnd um)
  | CallDone url responseTime contentLength => Done um url responseTime contentLength
  | CallMarkDead url => MarkDead um url
  end.

Definition calls (cs : list Call) (um : URLManager) : URLManager :=
  fold_left call cs um.

(** One mirror, acquired once and released after a response without
    content: its load is back at zero and its weight is zero. *)
Definition starved : URLManager :=
  mkURLManager [mkURLInfo "https://yanyu.icu" false 0 0%float 0%float].

(** The selector after [Register] of each of [names], in order. *)
Definition registered (names : list string) : URLManager :=
  fold_left AddURL names NewURLManager.

(** *** Notions the properties of the selector are stated with *)

(** Every load is between [lo] and [hi]. *)
Definition loads_between (lo hi : Z) (um : URLManager) : Prop :=
  Forall (fun u => lo <= Load u <= hi) (urls um).

(** The body of the scan loop at index [i] of the round. *)
Definition visit (us : list URLInfo) (startIndex : nat)
    (acc : option nat * float) (i : nat) : option nat * float :=
  let idx := ((startIndex + i) mod length us)%nat in
  match us !! idx with
  | Some u => scan_step acc idx u
  | None => acc
  end.

(** Nothing selected yet means [minLoadRatio] is still [MaxFloat64]. *)
Definition fresh (acc : option nat * float) : Prop :=
  fst acc = None -> snd acc = MaxFloat64.

(** What the scan selects is a live mirror of the list. *)
Definition points_to_live (us : list URLInfo) (acc : option nat * float) : Prop :=
  forall idx, fst acc = Some idx -> exists u, us !! idx = Some u /\ Dead u = false.

(** What a mirror is after calls that only acquire: name, weight and
    response time as before, alive if it was, the load raised some number
    of times. *)
Definition untouched (u0 u : URLInfo) : Prop :=
  URL u = URL u0 /\ Weight u = Weight u0 /\ ResponseTime u = ResponseTime u0
  /\ (Dead u0 = false -> Dead u = false)
  /\ exists k : nat, Load u = Nat.iter k (fun l => wrap64 (l + 1)) (Load u0).

Definition only_acquired (um0 um : URLManager) : Prop :=
  Forall2 untouched (urls um0) (urls um).

End Selector.

(** ** Cache paths *)

Module Paths.

(** [const cacheDir = "cache"] *)
Definition cacheDir : string := "cache".

(** The character class [[a-fA-F0-9]]. *)
Definition is_hex (c : ascii) : bool :=
  let n := N_of_ascii c in
  ((48 <=? n) && (n <=? 57) || (97 <=? n) && (n <=? 102)
   || (65 <=? n) && (n <=? 70))%N.

(** The longest prefix of [s] made of hexadecimal digits: what the greedy
    group [([a-fA-F0-9]+)] captures once it has started. *)
Fixpoint take_hex (s : string) : string :=
  match s with
  | String c s' => if is_hex c then String c (take_hex s') else EmptyString
  | EmptyString => EmptyString
  end.

(** [strip_prefix p s = Some r] when [s = p ++ r]. *)
Fixpoint strip_prefix (p s : string) : option string :=
  match p, s with
  | EmptyString, _ => Some s
  | String a p', String b s' =>
      if Ascii.eqb a b then strip_prefix p' s' else None
  | String _ _, EmptyString => None
  end.

(** [regexp.MustCompile(`sha256:([a-fA-F0-9]+)`).FindStringSubmatch]: the
    first group of the leftmost match, when there is a match. *)
Fixpoint find_sha256 (s : string) : option string :=
  let here :=
    match strip_prefix "sha256:" s with
    | Some r =>
        match take_hex r with
        | EmptyString => None
        | h => Some h
        end
    | None => None
    end in
  match here with
  | Some h => Some h
  | None =>
      match s with
      | String _ s' => find_sha256 s'
      | EmptyString => None
      end
  end.

(** [parts := strings.Split(urlPath, "/"); parts[len(parts)-1]]: what
    follows the last ["/"], the whole string when there is none.  [cur] is
    the segment read so far. *)
Fixpoint last_segment_from (cur s : string) : string :=
  match s with
  | EmptyString => cur
  | String c s' =>
      if Ascii.eqb c "/" then last_segment_from EmptyString s'
      else last_segment_from (cur ++ String c EmptyString) s'
  end.

Definition last_segment (s : string) : string := last_segment_from EmptyString s.

Definition extractHashFromURL (urlPath : string) : string :=
  match find_sha256 urlPath with
  | Some h => h
  | None => last_segment urlPath
  end.

(** [strings.Contains(s, sub)] *)
Fixpoint Contains (s sub : string) : bool :=
  match strip_prefix sub s with
  | Some _ => true
  | None =>
      match s with
      | String _ s' => Contains s' sub
      | EmptyString => false
      end
  end.

Definition shouldCache (urlPath : string) : bool :=
  Contains urlPath "/blobs/sha256:".

(** [filepath.Join(cacheDir, elem)].  Every [elem] the program passes is a
    hash (a run of hexadecimal digits or a last path segment, so without a
    separator) followed by a non-empty suffix: [Clean] has nothing to
    rewrite and the result is the two joined by one separator. *)
Definition Join (dir elem : string) : string := dir ++ "/" ++ elem.

(** The verb [%d]. *)
Definition fmt_d (z : Z) : string := NilZero.string_of_int (Z.to_int z).

Definition getCacheFilePath (urlPath : string) : string :=
  Join cacheDir (extractHashFromURL urlPath ++ ".dat").

Definition getCacheFilePathWithPart (urlPath : string) (part : Z) : string :=
  Join cacheDir (extractHashFromURL urlPath ++ "_part_" ++ fmt_d part ++ ".dat").

Definition getRecordFilePath (urlPath : string) : string :=
  Join cacheDir (extractHashFromURL urlPath ++ "_record.txt").

(** Whether [c] occurs in [s]. *)
Fixpoint has_char (c : ascii) (s : string) : bool :=
  match s with
  | String x s' => Ascii.eqb x c || has_char c s'
  | EmptyString => false
  end.

(** [s] is made of hexadecimal digits. *)
Definition all_hex (s : string) : Prop := take_hex s = s.

End Paths.

(** ** The cache store on a file system *)

Module Cache.
Import Num Paths.

(** [const bufSize = 64 * 1024], [const chunkSize = 100 * 1024 * 1024] *)
Definition bufSize : Z := 64 * 1024.
Definition chunkSize : Z := 100 * 1024 * 1024.

(** The directory [cache]: regular files by path.  [os.Stat] and [os.Open]
    fail exactly on the paths that are not in the map, [os.Create] binds the
    path to the empty file, [Write] appends, [os.Remove] deletes.  The
    directory exists ([main] creates it) and the disk takes what is
    written: [os.Create] and [Write] do not fail here, so the branches of
    the program that only log such a failure and return are not reached. *)
Abbreviation FS := (gmap string (list byte)).

Definition Create (p : string) (fs : FS) : FS := <[p := []]> fs.
Definition Write (p : string) (data : list byte) (fs : FS) : FS :=
  alter (fun old => (old ++ data)%list) p fs.
Definition Remove (p : string) (fs : FS) : FS := delete p fs.

Definition newline : string := String "010"%char EmptyString.

Definition is_digit (c : ascii) : bool :=
  let n := N_of_ascii c in ((48 <=? n) && (n <=? 57))%N.

(** A space of [fmt]'s scanning other than the newline, among the
    characters of ASCII: space, tab, vertical tab, form feed, carriage
    return. *)
Definition is_blank (c : ascii) : bool :=
  Ascii.eqb c " " || Ascii.eqb c "009" || Ascii.eqb c "011" || Ascii.eqb c "012"
  || Ascii.eqb c "013".

Fixpoint skip_blanks (s : string) : string :=
  match s with
  | String c s' => if is_blank c then skip_blanks s' else s
  | EmptyString => EmptyString
  end.

(** The digits [s] starts with, read as a decimal number on top of [acc],
    with how many there were and the rest of [s]. *)
Fixpoint read_digits (acc : Z) (seen : nat) (s : string) : Z * nat * string :=
  match s with
  | String c s' =>
      if is_digit c
      then read_digits (10 * acc + Z.of_N (N_of_ascii c) - 48) (S seen) s'
      else (acc, seen, s)
  | EmptyString => (acc, seen, s)
  end.

(** A signed decimal number at the head of [s], within 64 bits. *)
Definition read_int (s : string) : option (Z * string) :=
  let '(neg, s1) :=
    match s with
    | String "-" r => (true, r)
    | String "+" r => (false, r)
    | _ => (false, s)
    end in
  let '(v, seen, rest) := read_digits 0 O s1 in
  let v := if neg : bool then - v else v in
  match seen with
  | O => None
  | S _ => if (MinInt64 <=? v) && (v <=? MaxInt64) then Some (v, rest) else None
  end.

(** [strconv.ParseInt(s, 10, 64)]: the whole of [s] is one number. *)
Definition ParseInt (s : string) : option Z :=
  match read_int s with
  | Some (v, EmptyString) => Some v
  | _ => None
  end.

(** [fmt.Sprintf("Parts: %d\nTotalSize: %d\n", part, totalReadSize)] *)
Definition Sprintf_record (part totalReadSize : Z) : string :=
  "Parts: " ++ fmt_d part ++ newline ++ "TotalSize: " ++ fmt_d totalReadSize ++ newline.

(** A space of the format that stands alone: it takes one blank at
    least, or the end of the input, and then every blank that follows; a
    newline or another character there ends the scan. *)
Definition format_space (s : string) : option string :=
  match s with
  | String c r => if is_blank c then Some (skip_blanks r) else None
  | EmptyString => Some EmptyString
  end.

(** [fmt.Fscanf(recordFile, "Parts: %d\nTotalSize: %d\n", &partCount, &totalSize)]
    with its error dropped, as the program drops it: a variable the scan did
    not reach keeps its zero value.  The text of the format is matched
    character by character; the verb [%d] skips blanks and reads an
    optional sign and decimal digits, a number within 64 bits; the newline
    of the format takes blanks and a newline.  The record is taken as
    ASCII: the spaces of Unicode beyond it are not known here. *)
Definition Fscanf_record (s : string) : Z * Z :=
  match strip_prefix "Parts:" s with
  | None => (0, 0)
  | Some r1 =>
      match format_space r1 with
      | None => (0, 0)
      | Some r1' =>
          match read_int (skip_blanks r1') with
          | None => (0, 0)
          | Some (partCount, r2) =>
              match strip_prefix newline (skip_blanks r2) with
              | None => (partCount, 0)
              | Some r3 =>
                  match strip_prefix "TotalSize:" r3 with
                  | None => (partCount, 0)
                  | Some r4 =>
                      match format_space r4 with
                      | None => (partCount, 0)
                      | Some r4' =>
                          match read_int (skip_blanks r4') with
                          | None => (partCount, 0)
                          | Some (totalSize, _) => (partCount, totalSize)
                          end
                      end
                  end
              end
          end
      end
  end.

Definition partCount_of (recordFile : list byte) : Z :=
  fst (Fscanf_record (string_of_list_byte recordFile)).

(** The loop [for part := 0; part < partCount; part++] of [serveFromCache],
    with [n] rounds left: each part is opened and copied to [w]; a part
    that cannot be opened ends the function with [false].  The client
    takes every part here; [Served.serve_parts_to] is the loop with a
    client whose copy can fail, which also ends the function with
    [false]. *)
Fixpoint serve_parts (fs : FS) (cacheFilePath : string) (n : nat) (part : Z)
    (w : list byte) : bool * list byte :=
  match n with
  | O => (true, w)
  | S n' =>
      match fs !! getCacheFilePathWithPart cacheFilePath part with
      | None => (false, w)
      | Some data => serve_parts fs cacheFilePath n' (part + 1) (w ++ data)%list
      end
  end.

(** [serveFromCache(w, cacheFilePath)]: the result and the bytes the
    response writer [w] has received. *)
Definition serveFromCache (fs : FS) (w : list byte) (cacheFilePath : string)
  : bool * list byte :=
  let recordFilePath := getRecordFilePath cacheFilePath in
  match fs !! recordFilePath with
  | None =>
      match fs !! cacheFilePath with
      | None => (false, w)
      | Some data => (true, (w ++ data)%list)
      end
  | Some recordFile =>
      serve_parts fs cacheFilePath (Z.to_nat (partCount_of recordFile)) 0 w
  end.

(** The reading loop of [checkCacheFileSize]: the parts in order into
    [reader], [None] when one cannot be opened. *)
Fixpoint read_parts (fs : FS) (cacheFilePath : string) (n : nat) (part : Z)
    (reader : list byte) : option (list byte) :=
  match n with
  | O => Some reader
  | S n' =>
      match fs !! getCacheFilePathWithPart cacheFilePath part with
      | None => None
      | Some content => read_parts fs cacheFilePath n' (part + 1) (reader ++ content)%list
      end
  end.

(** The removing loop of [checkCacheFileSize]. *)
Fixpoint remove_parts (cacheFilePath : string) (n : nat) (part : Z) (fs : FS) : FS :=
  match n with
  | O => fs
  | S n' =>
      remove_parts cacheFilePath n' (part + 1)
        (Remove (getCacheFilePathWithPart cacheFilePath part) fs)
  end.

Section Verify.

(** [fmt.Sprintf("%x", sha)] of [calculateSHA256]: the lower-case
    hexadecimal SHA-256 digest of the bytes, a function of [crypto/sha256]
    taken as given. *)
Variable sha256_hex : list byte -> string.

(** [checkCacheFileSize(url, contentLengthStr, logger)] *)
Definition checkCacheFileSize (url contentLengthStr : string) (fs : FS) : FS :=
  if String.eqb contentLengthStr "" then fs
  else
    match ParseInt contentLengthStr with
    | None => fs
    | Some _ =>
        let cacheFilePath := getCacheFilePath url in
        let recordFilePath := getRecordFilePath cacheFilePath in
        match fs !! recordFilePath with
        | None =>
            match fs !! cacheFilePath with
            | None => fs
            | Some buf =>
                if String.eqb (sha256_hex buf) (extractHashFromURL url) then fs
                else Remove cacheFilePath fs
            end
        | Some recordFile =>
            let partCount := Z.to_nat (partCount_of recordFile) in
            match read_parts fs cacheFilePath partCount 0 [] with
            | None => fs
            | Some content =>
                if String.eqb (sha256_hex content) (extractHashFromURL url) then fs
                else Remove recordFilePath (remove_parts cacheFilePath partCount 0 fs)
            end
        end
    end.

End Verify.

(** *** The tee-writing body loop of [proxyRequest] *)

Inductive ReadErr : Type := ErrNil | ErrEOF | ErrOther.

(** One round of [n, err := resp.Body.Read(buf)]: the [n] bytes read, the
    error, and whether the client then accepts them ([w.Write]). *)
Record ReadEvent : Type := mkRead {
  rdata : list byte;
  rerr : ReadErr;
  wok : bool
}.

(** The variables of [proxyRequest] the loop works on.  The open
    [*os.File] is the path it was created at. *)
Record Copy : Type := mkCopy {
  fs_of : FS;
  w_of : list byte;
  builder : list byte;
  cacheFile : option string;
  cacheFilePath : string;
  part : Z;
  totalReadSize : Z
}.

Inductive CopyEnd : Type :=
| AtEOF       (* [break]: the body was read to its end *)
| Returned    (* [return] from a failing read or write *)
| Reading.    (* the events given are used up, the loop still runs *)

(** The cache side of one round with [n > 0], split mode. *)
Definition tee_split (urlPath : string) (data : list byte) (st : Copy) : Copy :=
  let n := Z.of_nat (length data) in
  let rotate :=
    match cacheFile st with
    | None => true
    | Some _ => chunkSize <? wrap64 (totalReadSize st + n)
    end in
  let st1 :=
    if rotate then
      let total := match cacheFile st with Some _ => 0 | None => totalReadSize st end in
      let path := getCacheFilePathWithPart urlPath (part st) in
      mkCopy (Create path (fs_of st)) (w_of st) (builder st) (Some path) path
        (wrap64 (part st + 1)) total
    else st in
  match cacheFile st1 with
  | Some f =>
      mkCopy (Write f data (fs_of st1)) (w_of st1) (builder st1) (cacheFile st1)
        (cacheFilePath st1) (part st1) (wrap64 (totalReadSize st1 + n))
  | None => st1
  end.

(** The cache side of one round with [n > 0], flat mode. *)
Definition tee_flat (data : list byte) (st : Copy) : Copy :=
  let st1 :=
    match cacheFile st with
    | None =>
        mkCopy (Create (cacheFilePath st) (fs_of st)) (w_of st) (builder st)
          (Some (cacheFilePath st)) (cacheFilePath st) (part st) (totalReadSize st)
    | Some _ => st
    end in
  match cacheFile st1 with
  | Some f =>
      mkCopy (Write f data (fs_of st1)) (w_of st1) (builder st1) (cacheFile st1)
        (cacheFilePath st1) (part st1) (totalReadSize st1)
  | None => st1
  end.

Definition with_fs (fs : FS) (st : Copy) : Copy :=
  mkCopy fs (w_of st) (builder st) (cacheFile st) (cacheFilePath st) (part st)
    (totalReadSize st).

(** [os.Remove(cacheFilePath)] under [if shouldCache(proxyURL.Path)] *)
Definition abort (urlPath : string) (st : Copy) : Copy :=
  if shouldCache urlPath then with_fs (Remove (cacheFilePath st) (fs_of st)) st
  else st.

(** The loop [for { n, err := resp.Body.Read(buf) ... }].  The error of a
    read is used as [Read] returns it.  In a round that opens a file the
    program assigns the result of [os.Create] to the same variable, so
    that an error or the end reported together with bytes is lost there
    and the loop reads once more: the loop is as the program has it for
    bodies whose reads report an error or the end without a byte, or
    where that round is followed by a read that reports the same without
    a byte. *)
Fixpoint copy_body (urlPath : string) (split : bool) (evs : list ReadEvent)
    (st : Copy) : CopyEnd * Copy :=
  match evs with
  | [] => (Reading, st)
  | ev :: evs' =>
      let data := rdata ev in
      let st1 :=
        if (0 <? Z.of_nat (length data)) then
          let st0 :=
            mkCopy (fs_of st) (w_of st) (builder st ++ data)%list (cacheFile st)
              (cacheFilePath st) (part st) (totalReadSize st) in
          if shouldCache urlPath then
            if split then tee_split urlPath data st0 else tee_flat data st0
          else st0
        else st in
      if (0 <? Z.of_nat (length data)) && negb (wok ev) then
        (Returned, abort urlPath st1)
      else
        let st2 :=
          if (0 <? Z.of_nat (length data)) then
            mkCopy (fs_of st1) (w_of st1 ++ data)%list (builder st1) (cacheFile st1)
              (cacheFilePath st1) (part st1) (totalReadSize st1)
          else st1 in
        match rerr ev with
        | ErrEOF => (AtEOF, st2)
        | ErrOther => (Returned, abort urlPath st2)
        | ErrNil => copy_body urlPath split evs' st2
        end
  end.

(** After the loop: the record file of a split entry. *)
Definition write_record (urlPath : string) (split : bool) (st : Copy) : Copy :=
  if shouldCache urlPath && split then
    with_fs
      (<[getRecordFilePath urlPath :=
           list_byte_of_string (Sprintf_record (part st) (totalReadSize st))]>
         (fs_of st)) st
  else st.

(** The size of the file at [q], when there is one. *)
Definition file_size (fs0 : gmap string (list byte)) (q : string) : option Z :=
  (fun d => Z.of_nat (length d)) <$> fs0 !! q.

End Cache.

(** ** URLs of [net/url], as far as [proxyRequest] uses them *)

Module Url.
Import Paths.

(** [url.URL]: the fields the program reads or sets. *)
Record URL : Type := mkURL {
  Scheme : string;
  Host : string;
  Path : string;
  RawQuery : string
}.

Definition is_alpha (c : ascii) : bool :=
  let n := N_of_ascii c in
  ((97 <=? n) && (n <=? 122) || (65 <=? n) && (n <=? 90))%N.

Definition is_alnum (c : ascii) : bool :=
  let n := N_of_ascii c in
  is_alpha c || ((48 <=? n) && (n <=? 57))%N.

Definition to_lower (c : ascii) : ascii :=
  let n := N_of_ascii c in
  if ((65 <=? n) && (n <=? 90))%N then ascii_of_N (n + 32) else c.

Fixpoint lower (s : string) : string :=
  match s with
  | String c s' => String (to_lower c) (lower s')
  | EmptyString => EmptyString
  end.

(** [s] cut at the first character that satisfies [stop]: what is before
    it, and the rest from that character on. *)
Fixpoint cut_at (stop : ascii -> bool) (s : string) : string * string :=
  match s with
  | String c s' =>
      if stop c then (EmptyString, s)
      else let '(a, b) := cut_at stop s' in (String c a, b)
  | EmptyString => (EmptyString, EmptyString)
  end.

Definition scheme_char (c : ascii) : bool :=
  is_alnum c || Ascii.eqb c "+" || Ascii.eqb c "-" || Ascii.eqb c ".".

(** [getScheme]: a letter, then scheme characters, then [":"]. *)
Definition getScheme (raw : string) : option (string * string) :=
  match raw with
  | String c _ =>
      if is_alpha c then
        match cut_at (fun x => negb (scheme_char x)) raw with
        | (sch, String ":" rest) => Some (sch, rest)
        | _ => None
        end
      else None
  | EmptyString => None
  end.

Definition hex_digit (n : N) : ascii :=
  if (n <? 10)%N then ascii_of_N (48 + n) else ascii_of_N (55 + n).

(** [shouldEscape(c, encodePath)]: letters, digits and the marks
    [-_.~] are never escaped; of the reserved characters
    [$&+,/:;=?@] a path keeps all but [?]; everything else is
    escaped. *)
Definition shouldEscape (c : ascii) : bool :=
  if is_alnum c then false
  else if Ascii.eqb c "-" || Ascii.eqb c "_" || Ascii.eqb c "." || Ascii.eqb c "~"
  then false
  else if Ascii.eqb c "$" || Ascii.eqb c "&" || Ascii.eqb c "+" || Ascii.eqb c ","
          || Ascii.eqb c "/" || Ascii.eqb c ":" || Ascii.eqb c ";" || Ascii.eqb c "="
          || Ascii.eqb c "@"
  then false
  else true.

Fixpoint all_chars (ok : ascii -> bool) (s : string) : bool :=
  match s with
  | String c s' => ok c && all_chars ok s'
  | EmptyString => true
  end.

(** A character of a registered name: a letter, a digit or one of the
    marks [-_.~], which [url.Parse] takes as they are in a host. *)
Definition name_char (c : ascii) : bool :=
  is_alnum c || Ascii.eqb c "-" || Ascii.eqb c "_" || Ascii.eqb c "." || Ascii.eqb c "~".

Definition port_char (c : ascii) : bool :=
  let n := N_of_ascii c in ((48 <=? n) && (n <=? 57))%N.

(** A host [name] or [name:port], the port a run of digits. *)
Definition valid_host (host : string) : bool :=
  let '(name, port) := cut_at (fun x => Ascii.eqb x ":") host in
  all_chars name_char name
  && match port with
     | String _ digits => all_chars port_char digits
     | EmptyString => true
     end.

(** [url.Parse] on the URLs of the form [scheme://host[:port][/path]]
    whose path needs no escaping, the form of every mirror the program
    registers: there [url.Parse] succeeds with these fields, no [RawPath]
    and no query.  Anything else (no scheme, no authority, user
    information, a query, a fragment, escapes, other characters) is left
    outside this model and gives [None]. *)
Definition Parse (raw : string) : option URL :=
  match getScheme raw with
  | Some (sch, rest) =>
      match strip_prefix "//" rest with
      | Some r =>
          let '(host, path) := cut_at (fun x => Ascii.eqb x "/") r in
          if valid_host host && all_chars (fun c => negb (shouldEscape c)) path
          then Some (mkURL (lower sch) host path EmptyString)
          else None
      | None => None
      end
  | None => None
  end.

(** [escape(s, encodePath)]: what [EscapedPath] returns for a URL whose
    [Path] was assigned directly. *)
Fixpoint escape (s : string) : string :=
  match s with
  | String c s' =>
      if shouldEscape c then
        let n := N_of_ascii c in
        String "%" (String (hex_digit (n / 16)) (String (hex_digit (n mod 16)) (escape s')))
      else String c (escape s')
  | EmptyString => EmptyString
  end.

Definition EscapedPath (u : URL) : string :=
  if String.eqb (Path u) "*" then "*" else escape (Path u).

(** The method [String] of [URL], for a URL without opaque part, user and fragment; the
    host is written as it is. *)
Definition String_ (u : URL) : string :=
  let s1 := if String.eqb (Scheme u) "" then "" else Scheme u ++ ":" in
  let s2 :=
    if negb (String.eqb (Scheme u) "") || negb (String.eqb (Host u) "") then
      (if negb (String.eqb (Host u) "") || negb (String.eqb (Path u) "")
       then "//" else "") ++ Host u
    else "" in
  let path := EscapedPath u in
  let s3 :=
    match path with
    | String c _ =>
        if negb (Ascii.eqb c "/") && negb (String.eqb (Host u) "") then "/" else ""
    | EmptyString => ""
    end in
  let s4 := if String.eqb (RawQuery u) "" then "" else "?" ++ RawQuery u in
  s1 ++ s2 ++ s3 ++ path ++ s4.

(** The number of ["/"] in [s]. *)
Fixpoint count_slash (s : string) : nat :=
  match s with
  | String c s' => ((if Ascii.eqb c "/" then 1 else 0) + count_slash s')%nat
  | EmptyString => O
  end.

(** A base URL, scheme and host only: no ["/"] but the two that follow the
    scheme, and a host that is not empty. *)
Definition base_url (b : string) : bool :=
  (count_slash b <=? 2)%nat
  && match Parse b with
     | Some u => negb (String.eqb (Host u) "")
     | None => true
     end.

End Url.

(** ** The forwarder: [proxyRequest] *)

Module Forwarder.
Import Num Selector Paths Cache.

(** The inbound [*http.Request]: what the forwarder reads of it. *)
Record Request : Type := mkRequest {
  Method : string;
  URL_Path : string;
  URL_RawQuery : string
}.

(** What [client.Do(proxyReq)] and the clock give for one attempt. *)
Inductive Upstream : Type :=
| DoError (responseTime : float)
| DoResponse (responseTime : float) (StatusCode : Z) (ContentLength : Z)
    (ContentLengthHeader : string) (body : list ReadEvent).

(** How a run of [proxyRequest] ends, or where it stands when the script
    of upstream answers is used up. *)
Inductive End : Type :=
| ServedFromCache
| TicketsSpent          (* [if tickets >= 6 { return }] *)
| NoAvailableURLs       (* 503 *)
| ParseFailure          (* 500 *)
| Streamed (e : CopyEnd)
| GetRunning            (* [Get] has not returned within the fuel *)
| AwaitingUpstream.     (* the next [client.Do] has no scripted answer *)

(** The state of one run: the shared selector [glourls], the cache
    directory, the response (status line and body sent), the local
    [tickets], the deferred [tickets++] closures not yet run, the number of
    [client.Do] calls made, and the arguments of the verification task the
    run has started, when it has. *)
Record Run : Type := mkRun {
  glourls : URLManager;
  fs : FS;
  status : option Z;
  sent : list byte;
  tickets : Z;
  deferred : nat;
  attempts : nat;
  verify : option (string * string)
}.

Definition StatusNotFound : Z := 404.
Definition StatusServiceUnavailable : Z := 503.
Definition StatusInternalServerError : Z := 500.

(** [w.WriteHeader(code)]: the first status stands. *)
Definition WriteHeader (code : Z) (r : Run) : Run :=
  mkRun (glourls r) (fs r)
    (match status r with Some c => Some c | None => Some code end)
    (sent r) (tickets r) (deferred r) (attempts r) (verify r).

(** [http.Error(w, msg, code)] *)
Definition Error (msg : string) (code : Z) (r : Run) : Run :=
  let r1 := WriteHeader code r in
  mkRun (glourls r1) (fs r1) (status r1)
    (sent r1 ++ list_byte_of_string (msg ++ newline))%list
    (tickets r1) (deferred r1) (attempts r1) (verify r1).

Definition with_glourls (um : URLManager) (r : Run) : Run :=
  mkRun um (fs r) (status r) (sent r) (tickets r) (deferred r) (attempts r) (verify r).

(** [defer func() { tickets++ }()]: the closure is only recorded here; it
    runs when [proxyRequest] returns. *)
Definition defer_tick (r : Run) : Run :=
  mkRun (glourls r) (fs r) (status r) (sent r) (tickets r) (S (deferred r))
    (attempts r) (verify r).

(** The deferred closures, run at the return of [proxyRequest]. *)
Definition run_deferred (r : Run) : Run :=
  mkRun (glourls r) (fs r) (status r) (sent r)
    (Nat.iter (deferred r) (fun t => wrap64 (t + 1)) (tickets r)) O
    (attempts r) (verify r).

Definition count_attempt (r : Run) : Run :=
  mkRun (glourls r) (fs r) (status r) (sent r) (tickets r) (deferred r)
    (S (attempts r)) (verify r).

(** The string [proxyURL.String()] of an attempt on [targetURL]. *)
Definition proxied (req : Request) (proxyURL : Url.URL) : string :=
  Url.String_
    (Url.mkURL (Url.Scheme proxyURL) (Url.Host proxyURL) (URL_Path req)
       (URL_RawQuery req)).

(** Lines 320 to 424: the response is streamed to the client and teed
    into the cache. *)
Definition stream (req : Request) (cacheFilePath : string) (StatusCode : Z)
    (ContentLength : Z) (ContentLengthHeader : string) (body : list ReadEvent)
    (r : Run) : End * Run :=
  let r1 := WriteHeader StatusCode r in
  let split := 100 * 1024 * 1024 <? ContentLength in
  let '(e, c) :=
    copy_body (URL_Path req) split body
      (mkCopy (fs r1) (sent r1) [] None cacheFilePath 0 0) in
  match e with
  | AtEOF =>
      let c1 := write_record (URL_Path req) split c in
      (Streamed AtEOF,
       mkRun (glourls r1) (fs_of c1) (status r1) (w_of c1) (tickets r1)
         (deferred r1) (attempts r1)
         (if shouldCache (URL_Path req)
          then Some (Cache.cacheFilePath c1, ContentLengthHeader)
          else None))
  | _ =>
      (Streamed e,
       mkRun (glourls r1) (fs_of c) (status r1) (w_of c) (tickets r1)
         (deferred r1) (attempts r1) None)
  end.

(** The loop [for { defer func() { tickets++ }(); if tickets >= 6 ... }]:
    one round for each scripted upstream answer.  [fuel] bounds each call
    of [Get]; [rnd] is the generator of [glourls]. *)
Fixpoint attempt_loop (fuel : nat) (req : Request) (cacheFilePath : string)
    (script : list Upstream) (rnd : nat -> nat) (r : Run) : End * Run :=
  let r := defer_tick r in
  if 6 <=? tickets r then (TicketsSpent, r)
  else
    let g := Get fuel rnd (glourls r) in
    let r := with_glourls (after g) r in
    let rnd' := fun k => rnd (k + S (resumes g))%nat in
    match got g with
    | None => (GetRunning, r)
    | Some targetURL =>
        if String.eqb targetURL "" then
          (NoAvailableURLs, Error "No available URLs" StatusServiceUnavailable r)
        else
          match Url.Parse targetURL with
          | None =>
              (ParseFailure,
               Error "Failed to parse target URL" StatusInternalServerError r)
          | Some proxyURL =>
              match script with
              | [] => (AwaitingUpstream, r)
              | DoError _ :: script' =>
                  attempt_loop fuel req cacheFilePath script' rnd' (count_attempt r)
              | DoResponse responseTime StatusCode ContentLength clh body :: script' =>
                  let r := count_attempt r in
                  let r :=
                    with_glourls
                      (Done (glourls r) (proxied req proxyURL) responseTime ContentLength)
                      r in
                  if StatusCode =? StatusNotFound then
                    attempt_loop fuel req cacheFilePath script' rnd'
                      (with_glourls (MarkDead (glourls r) (proxied req proxyURL)) r)
                  else stream req cacheFilePath StatusCode ContentLength clh body r
              end
          end
    end.

(** Whether [proxyRequest] has returned: the deferred closures have run. *)
Definition has_returned (e : End) : bool :=
  match e with
  | GetRunning | AwaitingUpstream | Streamed Reading => false
  | _ => true
  end.

(** [proxyRequest(w, r)] on the selector [um] and the cache [fs0].  The
    log file of the request opens (it is written, closed, and read by
    nothing) and the client of a cache read takes every byte;
    [Served.proxyRequest_in] is the run with a log file that may not open
    and a client that may fail.  [http.NewRequest] is given a method and
    a URL it accepts. *)
Definition proxyRequest (fuel : nat) (req : Request) (script : list Upstream)
    (rnd : nat -> nat) (um : URLManager) (fs0 : FS) : End * Run :=
  let cacheFilePath := getCacheFilePath (URL_Path req) in
  let r0 := mkRun um fs0 None [] 0 O O None in
  let '(hit, w) :=
    if shouldCache (URL_Path req) then serveFromCache fs0 [] cacheFilePath
    else (false, []) in
  if hit then (ServedFromCache, mkRun um fs0 (Some 200) w 0 O O None)
  else
    let r1 :=
      mkRun um fs0 (match w with [] => None | _ => Some 200 end) w 0 O O None in
    let '(e, r) := attempt_loop fuel req cacheFilePath script rnd r1 in
    (e, if has_returned e then run_deferred r else r).

(** The verification task of a run, executed: [go checkCacheFileSize(...)]. *)
Definition run_verify (sha256_hex : list byte -> string) (r : Run) : FS :=
  match verify r with
  | Some (url, contentLengthStr) =>
      checkCacheFileSize sha256_hex url contentLengthStr (fs r)
  | None => fs r
  end.

(** One inbound request with what its run meets: the fuel of each [Get],
    the upstream answers, the generator. *)
Record Inbound : Type := mkInbound {
  in_fuel : nat;
  in_req : Request;
  in_script : list Upstream;
  in_rnd : nat -> nat
}.

(** A sequence of requests served one after the other on the shared
    selector and cache. *)
Definition serve_all (ins : list Inbound) (um : URLManager) (fs0 : FS)
  : URLManager * FS :=
  fold_left
    (fun st i =>
       let r := snd (proxyRequest (in_fuel i) (in_req i) (in_script i) (in_rnd i)
                       (fst st) (snd st)) in
       (glourls r, fs r))
    ins (um, fs0).

(** A blob request, as a registry client sends it. *)
Definition blob_request : Request :=
  mkRequest "GET"
    "/v2/library/nginx/blobs/sha256:e3b0c44298fc1c149afbf4c8996fb92427ae41e4649b934ca495991b7852b855"
    "".

(** The selector of [main]. *)
Definition main_urls : URLManager :=
  registered
    ["https://yanyu.icu"; "https://hub.rat.dev"; "https://docker.anyhub.us.kg";
     "https://docker.chenby.cn"; "https://hub.alduin.net";
     "https://docker.jsdelivr.fyi"; "https://dockercf.jsdelivr.fyi";
     "https://dockertest.jsdelivr.fyi"].

End Forwarder.

(** ** The client of a cache read and the log file of a request *)

Module Served.
Import Num Selector Paths Cache Forwarder.

(** The loop of [serveFromCache] with a client that may stop taking
    bytes: [accepts part] is [None] when [io.Copy(w, cacheFile)] copies
    the whole of the part, and [Some k] when it fails after [k] bytes,
    which makes [serveFromCache] return [false]. *)
Fixpoint serve_parts_to (accepts : Z -> option nat) (fs : FS) (cacheFilePath : string)
    (n : nat) (part : Z) (w : list byte) : bool * list byte :=
  match n with
  | O => (true, w)
  | S n' =>
      match fs !! getCacheFilePathWithPart cacheFilePath part with
      | None => (false, w)
      | Some data =>
          match accepts part with
          | None =>
              serve_parts_to accepts fs cacheFilePath n' (part + 1) (w ++ data)%list
          | Some k => (false, (w ++ take k data)%list)
          end
      end
  end.

(** [serveFromCache(w, cacheFilePath)] with such a client.  The copy of a
    flat file is not checked: [true] is returned whatever it gives. *)
Definition serveFromCache_to (accepts : Z -> option nat) (fs : FS) (w : list byte)
    (cacheFilePath : string) : bool * list byte :=
  let recordFilePath := getRecordFilePath cacheFilePath in
  match fs !! recordFilePath with
  | None =>
      match fs !! cacheFilePath with
      | None => (false, w)
      | Some data =>
          (true,
           (w ++ match accepts 0 with None => data | Some k => take k data end)%list)
      end
  | Some recordFile =>
      serve_parts_to accepts fs cacheFilePath (Z.to_nat (partCount_of recordFile)) 0 w
  end.

(** What a run of [proxyRequest] meets besides the mirrors: whether
    [os.OpenFile] opens the log file of the request, and the client of the
    cache read. *)
Record Env : Type := mkEnv {
  log_opens : bool;
  accepts : Z -> option nat
}.

(** A run that stops at the log file it cannot open, or goes on. *)
Inductive Outcome : Type :=
| LogNotOpened (r : Run)
| Ran (e : End) (r : Run).

(** [proxyRequest(w, r)] in the environment [env]: lines 247 to 262, then
    the loop. *)
Definition proxyRequest_in (env : Env) (fuel : nat) (req : Request)
    (script : list Upstream) (rnd : nat -> nat) (um : URLManager) (fs0 : FS)
  : Outcome :=
  let cacheFilePath := getCacheFilePath (URL_Path req) in
  let '(hit, w) :=
    if shouldCache (URL_Path req)
    then serveFromCache_to (accepts env) fs0 [] cacheFilePath
    else (false, []) in
  if hit then Ran ServedFromCache (mkRun um fs0 (Some 200) w 0 O O None)
  else
    let r1 :=
      mkRun um fs0 (match w with [] => None | _ => Some 200 end) w 0 O O None in
    if log_opens env then
      let '(e, r) := attempt_loop fuel req cacheFilePath script rnd r1 in
      Ran e (if has_returned e then run_deferred r else r)
    else LogNotOpened r1.

End Served.

(** ** The load ratio of the scan *)

Module Ratio.
Import Num Selector.

(** [loadRatio := float64(urlInfo.Load) / urlInfo.Weight] *)
Definition loadRatio (u : URLInfo) : float :=
  PrimFloat.div (float64_of_int (Load u)) (Weight u).

(** No live mirror of [us] has a load ratio below that of [u]. *)
Definition least_loaded (us : list URLInfo) (u : URLInfo) : Prop :=
  forall v, v ∈ us -> Dead v = false ->
  PrimFloat.ltb (loadRatio v) (loadRatio u) = false.

(** What is selected carries [minLoadRatio]. *)
Definition carries_min (us : list URLInfo) (acc : option nat * float) : Prop :=
  forall idx, fst acc = Some idx ->
  exists u, us !! idx = Some u /\ Dead u = false /\ snd acc = loadRatio u.

End Ratio.

(** ** The parts of a split entry while it is written *)

Module Chunks.
Import Num Paths Cache.

(** What holds of the cache directory [fs1] between two rounds of the
    body loop in split mode, [fs0] being the directory the loop started
    on: the open file is the part before [part] and holds [total] bytes;
    the parts below [part] are within [chunkSize]; the others are as they
    were. *)
Definition part_inv (urlPath : string) (fs0 fs1 : FS) (cf : option string)
    (part total : Z) : Prop :=
  0 <= part
  /\ 0 <= total <= chunkSize
  /\ match cf with
     | None => total = 0
     | Some f =>
         f = getCacheFilePathWithPart urlPath (part - 1) /\ 0 < part
         /\ exists d, fs1 !! f = Some d /\ Z.of_nat (length d) = total
     end
  /\ (forall i d, 0 <= i < part ->
        fs1 !! getCacheFilePathWithPart urlPath i = Some d ->
        Z.of_nat (length d) <= chunkSize)
  /\ (forall i, i < 0 \/ part <= i ->
        fs1 !! getCacheFilePathWithPart urlPath i
        = fs0 !! getCacheFilePathWithPart urlPath i).

(** Every part file of [fs1] is within [chunkSize], or is a file of
    [fs0] left as it was. *)
Definition parts_bounded (urlPath : string) (fs0 fs1 : FS) : Prop :=
  forall i d,
    fs1 !! getCacheFilePathWithPart urlPath i = Some d ->
    Z.of_nat (length d) <= chunkSize
    \/ fs0 !! getCacheFilePathWithPart urlPath i = Some d.

End Chunks.

(** ** The rate limiter of the second program *)

Module Limiter.
Import Num.

(** A [time.Time] is a number of nanoseconds since the Unix epoch, a
    [time.Duration] a number of nanoseconds.  Requests are taken one at a
    time. *)
Definition Second : Z := 1000000000.
Definition Minute : Z := 60 * Second.
Definition Hour : Z := 60 * Minute.

Definition blacklistTime : Z := Hour.
Definition requestLimit : Z := 5.
Definition cleanupInterval : Z := Minute.

(** [t.Unix()], [t.Before(u)], [t.Add(d)] *)
Definition Unix (t : Z) : Z := t / Second.
Definition Before (t u : Z) : bool := t <? u.
Definition Add (t d : Z) : Z := t + d.

(** The two [sync.Map]s: the counts of each address by second, and the
    time until which an address is refused. *)
Record State : Type := mkState {
  requestCounts : gmap string (gmap Z Z);
  blacklist : gmap string Z
}.

(** One round of the loop of [cleanupBlacklist], at time [now]. *)
Definition cleanupBlacklist (now : Z) (st : State) : State :=
  mkState (requestCounts st)
    (filter (fun kv : string * Z => Before kv.2 now = false) (blacklist st)).

(** What the handler does with a request: 403, 429, or [next(w, r)]. *)
Inductive Answer : Type := Forbidden | TooManyRequests | Next.

(** The three readings of [time.Now()] in one call of the handler. *)
Record Clock : Type := mkClock {
  at_check : Z;
  at_count : Z;
  at_store : Z
}.

(** The handler [rateLimiter(next)] returns, for a request of [ip]. *)
Definition rateLimiter (ip : string) (c : Clock) (st : State) : Answer * State :=
  let checked :=
    match blacklist st !! ip with
    | Some expireTime =>
        if Before (at_check c) expireTime then None
        else Some (delete ip (blacklist st))
    | None => Some (blacklist st)
    end in
  match checked with
  | None => (Forbidden, st)
  | Some bl =>
      let now := Unix (at_count c) in
      let userRequests := default ∅ (requestCounts st !! ip) in
      let currentCount := wrap64 (default 0 (userRequests !! now) + 1) in
      let userRequests := <[now := currentCount]> userRequests in
      if requestLimit <? currentCount then
        (TooManyRequests,
         mkState (<[ip := userRequests]> (requestCounts st))
           (<[ip := Add (at_store c) blacklistTime]> bl))
      else
        (Next,
         mkState
           (<[ip := filter (fun kv : Z * Z => (kv.1 <? now) = false) userRequests]>
              (requestCounts st))
           bl)
  end.

(** Requests handled one after the other: the answers, and the state
    left. *)
Fixpoint serve (reqs : list (string * Clock)) (st : State) : list Answer * State :=
  match reqs with
  | [] => ([], st)
  | (ip, c) :: reqs' =>
      let '(a, st1) := rateLimiter ip c st in
      let '(l, st2) := serve reqs' st1 in
      (a :: l, st2)
  end.

(** The count of [ip] for the second [s]. *)
Definition count_at (ip : string) (s : Z) (st : State) : Z :=
  default 0 (default ∅ (requestCounts st !! ip) !! s).

End Limiter.

(** ** Decimal digits, for the record file *)

Module Digits.
Import Cache.

(** The number a run of decimal digits denotes, on top of [acc]. *)
Fixpoint uval (acc : Z) (d : Decimal.uint) : Z :=
  match d with
  | Decimal.Nil => acc
  | Decimal.D0 d' => uval (10 * acc + 0) d'
  | Decimal.D1 d' => uval (10 * acc + 1) d'
  | Decimal.D2 d' => uval (10 * acc + 2) d'
  | Decimal.D3 d' => uval (10 * acc + 3) d'
  | Decimal.D4 d' => uval (10 * acc + 4) d'
  | Decimal.D5 d' => uval (10 * acc + 5) d'
  | Decimal.D6 d' => uval (10 * acc + 6) d'
  | Decimal.D7 d' => uval (10 * acc + 7) d'
  | Decimal.D8 d' => uval (10 * acc + 8) d'
  | Decimal.D9 d' => uval (10 * acc + 9) d'
  end.

(** [s] does not start with a decimal digit. *)
Definition no_digit_ahead (s : string) : Prop :=
  match s with
  | String c _ => is_digit c = false
  | EmptyString => True
  end.

End Digits.

(** * Properties *)

(** ** Machine numbers *)

Section NumFacts.
Import Num.

Lemma wrap64_id (z : Z) : in_int64 z -> wrap64 z = z.
Proof.
  unfold in_int64, MinInt64, MaxInt64, wrap64. intros H.
  rewrite Z.mod_small; lia.
Qed.

Lemma wrap64_range (z : Z) : in_int64 (wrap64 z).
Proof.
  unfold in_int64, MinInt64, MaxInt64, wrap64.
  pose proof (Z.mod_pos_bound (z + 2 ^ 63) (2 ^ 64)). lia.
Qed.

(** The order of binary64 on the two thresholds of [Done]: what is above
    [1e9] is above [1e6]. *)
Lemma above_1e9_above_1e6 (t : float) :
  PrimFloat.ltb 1e9%float t = true -> PrimFloat.ltb 1e6%float t = true.
Proof.
  rewrite !FloatAxioms.ltb_spec.
  replace (Prim2SF 1e9%float) with (S754_finite false 8388608000000000 (-23))
    by (vm_compute; reflexivity).
  replace (Prim2SF 1e6%float) with (S754_finite false 8589934592000000 (-33))
    by (vm_compute; reflexivity).
  destruct (Prim2SF t) as [s | s | | s m e]; try (destruct s); cbn; try congruence.
  destruct e as [ | p | p]; try reflexivity.
  destruct (Pos.compare_spec 23 p) as [Hp | Hp | Hp];
    destruct (Pos.compare_spec 33 p) as [Hq | Hq | Hq];
    subst; cbn; try congruence; try lia.
Qed.

End NumFacts.

(** ** The selector *)

Section SelectorFacts.
Import Num Selector.

Lemma update_first_length (url : string) (f : URLInfo -> URLInfo) (us : list URLInfo) :
  length (update_first url f us) = length us.
Proof.
  induction us as [ | u us IH]; simpl; [reflexivity | ].
  destruct (String.eqb (URL u) url); simpl; congruence.
Qed.

(** A name that no mirror carries is matched by none: the loop of [Done]
    and [MarkDead] runs to its end and changes nothing. *)
Lemma update_first_no_match (url : string) (f : URLInfo -> URLInfo) (us : list URLInfo) :
  Forall (fun u => URL u <> url) us -> update_first url f us = us.
Proof.
  induction 1 as [ | u us Hu _ IH]; simpl; [reflexivity | ].
  destruct (String.eqb_spec (URL u) url); [contradiction | congruence].
Qed.

(** The first mirror named [url] is the one that is updated, and the only
    one. *)
Lemma update_first_at (url : string) (f : URLInfo -> URLInfo) (us : list URLInfo)
    (i : nat) (u : URLInfo) :
  us !! i = Some u -> URL u = url ->
  (forall j v, (j < i)%nat -> us !! j = Some v -> URL v <> url) ->
  update_first url f us = <[i := f u]> us.
Proof.
  revert i. induction us as [ | x us IH]; intros i Hi Hu Hfirst; [discriminate | ].
  destruct i as [ | i]; simpl in *.
  - injection Hi as ->. rewrite <- Hu, String.eqb_refl. reflexivity.
  - destruct (String.eqb_spec (URL x) url) as [Hx | Hx].
    + exfalso. apply (Hfirst O x); [lia | reflexivity | exact Hx].
    + f_equal. apply IH; [exact Hi | exact Hu | ].
      intros j v Hj Hv. apply (Hfirst (S j) v); [lia | exact Hv].
Qed.

(** Every result of [update_first] is a pointwise image of the list. *)
Lemma update_first_Forall (P : URLInfo -> Prop) (url : string)
    (f : URLInfo -> URLInfo) (us : list URLInfo) :
  (forall u, P u -> P (f u)) -> Forall P us -> Forall P (update_first url f us).
Proof.
  intros Hf. induction 1 as [ | u us Hu Hus IH]; simpl; [constructor | ].
  destruct (String.eqb (URL u) url); constructor; auto.
Qed.

(** [Get] keeps whatever resurrection keeps, up to the increment of the
    load of one mirror. *)
Lemma Get_loop_keeps (P Q : URLManager -> Prop) :
  (forall um, P um -> Q um) ->
  (forall um, P um -> P (resume um)) ->
  (forall um idx u, P um -> urls um !! idx = Some u ->
     Q (mkURLManager (<[idx := incr_Load u]> (urls um)))) ->
  forall fuel rnd passes um, P um -> Q (after (Get_loop fuel rnd passes um)).
Proof.
  intros HPQ Hres Hinc.
  induction fuel as [ | fuel IH]; intros rnd passes um HP; simpl.
  - apply HPQ, HP.
  - destruct (length (urls um) =? 0)%nat; [apply HPQ, HP | ].
    destruct (fst (scan (urls um) (rnd O mod length (urls um)))) as [idx | ].
    + destruct (urls um !! idx) as [u | ] eqn:Hu; simpl; [ | apply HPQ, HP].
      apply Hinc; assumption.
    + apply IH, Hres, HP.
Qed.

(** [Get] returns the name of a mirror of the list, the empty string when
    the list is empty. *)
Lemma Get_loop_got (fuel : nat) :
  forall rnd passes um t,
  got (Get_loop fuel rnd passes um) = Some t ->
  (urls um = [] /\ t = "") \/ exists u, u ∈ urls um /\ URL u = t.
Proof.
  induction fuel as [ | fuel IH]; intros rnd passes um t; simpl; [discriminate | ].
  destruct (length (urls um) =? 0)%nat eqn:Hn.
  - simpl. intros H. injection H as <-. left. split; [ | reflexivity].
    destruct (urls um); [reflexivity | discriminate].
  - destruct (fst (scan (urls um) (rnd O mod length (urls um)))) as [idx | ].
    + destruct (urls um !! idx) as [u | ] eqn:Hu; simpl; [ | discriminate].
      intros H. injection H as <-. right. exists u. split; [ | reflexivity].
      eapply list_elem_of_lookup_2. exact Hu.
    + intros H. apply IH in H as [[Hnil _] | (u & Hin & Hu)].
      * unfold resume in Hnil. simpl in Hnil.
        apply fmap_nil_inv in Hnil. rewrite Hnil in Hn. discriminate.
      * right. unfold resume in Hin. simpl in Hin.
        apply list_elem_of_fmap in Hin as (v & -> & Hv).
        exists v. split; [exact Hv | exact Hu].
Qed.

Lemma pick_k_tiers (throughput : float) : pick_k throughput = k_for throughput.
Proof.
  unfold pick_k, k_for.
  destruct (PrimFloat.ltb 1e9%float throughput) eqn:H9.
  - rewrite (above_1e9_above_1e6 _ H9). reflexivity.
  - reflexivity.
Qed.

(** C6. [Done(url, responseTime, contentLength)] on the mirror named [url]
    (the first one of that name): its load goes down by one, never below
    zero, and its weight becomes
    [beta * load + (1 - beta) * (contentLength / responseTime / k)] with
    [beta = 0.7] and [k] chosen by the throughput
    [contentLength / responseTime]: [1e3] above [1e9], [1e5] above [1e6]
    (and not above [1e9]), [1e6] otherwise.  No other mirror changes. *)
Theorem Done_releases_and_reweighs (um : URLManager) (url : string)
    (responseTime : float) (contentLength : Z) (i : nat) (u : URLInfo) :
  urls um !! i = Some u ->
  URL u = url ->
  (forall j v, (j < i)%nat -> urls um !! j = Some v -> URL v <> url) ->
  let load' := if 0 <? Load u then Load u - 1 else Load u in
  let throughput := PrimFloat.div (float64_of_int contentLength) responseTime in
  let k := k_for throughput in
  let weight' :=
    PrimFloat.add
      (PrimFloat.mul 0.7%float (float64_of_int load'))
      (PrimFloat.mul (PrimFloat.sub 1%float 0.7%float)
         (PrimFloat.div throughput k)) in
  urls (Done um url responseTime contentLength) !! i
    = Some (mkURLInfo url (Dead u) load' (ResponseTime u) weight')
  /\ (0 <= Load u -> load' = Z.max 0 (Load u - 1))
  /\ (forall j, j <> i ->
        urls (Done um url responseTime contentLength) !! j = urls um !! j)
  /\ (PrimFloat.ltb 1e9%float throughput = true -> k = 1e3%float)
  /\ (PrimFloat.ltb 1e6%float throughput = true ->
      PrimFloat.ltb 1e9%float throughput = false -> k = 1e5%float)
  /\ (PrimFloat.ltb 1e6%float throughput = false -> k = 1e6%float).
Proof.
  intros Hi Hu Hfirst load' throughput k weight'.
  assert (Hlen : (i < length (urls um))%nat) by (eapply lookup_lt_Some; exact Hi).
  unfold Done; simpl.
  rewrite (update_first_at url _ (urls um) i u Hi Hu Hfirst).
  split; [ | split; [ | split; [ | split; [ | split]]]].
  - rewrite list_lookup_insert_eq by exact Hlen. f_equal.
    unfold Done_update, set_Weight, set_Load; simpl.
    rewrite pick_k_tiers. fold throughput. fold k. fold load'.
    rewrite Hu. reflexivity.
  - intros Hpos. unfold load'. destruct (Z.ltb_spec 0 (Load u)); lia.
  - intros j Hj. apply list_lookup_insert_ne. congruence.
  - intros H9. unfold k, k_for. rewrite (above_1e9_above_1e6 _ H9), H9. reflexivity.
  - intros H6 H9. unfold k, k_for. rewrite H6, H9. reflexivity.
  - intros H6. unfold k, k_for. rewrite H6. reflexivity.
Qed.

(** The theorem at work: two mirrors, the second one acquired once and
    released after 3,000,000 bytes in 2 seconds. *)
Lemma Done_releases_and_reweighs_witness :
  let um := calls [CallGet 1 (fun _ => 1%nat)] (registered ["https://a.io"; "https://b.io"]) in
  let u := mkURLInfo "https://b.io" false 1 0%float 1%float in
  (urls um !! 1%nat = Some u
   /\ URL u = "https://b.io"
   /\ (forall j v, (j < 1)%nat -> urls um !! j = Some v -> URL v <> "https://b.io"))
  /\ urls (Done um "https://b.io" 2%float 3000000) !! 1%nat
       = Some (mkURLInfo "https://b.io" false 0 0%float
                 (PrimFloat.mul (PrimFloat.sub 1%float 0.7%float)
                    (PrimFloat.div 1500000%float 1e5%float))).
Proof.
  assert (H1 : urls (calls [CallGet 1 (fun _ => 1%nat)]
                       (registered ["https://a.io"; "https://b.io"])) !! 1%nat
               = Some (mkURLInfo "https://b.io" false 1 0%float 1%float))
    by (vm_compute; reflexivity).
  assert (H3 : forall j v, (j < 1)%nat ->
               urls (calls [CallGet 1 (fun _ => 1%nat)]
                       (registered ["https://a.io"; "https://b.io"])) !! j = Some v ->
               URL v <> "https://b.io").
  { intros j v Hj. assert (j = O) as -> by lia. vm_compute.
    intros Hv. injection Hv as <-. discriminate. }
  split; [split; [exact H1 | split; [reflexivity | exact H3]] | ].
  destruct (Done_releases_and_reweighs _ "https://b.io" 2%float 3000000 1%nat _
              H1 eq_refl H3) as [Hd _].
  rewrite Hd. vm_compute. reflexivity.
Defined.

End SelectorFacts.

(** ** Loads stay non-negative *)

Section LoadInvariant.
Import Num Selector.

Lemma loads_between_weaken (lo hi hi' : Z) (um : URLManager) :
  hi <= hi' -> loads_between lo hi um -> loads_between lo hi' um.
Proof.
  intros Hle H. unfold loads_between in *.
  eapply Forall_impl; [exact H | ]. simpl. intros u Hu. lia.
Qed.

Lemma registered_loads (names : list string) :
  loads_between 0 0 (registered names).
Proof.
  unfold registered, loads_between.
  assert (H : forall um, Forall (fun u => 0 <= Load u <= 0) (urls um) ->
              Forall (fun u => 0 <= Load u <= 0) (urls (fold_left AddURL names um))).
  { induction names as [ | n names IH]; intros um Hum; simpl; [exact Hum | ].
    apply IH. simpl. apply Forall_app. split; [exact Hum | ].
    constructor; [simpl; lia | constructor]. }
  apply H. constructor.
Qed.

(** One call raises no load by more than one and lowers none below zero,
    as long as the counter is away from the end of its range. *)
Lemma call_loads (b : Z) (um : URLManager) (c : Call) :
  0 <= b -> b < MaxInt64 ->
  loads_between 0 b um -> loads_between 0 (b + 1) (call um c).
Proof.
  intros Hb0 Hb Hum. destruct c as [fuel rnd | url rt cl | url]; simpl.
  - unfold Get.
    apply (Get_loop_keeps (loads_between 0 b) (loads_between 0 (b + 1))).
    + intros um'. apply loads_between_weaken. lia.
    + intros um' H. unfold loads_between, resume in *. simpl.
      apply Forall_map. eapply Forall_impl; [exact H | ]. intros u Hu. exact Hu.
    + intros um' idx u H Hu. unfold loads_between in *. simpl.
      assert (Hin : 0 <= Load u <= b).
      { eapply (proj1 (Forall_lookup _ _) H). exact Hu. }
      apply Forall_insert.
      * eapply Forall_impl; [exact H | ]. simpl. intros v Hv. lia.
      * unfold incr_Load, set_Load. simpl.
        rewrite wrap64_id; [lia | ]. unfold in_int64, MinInt64, MaxInt64 in *. lia.
    + exact Hum.
  - unfold loads_between, Done in *. simpl.
    apply update_first_Forall.
    + intros u Hu. unfold Done_update, set_Weight, set_Load. simpl.
      destruct (Z.ltb_spec 0 (Load u)); lia.
    + eapply Forall_impl; [exact Hum | ]. simpl. intros u Hu. lia.
  - unfold loads_between, MarkDead in *. simpl.
    apply update_first_Forall.
    + intros u Hu. simpl. lia.
    + eapply Forall_impl; [exact Hum | ]. simpl. intros u Hu. lia.
Qed.

Lemma calls_loads (cs : list Call) :
  forall (b : Z) (um : URLManager),
  0 <= b -> b + Z.of_nat (length cs) <= MaxInt64 ->
  loads_between 0 b um ->
  loads_between 0 (b + Z.of_nat (length cs)) (calls cs um).
Proof.
  induction cs as [ | c cs IH]; intros b um Hb0 Hb Hum.
  - simpl. rewrite Z.add_0_r. exact Hum.
  - change (calls (c :: cs) um) with (calls cs (call um c)).
    replace (b + Z.of_nat (length (c :: cs)))
      with ((b + 1) + Z.of_nat (length cs)) by (simpl length; lia).
    simpl length in Hb.
    apply IH; [lia | lia | ].
    apply call_loads; [lia | lia | exact Hum].
Qed.

(** C9. From the state after registration, at every point of every
    sequence of [Get], [Done] and [MarkDead] calls (fewer than [2^63] of
    them, the range of the load counter), every mirror's load is at least
    zero. *)
Theorem load_never_negative (names : list string) (cs : list Call) (k : nat) :
  Z.of_nat (length cs) < 2 ^ 63 ->
  Forall (fun u => 0 <= Load u) (urls (calls (take k cs) (registered names))).
Proof.
  intros Hlen.
  assert (Hk : Z.of_nat (length (take k cs)) <= Z.of_nat (length cs)).
  { rewrite length_take. lia. }
  pose proof (calls_loads (take k cs) 0 (registered names)) as H.
  unfold loads_between in H.
  eapply Forall_impl.
  - apply H; [lia | unfold MaxInt64; lia | apply registered_loads].
  - simpl. intros u Hu. lia.
Qed.

(** The theorem on a sequence that acquires, releases twice and marks
    dead. *)
Lemma load_never_negative_witness :
  Z.of_nat (length [CallGet 2 (fun _ => O); CallDone "https://a.io" 1%float 10;
                    CallDone "https://a.io" 1%float 10; CallMarkDead "https://a.io"])
    < 2 ^ 63
  /\ Forall (fun u => 0 <= Load u)
       (urls (calls (take 3 [CallGet 2 (fun _ => O); CallDone "https://a.io" 1%float 10;
                             CallDone "https://a.io" 1%float 10;
                             CallMarkDead "https://a.io"])
                (registered ["https://a.io"; "https://b.io"]))).
Proof.
  split.
  - simpl. lia.
  - apply load_never_negative. simpl. lia.
Defined.

End LoadInvariant.

(** ** Termination of [Get] *)

Section GetTermination.
Import Num Selector.

Lemma scan_unfold (us : list URLInfo) (startIndex : nat) :
  scan us startIndex
  = fold_left (visit us startIndex) (seq 0 (length us)) (None, MaxFloat64).
Proof. reflexivity. Qed.

Lemma visit_fresh us startIndex acc i :
  fresh acc -> fresh (visit us startIndex acc i).
Proof.
  unfold fresh, visit, scan_step. intros H.
  destruct (us !! _) as [u | ]; [ | exact H].
  destruct (Dead u); [exact H | ].
  destruct (PrimFloat.ltb _ _); [discriminate | exact H].
Qed.

Lemma visit_keeps_selection us startIndex acc i :
  fst acc <> None -> fst (visit us startIndex acc i) <> None.
Proof.
  unfold visit, scan_step. intros H.
  destruct (us !! _) as [u | ]; [ | exact H].
  destruct (Dead u); [exact H | ].
  destruct (PrimFloat.ltb _ _); [discriminate | exact H].
Qed.

Lemma fold_keeps_selection us startIndex (l : list nat) :
  forall acc, fst acc <> None -> fst (fold_left (visit us startIndex) l acc) <> None.
Proof.
  induction l as [ | i l IH]; intros acc H; simpl; [exact H | ].
  apply IH, visit_keeps_selection, H.
Qed.

(** A live, selectable mirror on the way of the scan gets something
    selected. *)
Lemma fold_selects us startIndex (l : list nat) (i : nat) (u : URLInfo) :
  In i l ->
  us !! ((startIndex + i) mod length us)%nat = Some u ->
  Dead u = false -> selectable u = true ->
  forall acc, fresh acc -> fst (fold_left (visit us startIndex) l acc) <> None.
Proof.
  intros Hin Hu Hd Hs. induction l as [ | j l IH]; intros acc Hacc; [destruct Hin | ].
  simpl. destruct Hin as [-> | Hin].
  - apply fold_keeps_selection.
    unfold visit. rewrite Hu. unfold scan_step. rewrite Hd.
    destruct (fst acc) eqn:Hsel.
    + destruct (PrimFloat.ltb _ _); simpl; [discriminate | congruence].
    + rewrite (Hacc Hsel). unfold selectable in Hs. rewrite Hs. discriminate.
  - apply IH; [exact Hin | apply visit_fresh, Hacc].
Qed.

Lemma fold_points_to_live us startIndex (l : list nat) :
  forall acc, points_to_live us acc ->
  points_to_live us (fold_left (visit us startIndex) l acc).
Proof.
  induction l as [ | i l IH]; intros acc H; simpl; [exact H | ].
  apply IH. unfold visit, scan_step.
  destruct (us !! _) as [u | ] eqn:Hu; [ | exact H].
  destruct (Dead u) eqn:Hd; [exact H | ].
  destruct (PrimFloat.ltb _ _); [ | exact H].
  intros idx Hidx. simpl in Hidx. injection Hidx as <-. exists u. split; assumption.
Qed.

(** With no selectable mirror on the way the scan selects nothing. *)
Lemma fold_selects_nothing us startIndex (l : list nat) :
  Forall (fun u => selectable u = false) us ->
  forall acc, fst acc = None -> snd acc = MaxFloat64 ->
  fold_left (visit us startIndex) l acc = acc.
Proof.
  intros Hus. induction l as [ | i l IH]; intros acc H1 H2; simpl; [reflexivity | ].
  assert (Hv : visit us startIndex acc i = acc).
  { unfold visit, scan_step.
    destruct (us !! _) as [u | ] eqn:Hu; [ | reflexivity].
    destruct (Dead u); [reflexivity | ].
    rewrite H2.
    assert (Hsel : selectable u = false).
    { eapply (proj1 (Forall_lookup _ _) Hus). exact Hu. }
    unfold selectable in Hsel. rewrite Hsel. reflexivity. }
  rewrite Hv. apply IH; assumption.
Qed.

(** The round that starts at [startIndex] passes every index. *)
Lemma scan_reaches (n startIndex j : nat) :
  (j < n)%nat -> exists i, In i (seq 0 n) /\ ((startIndex + i) mod n = j)%nat.
Proof.
  intros Hj. exists ((j + (n - startIndex mod n)) mod n)%nat. split.
  - apply in_seq. split; [lia | ]. simpl. apply Nat.mod_upper_bound. lia.
  - rewrite Nat.Div0.add_mod_idemp_r.
    rewrite <- (Nat.Div0.add_mod_idemp_l startIndex).
    pose proof (Nat.mod_upper_bound startIndex n ltac:(lia)) as Hs.
    replace (startIndex mod n + (j + (n - startIndex mod n)))%nat
      with (j + 1 * n)%nat by lia.
    rewrite Nat.Div0.mod_add. apply Nat.mod_small, Hj.
Qed.

Lemma scan_selects (us : list URLInfo) (startIndex : nat) :
  Exists (fun u => Dead u = false /\ selectable u = true) us ->
  exists idx u, fst (scan us startIndex) = Some idx
                /\ us !! idx = Some u /\ Dead u = false.
Proof.
  intros Hex. apply Exists_exists in Hex as (u & Hin & Hd & Hs).
  apply list_elem_of_lookup in Hin as (j & Hj).
  assert (Hlt : (j < length us)%nat) by (eapply lookup_lt_Some; exact Hj).
  destruct (scan_reaches (length us) startIndex j Hlt) as (i & Hi & Hij).
  assert (Hsome : fst (scan us startIndex) <> None).
  { rewrite scan_unfold.
    apply (fold_selects us startIndex _ i u Hi); [rewrite Hij; exact Hj | exact Hd | exact Hs | ].
    intros _. reflexivity. }
  destruct (fst (scan us startIndex)) as [idx | ] eqn:Hscan; [ | congruence].
  assert (Hlive : points_to_live us (scan us startIndex)).
  { rewrite scan_unfold. apply fold_points_to_live. intros idx' Hidx'. discriminate. }
  destruct (Hlive idx Hscan) as (v & Hv & Hdv).
  exists idx, v. auto.
Qed.

Lemma scan_selects_nothing (us : list URLInfo) (startIndex : nat) :
  Forall (fun u => selectable u = false) us -> fst (scan us startIndex) = None.
Proof.
  intros H. rewrite scan_unfold, fold_selects_nothing; auto.
Qed.

Lemma resume_alive (um : URLManager) :
  Forall (fun u => Dead u = false) (urls (resume um)).
Proof.
  unfold resume. simpl. apply Forall_map. apply Forall_true. intros u. reflexivity.
Qed.

Lemma resume_selectable (P : bool) (um : URLManager) :
  Forall (fun u => selectable u = P) (urls um) ->
  Forall (fun u => selectable u = P) (urls (resume um)).
Proof.
  intros H. unfold resume. simpl. apply Forall_map.
  eapply Forall_impl; [exact H | ]. intros u Hu. exact Hu.
Qed.

(** As long as no mirror is selectable, every round of [Get] ends in a
    resurrection pass and the next round. *)
Lemma Get_loop_spins (fuel : nat) :
  forall (rnd : nat -> nat) (passes : nat) (um : URLManager),
  urls um <> [] ->
  Forall (fun u => selectable u = false) (urls um) ->
  got (Get_loop fuel rnd passes um) = None
  /\ resumes (Get_loop fuel rnd passes um) = (passes + fuel)%nat.
Proof.
  induction fuel as [ | fuel IH]; intros rnd passes um Hne Hus; simpl.
  - split; [reflexivity | lia].
  - assert (Hn : (length (urls um) =? 0)%nat = false).
    { destruct (urls um); [congruence | reflexivity]. }
    rewrite Hn, scan_selects_nothing by exact Hus.
    destruct (IH (fun k => rnd (S k)) (S passes) (resume um)) as [Hg Hr].
    + unfold resume. simpl. destruct (urls um); [congruence | discriminate].
    + apply resume_selectable, Hus.
    + split; [exact Hg | rewrite Hr; lia].
Qed.

(** A selectable mirror is returned by the first scan or, when it is dead,
    by the scan that follows the resurrection pass. *)
Lemma Get_two_rounds (um : URLManager) (rnd : nat -> nat) (fuel : nat) :
  urls um <> [] ->
  Exists (fun u => selectable u = true) (urls um) ->
  exists idx u,
    urls um !! idx = Some u
    /\ got (Get (S (S fuel)) rnd um) = Some (URL u)
    /\ (resumes (Get (S (S fuel)) rnd um) <= 1)%nat
    /\ Load <$> (urls (after (Get (S (S fuel)) rnd um)) !! idx)
       = Some (wrap64 (Load u + 1)).
Proof.
  intros Hne Hex. unfold Get.
  assert (Hn : (length (urls um) =? 0)%nat = false).
  { destruct (urls um); [congruence | reflexivity]. }
  cbn [Get_loop]. rewrite Hn.
  destruct (fst (scan (urls um) (rnd O mod length (urls um)))) as [idx | ] eqn:Hscan.
  - assert (Hlive : points_to_live (urls um) (scan (urls um) (rnd O mod length (urls um)))).
    { rewrite scan_unfold. apply fold_points_to_live. intros i Hi. discriminate. }
    destruct (Hlive idx Hscan) as (u & Hu & _). rewrite Hu.
    exists idx, u. simpl.
    split; [exact Hu | split; [reflexivity | split; [lia | ]]].
    rewrite list_lookup_insert_eq by (eapply lookup_lt_Some; exact Hu). reflexivity.
  - assert (Hn' : (length (urls (resume um)) =? 0)%nat = false).
    { unfold resume. simpl. rewrite length_map. exact Hn. }
    rewrite Hn'.
    destruct (scan_selects (urls (resume um))
                (rnd 1%nat mod length (urls (resume um))))
      as (idx & v & Hsel & Hv & _).
    { unfold resume. simpl. apply Exists_exists in Hex as (u & Hin & Hs).
      apply Exists_exists. exists (set_Dead false u). split.
      - apply list_elem_of_fmap. exists u. split; [reflexivity | exact Hin].
      - split; [reflexivity | exact Hs]. }
    rewrite Hsel, Hv. simpl.
    unfold resume in Hv. simpl in Hv.
    rewrite list_lookup_fmap in Hv.
    destruct (urls um !! idx) as [u | ] eqn:Hu; [ | discriminate].
    simpl in Hv. injection Hv as <-.
    exists idx, u.
    split; [exact Hu | split; [reflexivity | split; [lia | ]]].
    rewrite list_lookup_insert_eq; [reflexivity | ].
    rewrite length_map. eapply lookup_lt_Some; exact Hu.
Qed.

(** What [Get] returns.  It returns the empty string at once when no
    mirror is registered, and what it returns otherwise is the name of a
    registered mirror.  When some mirror is selectable, [Get] returns,
    with that mirror's load raised by one, after at most one resurrection
    pass. *)
Theorem Get_rounds (um : URLManager) (rnd : nat -> nat) (fuel : nat) :
  (urls um = [] -> Get (S fuel) rnd um = mkGetResult (Some "") O um)
  /\ (forall t, urls um <> [] -> got (Get fuel rnd um) = Some t ->
      exists u, u ∈ urls um /\ URL u = t)
  /\ (urls um <> [] ->
      Exists (fun u => selectable u = true) (urls um) ->
      exists idx u,
        urls um !! idx = Some u
        /\ got (Get (S (S fuel)) rnd um) = Some (URL u)
        /\ (resumes (Get (S (S fuel)) rnd um) <= 1)%nat
        /\ Load <$> (urls (after (Get (S (S fuel)) rnd um)) !! idx)
           = Some (wrap64 (Load u + 1))).
Proof.
  split; [ | split].
  - intros Hnil. unfold Get. simpl. rewrite Hnil. reflexivity.
  - intros t Hne Hgot. unfold Get in Hgot.
    apply Get_loop_got in Hgot as [[Hnil _] | H]; [contradiction | exact H].
  - apply Get_two_rounds.
Qed.

(** The theorem on two mirrors that are both marked dead: the second round
    returns one of them. *)
Lemma Get_rounds_witness :
  let um := calls [CallMarkDead "https://a.io"; CallMarkDead "https://b.io"]
              (registered ["https://a.io"; "https://b.io"]) in
  (urls um <> [] /\ Exists (fun u => selectable u = true) (urls um))
  /\ exists idx u,
       urls um !! idx = Some u
       /\ got (Get 2 (fun _ => O) um) = Some (URL u)
       /\ (resumes (Get 2 (fun _ => O) um) <= 1)%nat
       /\ Load <$> (urls (after (Get 2 (fun _ => O) um)) !! idx)
          = Some (wrap64 (Load u + 1)).
Proof.
  assert (Hne : urls (calls [CallMarkDead "https://a.io"; CallMarkDead "https://b.io"]
                        (registered ["https://a.io"; "https://b.io"])) <> [])
    by discriminate.
  assert (Hex : Exists (fun u => selectable u = true)
                  (urls (calls [CallMarkDead "https://a.io"; CallMarkDead "https://b.io"]
                           (registered ["https://a.io"; "https://b.io"]))))
    by (apply Exists_cons_hd; vm_compute; reflexivity).
  split; [split; [exact Hne | exact Hex] | ].
  exact (proj2 (proj2 (Get_rounds _ (fun _ => O) O)) Hne Hex).
Defined.

(** C1 fails on the program.  [Get] is a bare [for] loop, with no count
    of its resurrection passes and no answer "unavailable".  The selector
    [starved] is reached from one registered mirror by a [Get] and the
    [Done] of a response without content; its mirror is alive, with load
    0 and weight 0.  The load ratio 0/0 is not a number and no comparison
    selects it, so every round of [Get] ends in a resurrection pass and
    the next round: [Get] returns for no amount of fuel, and the passes
    grow with the fuel. *)
Theorem Get_spins_on_a_weightless_mirror :
  starved = calls [CallGet 1 (fun _ => O); CallDone "https://yanyu.icu" 1%float 0]
              (registered ["https://yanyu.icu"])
  /\ Forall (fun u => Dead u = false) (urls starved)
  /\ forall (fuel : nat) (rnd : nat -> nat),
       got (Get fuel rnd starved) = None /\ resumes (Get fuel rnd starved) = fuel.
Proof.
  split; [vm_compute; reflexivity | split; [repeat constructor | ]].
  intros fuel rnd.
  apply (Get_loop_spins fuel rnd O starved); [discriminate | ].
  repeat constructor.
Qed.

End GetTermination.

(** ** The forwarder and the selector *)

Section ForwarderFacts.
Import Num Selector Paths Cache Forwarder.

Lemma count_slash_app (a b : string) :
  Url.count_slash (a ++ b) = (Url.count_slash a + Url.count_slash b)%nat.
Proof.
  induction a as [ | c a IH]; simpl; [reflexivity | rewrite IH; lia].
Qed.

Lemma escape_head (p : string) :
  p <> "" ->
  exists c rest, Url.escape p = String c rest
                 /\ (c = "/"%char \/ forall q, Url.escape p <> String "/" q).
Proof.
  destruct p as [ | c p]; [congruence | intros _]. simpl.
  destruct (Url.shouldEscape c) eqn:Hesc.
  - eexists _, _. split; [reflexivity | right]. intros q H. discriminate.
  - exists c, (Url.escape p). split; [reflexivity | ].
    destruct (Ascii.eqb_spec c "/") as [-> | Hc]; [left; reflexivity | right].
    intros q H. injection H as H _. contradiction.
Qed.

(** The string of a proxied URL has a third ["/"]: the one its path starts
    with, or the one written between the host and the path. *)
Lemma proxied_slashes (req : Request) (u : Url.URL) :
  Url.Host u <> "" -> URL_Path req <> "" ->
  (3 <= Url.count_slash (proxied req u))%nat.
Proof.
  intros Hhost Hpath. unfold proxied, Url.String_. cbn [Url.Scheme Url.Host Url.Path Url.RawQuery].
  apply String.eqb_neq in Hhost. rewrite Hhost.
  rewrite orb_true_r. cbn [negb orb].
  rewrite !count_slash_app.
  assert (H2 : Url.count_slash "//" = 2%nat) by reflexivity. rewrite H2.
  assert (H1 : (1 <= Url.count_slash
                   (match Url.EscapedPath (Url.mkURL (Url.Scheme u) (Url.Host u)
                                             (URL_Path req) (URL_RawQuery req)) with
                    | String c _ => if negb (Ascii.eqb c "/") && true then "/" else ""
                    | EmptyString => ""
                    end)
                 + Url.count_slash
                     (Url.EscapedPath (Url.mkURL (Url.Scheme u) (Url.Host u)
                                         (URL_Path req) (URL_RawQuery req))))%nat).
  { unfold Url.EscapedPath. cbn [Url.Path].
    destruct (String.eqb (URL_Path req) "*"); [simpl; lia | ].
    destruct (escape_head (URL_Path req) Hpath) as (c & rest & He & _).
    rewrite He. destruct (Ascii.eqb_spec c "/") as [-> | Hc]; simpl.
    - lia.
    - destruct (Ascii.eqb_spec c "/"); [contradiction | ]. simpl. lia. }
  lia.
Qed.

Lemma untouched_refl (u : URLInfo) : untouched u u.
Proof. repeat split; auto. exists O. reflexivity. Qed.

Lemma only_acquired_refl (um : URLManager) : only_acquired um um.
Proof. unfold only_acquired. apply Forall_Forall2_diag, Forall_true, untouched_refl. Qed.

Lemma untouched_trans (u0 u1 u2 : URLInfo) :
  untouched u0 u1 -> untouched u1 u2 -> untouched u0 u2.
Proof.
  intros (Ha & Hb & Hc & Hd & k1 & Hk1) (Ha' & Hb' & Hc' & Hd' & k2 & Hk2).
  repeat split; try congruence; auto.
  exists (k2 + k1)%nat. rewrite Nat.iter_add, <- Hk1. exact Hk2.
Qed.

Lemma only_acquired_trans (um0 um1 um2 : URLManager) :
  only_acquired um0 um1 -> only_acquired um1 um2 -> only_acquired um0 um2.
Proof.
  unfold only_acquired. intros H1 H2.
  eapply Forall2_trans; [ | exact H1 | exact H2].
  intros x y z. apply untouched_trans.
Qed.

Lemma Get_only_acquired (fuel : nat) (rnd : nat -> nat) (um : URLManager) :
  only_acquired um (after (Get fuel rnd um)).
Proof.
  unfold Get.
  apply (Get_loop_keeps (only_acquired um) (only_acquired um)); auto.
  - intros um' H. eapply only_acquired_trans; [exact H | ].
    unfold only_acquired, resume. simpl.
    apply Forall2_fmap_r, Forall_Forall2_diag, Forall_true.
    intros u. repeat split; auto. exists O. reflexivity.
  - intros um' idx u H Hu. eapply only_acquired_trans; [exact H | ].
    unfold only_acquired. simpl.
    rewrite <- (list_insert_id (urls um') idx u Hu) at 1.
    apply Forall2_insert.
    + apply Forall_Forall2_diag, Forall_true, untouched_refl.
    + repeat split; auto. exists 1%nat. reflexivity.
  - apply only_acquired_refl.
Qed.

Lemma Done_no_match (um : URLManager) (url : string) (rt : float) (cl : Z) :
  Forall (fun u => URL u <> url) (urls um) -> Done um url rt cl = um.
Proof.
  intros H. unfold Done. rewrite update_first_no_match by exact H.
  destruct um; reflexivity.
Qed.

Lemma MarkDead_no_match (um : URLManager) (url : string) :
  Forall (fun u => URL u <> url) (urls um) -> MarkDead um url = um.
Proof.
  intros H. unfold MarkDead. rewrite update_first_no_match by exact H.
  destruct um; reflexivity.
Qed.

Lemma only_acquired_base (um0 um : URLManager) :
  Forall (fun u => Url.base_url (URL u) = true) (urls um0) ->
  only_acquired um0 um ->
  Forall (fun u => Url.base_url (URL u) = true) (urls um).
Proof.
  intros Hbase Hacq. unfold only_acquired in Hacq.
  eapply Forall2_Forall_r; [exact Hacq | ].
  eapply Forall_impl; [exact Hbase | ].
  intros u0 Hu0 u (Hurl & _). rewrite Hurl. exact Hu0.
Qed.

(** The string of the proxied URL is the name of no mirror, when the
    mirrors are registered under base URLs and the path is not empty. *)
Lemma proxied_matches_none (um : URLManager) (req : Request) (t : string)
    (proxyURL : Url.URL) :
  Forall (fun u => Url.base_url (URL u) = true) (urls um) ->
  URL_Path req <> "" ->
  (exists u, u ∈ urls um /\ URL u = t) ->
  Url.Parse t = Some proxyURL ->
  Forall (fun v => URL v <> proxied req proxyURL) (urls um).
Proof.
  intros Hbase Hpath (u & Hin & Hu) Hparse.
  assert (Hhost : Url.Host proxyURL <> "").
  { pose proof (proj1 (Forall_forall _ _) Hbase u Hin) as Hb.
    unfold Url.base_url in Hb. rewrite Hu, Hparse in Hb.
    apply andb_true_iff in Hb as [_ Hb]. apply negb_true_iff in Hb.
    apply String.eqb_neq. exact Hb. }
  pose proof (proxied_slashes req proxyURL Hhost Hpath) as H3.
  eapply Forall_impl; [exact Hbase | ].
  intros v Hv Heq. unfold Url.base_url in Hv.
  apply andb_true_iff in Hv as [Hv _]. apply Nat.leb_le in Hv.
  rewrite Heq in Hv. lia.
Qed.

Lemma attempt_loop_eq (fuel : nat) (req : Request) (cacheFilePath : string)
    (script : list Upstream) (rnd : nat -> nat) (r : Run) :
  attempt_loop fuel req cacheFilePath script rnd r
  = let r := defer_tick r in
    if 6 <=? tickets r then (TicketsSpent, r)
    else
      let g := Get fuel rnd (glourls r) in
      let r := with_glourls (after g) r in
      let rnd' := fun k => rnd (k + S (resumes g))%nat in
      match got g with
      | None => (GetRunning, r)
      | Some targetURL =>
          if String.eqb targetURL "" then
            (NoAvailableURLs, Error "No available URLs" StatusServiceUnavailable r)
          else
            match Url.Parse targetURL with
            | None =>
                (ParseFailure,
                 Error "Failed to parse target URL" StatusInternalServerError r)
            | Some proxyURL =>
                match script with
                | [] => (AwaitingUpstream, r)
                | DoError _ :: script' =>
                    attempt_loop fuel req cacheFilePath script' rnd' (count_attempt r)
                | DoResponse responseTime StatusCode ContentLength clh body :: script' =>
                    let r := count_attempt r in
                    let r :=
                      with_glourls
                        (Done (glourls r) (proxied req proxyURL) responseTime ContentLength)
                        r in
                    if StatusCode =? StatusNotFound then
                      attempt_loop fuel req cacheFilePath script' rnd'
                        (with_glourls (MarkDead (glourls r) (proxied req proxyURL)) r)
                    else stream req cacheFilePath StatusCode ContentLength clh body r
                end
            end
      end.
Proof. destruct script; reflexivity. Qed.

Lemma stream_glourls req cacheFilePath StatusCode ContentLength clh body r :
  glourls (snd (stream req cacheFilePath StatusCode ContentLength clh body r))
  = glourls r.
Proof.
  unfold stream. destruct (copy_body _ _ _ _) as [e c]. destruct e; reflexivity.
Qed.

Lemma stream_tickets req cacheFilePath StatusCode ContentLength clh body r :
  tickets (snd (stream req cacheFilePath StatusCode ContentLength clh body r))
  = tickets r
  /\ fst (stream req cacheFilePath StatusCode ContentLength clh body r) <> TicketsSpent.
Proof.
  unfold stream. destruct (copy_body _ _ _ _) as [e c]. destruct e; split; easy.
Qed.

(** The selector through the rounds of one request: [Done] and [MarkDead]
    find no mirror, what remains is what [Get] does. *)
Lemma attempt_loop_only_acquired (um0 : URLManager) (req : Request)
    (cacheFilePath : string) (fuel : nat) :
  Forall (fun u => Url.base_url (URL u) = true) (urls um0) ->
  URL_Path req <> "" ->
  forall (script : list Upstream) (rnd : nat -> nat) (r : Run),
  only_acquired um0 (glourls r) ->
  only_acquired um0 (glourls (snd (attempt_loop fuel req cacheFilePath script rnd r))).
Proof.
  intros Hbase Hpath. induction script as [ | o script IH]; intros rnd r Hr;
    rewrite attempt_loop_eq; cbv zeta;
    (destruct (6 <=? tickets (defer_tick r)); [exact Hr | ]);
    pose proof (Get_only_acquired fuel rnd (glourls (defer_tick r))) as Hg;
    assert (Hr' : only_acquired um0 (after (Get fuel rnd (glourls (defer_tick r)))))
      by (eapply only_acquired_trans; [exact Hr | exact Hg]);
    (destruct (got (Get fuel rnd (glourls (defer_tick r)))) as [t | ] eqn:Hgot;
       [ | exact Hr']);
    (destruct (String.eqb_spec t "") as [Ht | Ht]; [exact Hr' | ]);
    (destruct (Url.Parse t) as [proxyURL | ] eqn:Hparse; [ | exact Hr']).
  - exact Hr'.
  - assert (Hnone : Forall (fun v => URL v <> proxied req proxyURL)
                      (urls (after (Get fuel rnd (glourls (defer_tick r)))))).
    { apply (proxied_matches_none _ req t proxyURL);
        [eapply only_acquired_base; [exact Hbase | exact Hr'] | exact Hpath | | exact Hparse].
      unfold Get in Hgot. apply Get_loop_got in Hgot as [[_ ->] | (u & Hin & Hu)];
        [congruence | ].
      apply list_elem_of_lookup in Hin as (i & Hi).
      destruct (Forall2_lookup_l _ _ _ i u Hg Hi) as (v & Hv & Huv & _).
      exists v. split; [eapply list_elem_of_lookup_2; exact Hv | congruence]. }
    destruct o as [rt | rt code cl clh body].
    + apply IH. exact Hr'.
    + cbn [glourls with_glourls count_attempt].
      rewrite Done_no_match by exact Hnone.
      destruct (code =? StatusNotFound).
      * apply IH. cbn [glourls with_glourls].
        rewrite MarkDead_no_match by exact Hnone. exact Hr'.
      * rewrite stream_glourls. exact Hr'.
Qed.

End ForwarderFacts.

Section ForwarderClaims.
Import Num Selector Paths Cache Forwarder.

Lemma registered_urls (names : list string) :
  urls (registered names)
  = map (fun n => mkURLInfo n false 0 0%float 1%float) names.
Proof.
  unfold registered.
  assert (H : forall um,
            urls (fold_left AddURL names um)
            = (urls um ++ map (fun n => mkURLInfo n false 0 0%float 1%float) names)%list).
  { induction names as [ | n names IH]; intros um; simpl.
    - rewrite app_nil_r. reflexivity.
    - rewrite IH. simpl. rewrite <- app_assoc. reflexivity. }
  rewrite H. reflexivity.
Qed.

Lemma proxyRequest_only_acquired (um0 um : URLManager) (fuel : nat) (req : Request)
    (script : list Upstream) (rnd : nat -> nat) (fs0 : FS) :
  Forall (fun u => Url.base_url (URL u) = true) (urls um0) ->
  URL_Path req <> "" ->
  only_acquired um0 um ->
  only_acquired um0 (glourls (snd (proxyRequest fuel req script rnd um fs0))).
Proof.
  intros Hbase Hpath Hum. unfold proxyRequest.
  destruct (if shouldCache (URL_Path req) then _ else _) as [hit w].
  destruct hit; [exact Hum | ].
  match goal with
  | |- context [attempt_loop ?f ?q ?p ?s ?g ?r1] =>
      pose proof (attempt_loop_only_acquired um0 q p f Hbase Hpath s g r1 Hum) as H;
      destruct (attempt_loop f q p s g r1) as [e r]
  end.
  simpl in H. destruct (has_returned e); exact H.
Qed.

Lemma serve_all_only_acquired (um0 : URLManager) (ins : list Inbound) :
  Forall (fun u => Url.base_url (URL u) = true) (urls um0) ->
  Forall (fun i => URL_Path (in_req i) <> "") ins ->
  forall (um : URLManager) (fs0 : FS),
  only_acquired um0 um ->
  only_acquired um0 (fst (serve_all ins um fs0)).
Proof.
  intros Hbase. unfold serve_all.
  induction 1 as [ | i ins Hi _ IH]; intros um fs0 Hum; simpl; [exact Hum | ].
  apply IH. simpl. apply proxyRequest_only_acquired; assumption.
Qed.

(** C10. The mirrors are registered under base URLs; the forwarder names
    the mirror to [Done] and [MarkDead] by the string of the proxied URL,
    with the path of the request in it.  Through every sequence of requests
    with a non-empty path these calls match no mirror: every mirror stays
    alive, keeps the weight 1, and its load changes by the increments of
    [Get] only. *)
Theorem proxied_name_matches_no_mirror (names : list string) (ins : list Inbound)
    (fs0 : FS) :
  Forall (fun b => Url.base_url b = true) names ->
  Forall (fun i => URL_Path (in_req i) <> "") ins ->
  let um := fst (serve_all ins (registered names) fs0) in
  Forall (fun u => Dead u = false /\ Weight u = 1%float) (urls um)
  /\ only_acquired (registered names) um
  /\ (forall (req : Request) (t : string) (proxyURL : Url.URL) (rt : float) (cl : Z),
        t ∈ names -> Url.Parse t = Some proxyURL -> URL_Path req <> "" ->
        Done um (proxied req proxyURL) rt cl = um
        /\ MarkDead um (proxied req proxyURL) = um).
Proof.
  intros Hnames Hins um.
  assert (Hbase : Forall (fun u => Url.base_url (URL u) = true) (urls (registered names))).
  { rewrite registered_urls. apply Forall_map.
    eapply Forall_impl; [exact Hnames | ]. intros b Hb. exact Hb. }
  assert (Hacq : only_acquired (registered names) um).
  { apply serve_all_only_acquired; [exact Hbase | exact Hins | apply only_acquired_refl]. }
  split; [ | split; [exact Hacq | ]].
  - unfold only_acquired in Hacq.
    eapply Forall2_Forall_r; [exact Hacq | ].
    rewrite registered_urls. apply Forall_map, Forall_true.
    intros n u (_ & Hw & _ & Hd & _). simpl in *. split; [apply Hd; reflexivity | exact Hw].
  - intros req t proxyURL rt cl Ht Hparse Hpath.
    assert (Hnone : Forall (fun v => URL v <> proxied req proxyURL) (urls um)).
    { apply (proxied_matches_none um req t proxyURL);
        [eapply only_acquired_base; [exact Hbase | exact Hacq] | exact Hpath | | exact Hparse].
      apply list_elem_of_lookup in Ht as (i & Hi).
      assert (Hreg : urls (registered names) !! i
                     = Some (mkURLInfo t false 0 0%float 1%float)).
      { rewrite registered_urls, list_lookup_fmap, Hi. reflexivity. }
      destruct (Forall2_lookup_l _ _ _ i _ Hacq Hreg) as (v & Hv & Huv & _).
      exists v. split; [eapply list_elem_of_lookup_2; exact Hv | exact Huv]. }
    split; [apply Done_no_match | apply MarkDead_no_match]; exact Hnone.
Qed.

(** The theorem on the mirrors of [main] and one request that meets a 404,
    a transport failure and then a response. *)
Lemma proxied_name_matches_no_mirror_witness :
  let names :=
    ["https://yanyu.icu"; "https://hub.rat.dev"; "https://docker.anyhub.us.kg";
     "https://docker.chenby.cn"; "https://hub.alduin.net";
     "https://docker.jsdelivr.fyi"; "https://dockercf.jsdelivr.fyi";
     "https://dockertest.jsdelivr.fyi"] in
  let ins :=
    [mkInbound 1 blob_request
       [DoResponse 1%float 404 0 "0" []; DoError 1%float;
        DoResponse 1%float 200 3 "3" [mkRead [x01; x02; x03] ErrEOF true]]
       (fun _ => O)] in
  (Forall (fun b => Url.base_url b = true) names
   /\ Forall (fun i => URL_Path (in_req i) <> "") ins)
  /\ Forall (fun u => Dead u = false /\ Weight u = 1%float)
       (urls (fst (serve_all ins (registered names) ∅))).
Proof.
  cbv zeta.
  assert (H1 : Forall (fun b => Url.base_url b = true)
                 ["https://yanyu.icu"; "https://hub.rat.dev"; "https://docker.anyhub.us.kg";
                  "https://docker.chenby.cn"; "https://hub.alduin.net";
                  "https://docker.jsdelivr.fyi"; "https://dockercf.jsdelivr.fyi";
                  "https://dockertest.jsdelivr.fyi"])
    by (repeat constructor).
  assert (H2 : Forall (fun i => URL_Path (in_req i) <> "")
                 [mkInbound 1 blob_request
                    [DoResponse 1%float 404 0 "0" []; DoError 1%float;
                     DoResponse 1%float 200 3 "3" [mkRead [x01; x02; x03] ErrEOF true]]
                    (fun _ => O)])
    by (repeat constructor; discriminate).
  split; [split; [exact H1 | exact H2] | ].
  exact (proj1 (proxied_name_matches_no_mirror _ _ ∅ H1 H2)).
Defined.

(** The test [tickets >= 6] reads a counter that no round has changed: the
    increments are deferred to the return of [proxyRequest]. *)
Lemma attempt_loop_tickets (fuel : nat) (req : Request) (cacheFilePath : string) :
  forall (script : list Upstream) (rnd : nat -> nat) (r : Run),
  tickets r < 6 ->
  fst (attempt_loop fuel req cacheFilePath script rnd r) <> TicketsSpent
  /\ tickets (snd (attempt_loop fuel req cacheFilePath script rnd r)) = tickets r.
Proof.
  induction script as [ | o script IH]; intros rnd r Hr;
    rewrite attempt_loop_eq; cbv zeta;
    (destruct (Z.leb_spec 6 (tickets (defer_tick r))) as [Hge | _];
       [simpl in Hge; lia | ]);
    (destruct (got (Get fuel rnd (glourls (defer_tick r)))) as [t | ];
       [ | split; [discriminate | reflexivity]]);
    (destruct (String.eqb t ""); [split; [discriminate | reflexivity] | ]);
    (destruct (Url.Parse t) as [proxyURL | ]; [ | split; [discriminate | reflexivity]]).
  - split; [discriminate | reflexivity].
  - destruct o as [rt | rt code cl clh body].
    + match goal with
      | |- context [attempt_loop _ _ _ _ ?g ?r'] =>
          destruct (IH g r' ltac:(simpl; exact Hr)) as [He Ht]
      end.
      split; [exact He | rewrite Ht; reflexivity].
    + destruct (code =? StatusNotFound).
      * match goal with
        | |- context [attempt_loop _ _ _ _ ?g ?r'] =>
            destruct (IH g r' ltac:(simpl; exact Hr)) as [He Ht]
        end.
        split; [exact He | rewrite Ht; reflexivity].
      * destruct (stream_tickets req cacheFilePath code cl clh body
                    (with_glourls
                       (Done (glourls (count_attempt (with_glourls
                          (after (Get fuel rnd (glourls (defer_tick r)))) (defer_tick r))))
                          (proxied req proxyURL) rt cl)
                       (count_attempt (with_glourls
                          (after (Get fuel rnd (glourls (defer_tick r)))) (defer_tick r)))))
          as [Ht He].
        split; [exact He | rewrite Ht; reflexivity].
Qed.

(** C2 fails on the program.  No run of [proxyRequest] ends because its
    tickets are spent; and a request whose upstream attempts all fail, by
    transport failure or by 404, is at its seventh attempt after seven
    failures, the counter still at zero, and goes on to the eighth. *)
Theorem retry_budget_never_spent :
  (forall fuel req script rnd um fs0,
     fst (proxyRequest fuel req script rnd um fs0) <> TicketsSpent)
  /\ (let run := proxyRequest 1 blob_request (repeat (DoError 1%float) 7)
                   (fun _ => O) main_urls ∅ in
      fst run = AwaitingUpstream /\ attempts (snd run) = 7%nat
      /\ tickets (snd run) = 0 /\ deferred (snd run) = 8%nat)
  /\ (let run := proxyRequest 1 blob_request
                   (repeat (DoResponse 1%float 404 0 "0" []) 7)
                   (fun _ => O) main_urls ∅ in
      fst run = AwaitingUpstream /\ attempts (snd run) = 7%nat
      /\ tickets (snd run) = 0 /\ deferred (snd run) = 8%nat).
Proof.
  split; [ | cbv zeta; repeat apply conj; vm_compute; reflexivity].
  intros fuel req script rnd um fs0. unfold proxyRequest.
  destruct (if shouldCache (URL_Path req) then _ else _) as [hit w].
  destruct hit; [discriminate | ].
  match goal with
  | |- context [attempt_loop ?f ?q ?p ?s ?g ?r1] =>
      destruct (attempt_loop_tickets f q p s g r1 ltac:(simpl; lia)) as [He _];
      destruct (attempt_loop f q p s g r1) as [e r]
  end.
  exact He.
Qed.

(** C5 fails on the program.  On the mirrors of [main], after a 404 from
    the selected mirror, and likewise after a transport failure, that
    mirror is alive with its load still raised; with one mirror registered
    the attempt that follows a 404 selects the same mirror again. *)
Theorem failed_mirror_stays_alive :
  (let run := proxyRequest 1 blob_request [DoResponse 1%float 404 0 "0" []]
                (fun _ => O) main_urls ∅ in
   attempts (snd run) = 1%nat
   /\ urls (glourls (snd run)) !! O
      = Some (mkURLInfo "https://yanyu.icu" false 1 0%float 1%float))
  /\ (let run := proxyRequest 1 blob_request [DoError 1%float]
                   (fun _ => O) main_urls ∅ in
      attempts (snd run) = 1%nat
      /\ urls (glourls (snd run)) !! O
         = Some (mkURLInfo "https://yanyu.icu" false 1 0%float 1%float))
  /\ (let run := proxyRequest 1 blob_request
                   [DoResponse 1%float 404 0 "0" []; DoResponse 1%float 404 0 "0" []]
                   (fun _ => O) (registered ["https://yanyu.icu"]) ∅ in
      attempts (snd run) = 2%nat
      /\ urls (glourls (snd run))
         = [mkURLInfo "https://yanyu.icu" false 3 0%float 1%float]).
Proof.
  cbv zeta. repeat apply conj; vm_compute; reflexivity.
Qed.

End ForwarderClaims.

(** ** Cache paths *)

Section PathFacts.
Import Paths.

Lemma has_char_app (c : ascii) (a b : string) :
  has_char c (a ++ b) = has_char c a || has_char c b.
Proof.
  induction a as [ | x a IH]; simpl; [reflexivity | ].
  rewrite IH. apply orb_assoc.
Qed.

Lemma append_cons (c : ascii) (a b : string) :
  String c a ++ b = String c (a ++ b).
Proof. reflexivity. Qed.

Lemma append_nil_r (a : string) : a ++ "" = a.
Proof.
  induction a as [ | x a IH]; [reflexivity | rewrite append_cons, IH; reflexivity].
Qed.

Lemma append_assoc (a b c : string) : (a ++ b) ++ c = a ++ (b ++ c).
Proof.
  induction a as [ | x a IH]; [reflexivity | ].
  rewrite !append_cons, IH. reflexivity.
Qed.

Lemma strip_prefix_app (p s r : string) :
  strip_prefix p s = Some r -> s = p ++ r.
Proof.
  revert s. induction p as [ | a p IH]; intros s; simpl.
  - intros H. injection H as ->. reflexivity.
  - destruct s as [ | b s]; [discriminate | ].
    destruct (Ascii.eqb_spec a b) as [-> | ]; [ | discriminate].
    intros H. rewrite append_cons. f_equal. apply IH, H.
Qed.

(** A string without [":"] has no match of the pattern. *)
Lemma find_sha256_no_colon (s : string) :
  has_char ":" s = false -> find_sha256 s = None.
Proof.
  induction s as [ | c s IH]; intros H.
  - reflexivity.
  - assert (Hs : has_char ":" s = false).
    { simpl in H. apply orb_false_iff in H as [_ H]. exact H. }
    cbn [find_sha256].
    destruct (strip_prefix "sha256:" (String c s)) as [r | ] eqn:Hp.
    + apply strip_prefix_app in Hp. rewrite Hp in H.
      rewrite has_char_app in H. simpl in H. discriminate.
    + apply IH, Hs.
Qed.

Lemma take_hex_all_hex (s : string) : all_hex (take_hex s).
Proof.
  unfold all_hex. induction s as [ | c s IH]; simpl; [reflexivity | ].
  destruct (is_hex c) eqn:Hc; simpl; [rewrite Hc, IH | ]; reflexivity.
Qed.

Lemma find_sha256_all_hex (s h : string) : find_sha256 s = Some h -> all_hex h.
Proof.
  induction s as [ | c s IH]; cbn [find_sha256].
  - destruct (strip_prefix "sha256:" "") as [r | ]; [ | discriminate].
    destruct (take_hex r) eqn:Hr; [discriminate | ].
    intros H. injection H as <-. rewrite <- Hr. apply take_hex_all_hex.
  - destruct (strip_prefix "sha256:" (String c s)) as [r | ]; [ | exact IH].
    destruct (take_hex r) eqn:Hr; [exact IH | ].
    intros H. injection H as <-. rewrite <- Hr. apply take_hex_all_hex.
Qed.

Lemma all_hex_no_char (c : ascii) (h : string) :
  is_hex c = false -> all_hex h -> has_char c h = false.
Proof.
  intros Hc. unfold all_hex. induction h as [ | x h IH]; simpl; [reflexivity | ].
  destruct (is_hex x) eqn:Hx; [ | discriminate].
  intros H. injection H as H. rewrite (IH H), orb_false_r.
  destruct (Ascii.eqb_spec x c) as [-> | ]; [congruence | reflexivity].
Qed.

Lemma last_segment_from_no_slash (cur s : string) :
  has_char "/" s = false -> last_segment_from cur s = cur ++ s.
Proof.
  revert cur. induction s as [ | c s IH]; intros cur H; simpl.
  - symmetry. apply append_nil_r.
  - simpl in H. apply orb_false_iff in H as [Hc Hs]. rewrite Hc.
    rewrite IH by exact Hs. apply append_assoc.
Qed.

(** The hash that the path helpers read off a path of the cache
    directory is its file name: the colon of the marker is not in it. *)
Lemma extractHashFromURL_cache_file (h suffix : string) :
  all_hex h ->
  has_char ":" suffix = false -> has_char "/" suffix = false ->
  extractHashFromURL (Join cacheDir (h ++ suffix)) = h ++ suffix.
Proof.
  intros Hh Hc Hs. unfold extractHashFromURL, Join, cacheDir.
  rewrite find_sha256_no_colon.
  - change (last_segment ("cache" ++ "/" ++ h ++ suffix))
      with (last_segment_from "" (h ++ suffix)).
    apply (last_segment_from_no_slash EmptyString).
    rewrite has_char_app, Hs, (all_hex_no_char "/" h eq_refl Hh). reflexivity.
  - rewrite !has_char_app, Hc, (all_hex_no_char ":" h eq_refl Hh). reflexivity.
Qed.

Lemma append_inj_l (a b c : string) : a ++ b = a ++ c -> b = c.
Proof.
  induction a as [ | x a IH]; intros H; [exact H | ].
  rewrite !append_cons in H. injection H as H. apply IH, H.
Qed.

(** The paths [serveFromCache] and [checkCacheFileSize] derive from a
    cache file path. *)
Lemma getRecordFilePath_cache_file (h suffix : string) :
  all_hex h ->
  has_char ":" suffix = false -> has_char "/" suffix = false ->
  getRecordFilePath (Join cacheDir (h ++ suffix))
  = Join cacheDir (h ++ suffix ++ "_record.txt").
Proof.
  intros Hh Hc Hs. unfold getRecordFilePath.
  rewrite extractHashFromURL_cache_file by assumption.
  rewrite append_assoc. reflexivity.
Qed.

Lemma getCacheFilePath_cache_file (h suffix : string) :
  all_hex h ->
  has_char ":" suffix = false -> has_char "/" suffix = false ->
  getCacheFilePath (Join cacheDir (h ++ suffix))
  = Join cacheDir (h ++ suffix ++ ".dat").
Proof.
  intros Hh Hc Hs. unfold getCacheFilePath.
  rewrite extractHashFromURL_cache_file by assumption.
  rewrite append_assoc. reflexivity.
Qed.

End PathFacts.

(** ** The cache store *)

Section CacheFacts.
Import Num Paths Cache Forwarder.

Lemma Join_inj (a b : string) : Join cacheDir a = Join cacheDir b -> a = b.
Proof. unfold Join. intros H. apply append_inj_l in H. apply append_inj_l in H. exact H. Qed.

Lemma Write_absent (f q : string) (data : list byte) (fs0 : FS) :
  fs0 !! q = None -> Write f data fs0 !! q = None.
Proof. intros H. unfold Write. apply lookup_alter_None. exact H. Qed.

Lemma Remove_absent (f q : string) (fs0 : FS) :
  fs0 !! q = None -> Remove f fs0 !! q = None.
Proof. intros H. unfold Remove. apply lookup_delete_None. right. exact H. Qed.

Lemma Create_absent (f q : string) (fs0 : FS) :
  f <> q -> fs0 !! q = None -> Create f fs0 !! q = None.
Proof. intros Hf H. unfold Create. rewrite lookup_insert_ne by exact Hf. exact H. Qed.

(** In split mode the loop creates part files only. *)
Lemma tee_split_absent (urlPath q : string) (data : list byte) (st : Copy) :
  (forall p, getCacheFilePathWithPart urlPath p <> q) ->
  fs_of st !! q = None -> fs_of (tee_split urlPath data st) !! q = None.
Proof.
  intros Hq H. unfold tee_split.
  destruct st as [fs0 w b [f | ] cfp p t]; cbn in *.
  - destruct (chunkSize <? wrap64 (t + Z.of_nat (length data))); cbn.
    + apply Write_absent, Create_absent; [apply Hq | exact H].
    + apply Write_absent, H.
  - apply Write_absent, Create_absent; [apply Hq | exact H].
Qed.

Lemma abort_absent (urlPath q : string) (st : Copy) :
  fs_of st !! q = None -> fs_of (abort urlPath st) !! q = None.
Proof.
  intros H. unfold abort. destruct (shouldCache urlPath); [ | exact H].
  cbn. apply Remove_absent, H.
Qed.

Lemma copy_body_split_absent (urlPath q : string) (body : list ReadEvent) :
  (forall p, getCacheFilePathWithPart urlPath p <> q) ->
  forall st, fs_of st !! q = None ->
  fs_of (snd (copy_body urlPath true body st)) !! q = None.
Proof.
  intros Hq. induction body as [ | ev body IH]; intros st H; [exact H | ].
  cbn [copy_body].
  set (st1 := if 0 <? Z.of_nat (length (rdata ev)) then _ else st).
  assert (H1 : fs_of st1 !! q = None).
  { subst st1. destruct (0 <? Z.of_nat (length (rdata ev))); [ | exact H].
    destruct (shouldCache urlPath); [ | exact H].
    apply tee_split_absent; [exact Hq | exact H]. }
  destruct ((0 <? Z.of_nat (length (rdata ev))) && negb (wok ev)).
  - cbn. apply abort_absent, H1.
  - set (st2 := if 0 <? Z.of_nat (length (rdata ev)) then _ else st1).
    assert (H2 : fs_of st2 !! q = None).
    { subst st2. destruct (0 <? Z.of_nat (length (rdata ev))); [exact H1 | exact H1]. }
    destruct (rerr ev); cbn.
    + apply IH, H2.
    + exact H2.
    + apply abort_absent, H2.
Qed.

Lemma write_record_absent (urlPath q : string) (split : bool) (st : Copy) :
  getRecordFilePath urlPath <> q ->
  fs_of st !! q = None -> fs_of (write_record urlPath split st) !! q = None.
Proof.
  intros Hq H. unfold write_record.
  destruct (shouldCache urlPath && split); [ | exact H].
  cbn. rewrite lookup_insert_ne by exact Hq. exact H.
Qed.

(** What a streamed response with a declared length above the threshold
    leaves absent stays absent, unless it is a part file or the record
    file of the URL path. *)
Lemma stream_split_absent (req : Request) (cacheFilePath q : string)
    (StatusCode ContentLength : Z) (clh : string) (body : list ReadEvent) (r : Run) :
  100 * 1024 * 1024 < ContentLength ->
  (forall p, getCacheFilePathWithPart (URL_Path req) p <> q) ->
  getRecordFilePath (URL_Path req) <> q ->
  fs r !! q = None ->
  fs (snd (stream req cacheFilePath StatusCode ContentLength clh body r)) !! q = None.
Proof.
  intros Hcl Hparts Hrec H. unfold stream.
  apply Z.ltb_lt in Hcl. rewrite Hcl.
  pose proof (copy_body_split_absent (URL_Path req) q body Hparts
                (mkCopy (fs (WriteHeader StatusCode r)) (sent (WriteHeader StatusCode r))
                   [] None cacheFilePath 0 0) H) as Hc.
  destruct (copy_body _ _ _ _) as [e c]. simpl in Hc.
  destruct e; cbn; try exact Hc.
  apply write_record_absent; assumption.
Qed.

(** The names under which a split entry is written and the names under
    which it is looked for. *)
Lemma split_names_differ (urlPath h : string) :
  find_sha256 urlPath = Some h ->
  (forall p, getCacheFilePathWithPart urlPath p <> getCacheFilePath urlPath)
  /\ (forall p, getCacheFilePathWithPart urlPath p
                <> getRecordFilePath (getCacheFilePath urlPath))
  /\ getRecordFilePath urlPath <> getCacheFilePath urlPath
  /\ getRecordFilePath urlPath <> getRecordFilePath (getCacheFilePath urlPath).
Proof.
  intros Hfind.
  pose proof (find_sha256_all_hex _ _ Hfind) as Hhex.
  assert (Hh : extractHashFromURL urlPath = h)
    by (unfold extractHashFromURL; rewrite Hfind; reflexivity).
  assert (Hrec : getRecordFilePath (getCacheFilePath urlPath)
                 = Join cacheDir (h ++ ".dat" ++ "_record.txt")).
  { unfold getCacheFilePath. rewrite Hh.
    apply getRecordFilePath_cache_file; [exact Hhex | reflexivity | reflexivity]. }
  rewrite Hrec. unfold getCacheFilePathWithPart, getRecordFilePath, getCacheFilePath.
  rewrite Hh.
  split; [ | split; [ | split]]; intros;
    match goal with
    | |- _ <> _ => let H := fresh in intros H; apply Join_inj, append_inj_l in H;
                   discriminate H
    end.
Qed.

(** C7 fails on the program.  Whatever the body, after a response with a
    declared length above the split threshold has been streamed into a
    cache that has no flat file for the key, the entry is not read back:
    [serveFromCache] on the key finds neither a record file nor a flat
    file, returns [false] and serves nothing. *)
Theorem split_entry_is_not_read_back (req : Request) (h : string)
    (StatusCode ContentLength : Z) (clh : string) (body : list ReadEvent) (r : Run) :
  find_sha256 (URL_Path req) = Some h ->
  100 * 1024 * 1024 < ContentLength ->
  fs r !! getCacheFilePath (URL_Path req) = None ->
  fs r !! getRecordFilePath (getCacheFilePath (URL_Path req)) = None ->
  serveFromCache
    (fs (snd (stream req (getCacheFilePath (URL_Path req)) StatusCode ContentLength
                clh body r)))
    [] (getCacheFilePath (URL_Path req))
  = (false, []).
Proof.
  intros Hfind Hcl Hflat Hrec.
  destruct (split_names_differ _ _ Hfind) as (Hp1 & Hp2 & Hr1 & Hr2).
  unfold serveFromCache.
  rewrite (stream_split_absent req _ _ StatusCode ContentLength clh body r Hcl Hp2 Hr2 Hrec).
  rewrite (stream_split_absent req _ _ StatusCode ContentLength clh body r Hcl Hp1 Hr1 Hflat).
  reflexivity.
Qed.

(** The theorem on a response that declares three chunks and whose
    connection is cut after three bytes. *)
Lemma split_entry_is_not_read_back_witness :
  let h := "e3b0c44298fc1c149afbf4c8996fb92427ae41e4649b934ca495991b7852b855" in
  let r := mkRun main_urls ∅ None [] 0 1 1 None in
  let body := [mkRead [x01; x02; x03] ErrNil true; mkRead [] ErrOther true] in
  (find_sha256 (URL_Path blob_request) = Some h
   /\ 100 * 1024 * 1024 < 3 * chunkSize
   /\ fs r !! getCacheFilePath (URL_Path blob_request) = None
   /\ fs r !! getRecordFilePath (getCacheFilePath (URL_Path blob_request)) = None)
  /\ serveFromCache
       (fs (snd (stream blob_request (getCacheFilePath (URL_Path blob_request)) 200
                   (3 * chunkSize) "314572800" body r)))
       [] (getCacheFilePath (URL_Path blob_request))
     = (false, []).
Proof.
  cbv zeta.
  assert (H1 : find_sha256 (URL_Path blob_request)
               = Some "e3b0c44298fc1c149afbf4c8996fb92427ae41e4649b934ca495991b7852b855")
    by (vm_compute; reflexivity).
  assert (H2 : 100 * 1024 * 1024 < 3 * chunkSize) by (vm_compute; reflexivity).
  assert (H3 : fs (mkRun main_urls ∅ None [] 0 1 1 None)
               !! getCacheFilePath (URL_Path blob_request) = None)
    by reflexivity.
  assert (H4 : fs (mkRun main_urls ∅ None [] 0 1 1 None)
               !! getRecordFilePath (getCacheFilePath (URL_Path blob_request)) = None)
    by reflexivity.
  split; [split; [exact H1 | split; [exact H2 | split; [exact H3 | exact H4]]] | ].
  exact (split_entry_is_not_read_back blob_request _ 200 (3 * chunkSize) "314572800"
           _ _ H1 H2 H3 H4).
Defined.

(** The verification task is started on the path of the cache file, not
    on the URL path: it looks for a file with the suffix twice, finds none
    and leaves the cache as it is. *)
Lemma checkCacheFileSize_on_cache_file (sha256_hex : list byte -> string)
    (urlPath h contentLengthStr : string) (fs0 : FS) :
  find_sha256 urlPath = Some h ->
  fs0 !! Join cacheDir (h ++ ".dat.dat") = None ->
  fs0 !! Join cacheDir (h ++ ".dat.dat_record.txt") = None ->
  checkCacheFileSize sha256_hex (getCacheFilePath urlPath) contentLengthStr fs0 = fs0.
Proof.
  intros Hfind Hflat Hrec.
  pose proof (find_sha256_all_hex _ _ Hfind) as Hhex.
  assert (Hh : extractHashFromURL urlPath = h)
    by (unfold extractHashFromURL; rewrite Hfind; reflexivity).
  unfold checkCacheFileSize.
  destruct (String.eqb contentLengthStr ""); [reflexivity | ].
  destruct (ParseInt contentLengthStr); [ | reflexivity].
  cbv zeta.
  assert (Hc : getCacheFilePath (getCacheFilePath urlPath)
               = Join cacheDir (h ++ ".dat.dat")).
  { unfold getCacheFilePath at 2. rewrite Hh.
    apply (getCacheFilePath_cache_file h ".dat"); [exact Hhex | reflexivity | reflexivity]. }
  rewrite Hc.
  assert (Hr : getRecordFilePath (Join cacheDir (h ++ ".dat.dat"))
               = Join cacheDir (h ++ ".dat.dat_record.txt")).
  { apply (getRecordFilePath_cache_file h ".dat.dat");
      [exact Hhex | reflexivity | reflexivity]. }
  rewrite Hr, Hrec, Hflat. reflexivity.
Qed.

(** C3 fails on the program.  A blob whose bytes do not hash to its key is
    streamed and cached; the verification task the forwarder starts leaves
    the cache unchanged, whatever the hash function, and the next request
    for the key is served the same bytes from the cache.  In general the
    task changes nothing in a cache that holds no file with the doubled
    suffix. *)
Theorem verification_deletes_nothing (sha256_hex : list byte -> string) :
  (let run := proxyRequest 1 blob_request
                [DoResponse 1%float 200 3 "3" [mkRead [x01; x02; x03] ErrEOF true]]
                (fun _ => O) main_urls ∅ in
   let fs1 := run_verify sha256_hex (snd run) in
   let again := proxyRequest 1 blob_request [] (fun _ => O) (glourls (snd run)) fs1 in
   fst run = Streamed AtEOF
   /\ verify (snd run) = Some (getCacheFilePath (URL_Path blob_request), "3")
   /\ fs1 = fs (snd run)
   /\ fs1 !! getCacheFilePath (URL_Path blob_request) = Some [x01; x02; x03]
   /\ fst again = ServedFromCache
   /\ sent (snd again) = [x01; x02; x03])
  /\ (forall urlPath h contentLengthStr (fs0 : FS),
        find_sha256 urlPath = Some h ->
        fs0 !! Join cacheDir (h ++ ".dat.dat") = None ->
        fs0 !! Join cacheDir (h ++ ".dat.dat_record.txt") = None ->
        checkCacheFileSize sha256_hex (getCacheFilePath urlPath) contentLengthStr fs0
        = fs0).
Proof.
  split; [ | apply checkCacheFileSize_on_cache_file].
  cbv zeta. repeat apply conj; vm_compute; reflexivity.
Qed.

(** C8 fails on the program.  A split entry of two parts whose second part
    is missing: [serveFromCache] returns [false] after it has written the
    first part to the client, and the forwarder then appends the upstream
    body to those bytes. *)
Theorem missing_part_is_served_partially :
  let cacheFilePath := getCacheFilePath (URL_Path blob_request) in
  let fs0 : FS :=
    <[getRecordFilePath cacheFilePath := list_byte_of_string (Sprintf_record 2 6)]>
      (<[getCacheFilePathWithPart cacheFilePath 0 := [x01; x02; x03]]> ∅) in
  let run := proxyRequest 1 blob_request
               [DoResponse 1%float 200 3 "3" [mkRead [x07; x08; x09] ErrEOF true]]
               (fun _ => O) main_urls fs0 in
  fs0 !! getCacheFilePathWithPart cacheFilePath 1 = None
  /\ serveFromCache fs0 [] cacheFilePath = (false, [x01; x02; x03])
  /\ fst run = Streamed AtEOF
  /\ sent (snd run) = [x01; x02; x03; x07; x08; x09].
Proof.
  cbv zeta. repeat apply conj; vm_compute; reflexivity.
Qed.

End CacheFacts.

(** ** Writing a split entry *)

Section SplitWrite.
Import Num Paths Cache Forwarder.

Variable urlPath : string.
Hypothesis cacheable : shouldCache urlPath = true.

(** Every read of the section returns the same [n] bytes, without error,
    and the client takes them. *)
Variable data : list byte.
Variable n : Z.
Hypothesis data_length : Z.of_nat (length data) = n.
Hypothesis n_pos : 0 < n.
Hypothesis n_small : n <= chunkSize.

Let ev : ReadEvent := mkRead data ErrNil true.

#[local] Arguments wrap64 : simpl never.
#[local] Arguments chunkSize : simpl never.
#[local] Arguments getCacheFilePathWithPart : simpl never.
#[local] Arguments Write : simpl never.
#[local] Arguments Create : simpl never.

Lemma chunkSize_value : chunkSize = 104857600.
Proof. reflexivity. Qed.

(** A read that fits in the open part is appended to it. *)
Lemma read_fits (st : Copy) (f : string) (rest : list ReadEvent) :
  cacheFile st = Some f ->
  0 <= totalReadSize st -> totalReadSize st + n <= chunkSize ->
  copy_body urlPath true (ev :: rest) st
  = copy_body urlPath true rest
      (mkCopy (Write f data (fs_of st)) (w_of st ++ data)%list
         (builder st ++ data)%list (Some f) (cacheFilePath st) (part st)
         (totalReadSize st + n)).
Proof.
  intros Hf H0 Hfit. destruct st as [fs0 w b cf cfp p t]. cbn in Hf, H0, Hfit. subst cf.
  cbn [copy_body]. unfold ev, tee_split. cbn.
  rewrite data_length. rewrite (proj2 (Z.ltb_lt 0 n) n_pos).
  rewrite cacheable. cbn.
  assert (Hw : wrap64 (t + n) = t + n)
    by (apply wrap64_id; rewrite chunkSize_value in Hfit;
        unfold in_int64, MinInt64, MaxInt64; lia).
  rewrite Hw, (proj2 (Z.ltb_ge chunkSize (t + n))) by exact Hfit.
  cbn. rewrite ?Hw. reflexivity.
Qed.

(** A read that does not fit, or that finds no part open, opens the part
    of the current number and starts it. *)
Lemma read_opens_part (st : Copy) (rest : list ReadEvent) :
  (cacheFile st = None /\ totalReadSize st = 0
   \/ cacheFile st <> None /\ 0 <= totalReadSize st <= chunkSize
      /\ chunkSize < totalReadSize st + n) ->
  0 <= part st < MaxInt64 ->
  copy_body urlPath true (ev :: rest) st
  = copy_body urlPath true rest
      (let p := getCacheFilePathWithPart urlPath (part st) in
       mkCopy (Write p data (Create p (fs_of st))) (w_of st ++ data)%list
         (builder st ++ data)%list (Some p) p (part st + 1) n).
Proof.
  intros Hst Hp. destruct st as [fs0 w b cf cfp p t]. cbn in Hst, Hp.
  assert (Hn : wrap64 (0 + n) = n).
  { apply wrap64_id. rewrite chunkSize_value in n_small.
    unfold in_int64, MinInt64, MaxInt64. lia. }
  assert (Hp1 : wrap64 (p + 1) = p + 1).
  { apply wrap64_id. unfold in_int64, MinInt64, MaxInt64 in *. lia. }
  cbn [copy_body]. unfold ev, tee_split. cbn.
  rewrite data_length. rewrite (proj2 (Z.ltb_lt 0 n) n_pos).
  rewrite cacheable. cbn.
  destruct Hst as [[-> ->] | (Hcf & Ht & Hover)].
  - cbn. rewrite ?Hn, ?Hp1. reflexivity.
  - destruct cf as [f | ]; [ | congruence].
    assert (Hw : wrap64 (t + n) = t + n)
      by (apply wrap64_id; rewrite chunkSize_value in *;
          unfold in_int64, MinInt64, MaxInt64; lia).
    rewrite Hw, (proj2 (Z.ltb_lt chunkSize (t + n))) by exact Hover.
    cbn. rewrite ?Hn, ?Hp1. reflexivity.
Qed.

Lemma file_size_Write (f : string) (fs0 : FS) :
  file_size (Write f data fs0) f = (fun z => z + n) <$> file_size fs0 f.
Proof.
  unfold file_size, Write. rewrite lookup_alter_eq.
  destruct (fs0 !! f) as [d | ]; cbn; [ | reflexivity].
  rewrite length_app, Nat2Z.inj_add, data_length. reflexivity.
Qed.

(** [k] reads that fit together in the open part. *)
Lemma reads_fit (k : nat) (rest : list ReadEvent) :
  forall (st : Copy) (f : string),
  cacheFile st = Some f ->
  0 <= totalReadSize st -> totalReadSize st + Z.of_nat k * n <= chunkSize ->
  exists st',
    copy_body urlPath true (repeat ev k ++ rest) st = copy_body urlPath true rest st'
    /\ cacheFile st' = Some f /\ cacheFilePath st' = cacheFilePath st
    /\ part st' = part st
    /\ totalReadSize st' = totalReadSize st + Z.of_nat k * n
    /\ (forall q, q <> f -> fs_of st' !! q = fs_of st !! q)
    /\ file_size (fs_of st') f = (fun z => z + Z.of_nat k * n) <$> file_size (fs_of st) f.
Proof.
  induction k as [ | k IH]; intros st f Hf H0 Hfit.
  - exists st. cbn [repeat app].
    split; [reflexivity | split; [exact Hf | split; [reflexivity | split; [reflexivity | ]]]].
    split; [lia | split; [reflexivity | ]].
    destruct (file_size (fs_of st) f) as [z | ]; [ | reflexivity].
    change (Some z = Some (z + Z.of_nat 0 * n)). f_equal. lia.
  - cbn [repeat app]. rewrite (read_fits st f) by (try assumption; nia).
    destruct (IH (mkCopy (Write f data (fs_of st)) (w_of st ++ data)%list
                    (builder st ++ data)%list (Some f) (cacheFilePath st) (part st)
                    (totalReadSize st + n)) f)
      as (st' & Heq & H1 & H2 & H3 & H4 & H5 & H6);
      [reflexivity | cbn; lia | cbn; nia | ].
    cbn in H2, H3, H4, H5, H6.
    exists st'. split; [exact Heq | ].
    split; [exact H1 | split; [exact H2 | split; [exact H3 | split; [lia | split]]]].
    + intros q Hq. rewrite H5 by exact Hq. unfold Write. apply lookup_alter_ne. congruence.
    + rewrite H6, file_size_Write.
      destruct (file_size (fs_of st) f) as [z | ]; [ | reflexivity].
      change (Some (z + n + Z.of_nat k * n) = Some (z + Z.of_nat (S k) * n)).
      f_equal. lia.
Qed.

(** A part is opened and takes [k + 1] reads. *)
Lemma part_written (k : nat) (rest : list ReadEvent) (st : Copy) :
  (cacheFile st = None /\ totalReadSize st = 0
   \/ cacheFile st <> None /\ 0 <= totalReadSize st <= chunkSize
      /\ chunkSize < totalReadSize st + n) ->
  0 <= part st < MaxInt64 ->
  Z.of_nat (S k) * n <= chunkSize ->
  exists st',
    copy_body urlPath true (repeat ev (S k) ++ rest) st = copy_body urlPath true rest st'
    /\ cacheFile st' = Some (getCacheFilePathWithPart urlPath (part st))
    /\ cacheFilePath st' = getCacheFilePathWithPart urlPath (part st)
    /\ part st' = part st + 1
    /\ totalReadSize st' = Z.of_nat (S k) * n
    /\ (forall q, q <> getCacheFilePathWithPart urlPath (part st) ->
          fs_of st' !! q = fs_of st !! q)
    /\ file_size (fs_of st') (getCacheFilePathWithPart urlPath (part st))
       = Some (Z.of_nat (S k) * n).
Proof.
  intros Hst Hp Hk. cbn [repeat app]. rewrite read_opens_part by assumption. cbv zeta.
  set (p := getCacheFilePathWithPart urlPath (part st)).
  destruct (reads_fit k rest
              (mkCopy (Write p data (Create p (fs_of st))) (w_of st ++ data)%list
                 (builder st ++ data)%list (Some p) p (part st + 1) n) p)
    as (st' & Heq & H1 & H2 & H3 & H4 & H5 & H6);
    [reflexivity | cbn; lia | cbn; lia | ].
  cbn in H2, H3, H4, H5, H6.
  exists st'. split; [exact Heq | ].
  split; [exact H1 | split; [exact H2 | split; [exact H3 | split; [lia | split]]]].
  - intros q Hq. rewrite H5 by exact Hq. unfold Write, Create.
    rewrite lookup_alter_ne by congruence. apply lookup_insert_ne. congruence.
  - rewrite H6, file_size_Write. unfold file_size, Create.
    rewrite lookup_insert_eq.
    change (Some (Z.of_nat 0 + n + Z.of_nat k * n) = Some (Z.of_nat (S k) * n)).
    f_equal. lia.
Qed.

End SplitWrite.

Section SplitScenario.
Import Num Paths Cache Forwarder.

Lemma repeat_split (A : Type) (x : A) (a b : nat) :
  repeat x (a + b) = (repeat x a ++ repeat x b)%list.
Proof. induction a as [ | a IH]; cbn; [reflexivity | rewrite IH; reflexivity]. Qed.

(** C4 fails on the program in its record.  A body of 250 MiB, declared
    as such and read in 4000 full buffers of 64 KiB, is written as three
    part files of 100 MiB, 100 MiB and 50 MiB, and no fourth; the record
    file then reads [Parts: 3] and [TotalSize: 52428800], the size of the
    last part, where the bytes written are 262144000. *)
Theorem record_holds_size_of_last_part (b : byte) :
  let path := URL_Path blob_request in
  let full := mkRead (repeat b (Z.to_nat bufSize)) ErrNil true in
  let body := (repeat full 4000 ++ [mkRead [] ErrEOF true])%list in
  let run :=
    stream blob_request (getCacheFilePath path) 200 262144000 "262144000" body
      (mkRun main_urls ∅ None [] 0 1 1 None) in
  fst run = Streamed AtEOF
  /\ file_size (fs (snd run)) (getCacheFilePathWithPart path 0) = Some 104857600
  /\ file_size (fs (snd run)) (getCacheFilePathWithPart path 1) = Some 104857600
  /\ file_size (fs (snd run)) (getCacheFilePathWithPart path 2) = Some 52428800
  /\ file_size (fs (snd run)) (getCacheFilePathWithPart path 3) = None
  /\ fs (snd run) !! getRecordFilePath path
     = Some (list_byte_of_string (Sprintf_record 3 52428800))
  /\ Fscanf_record (Sprintf_record 3 52428800) = (3, 52428800)
  /\ 104857600 + 104857600 + 52428800 = 262144000.
Proof.
  intros path full body run.
  assert (Hcache : shouldCache path = true) by (vm_compute; reflexivity).
  set (data := repeat b (Z.to_nat bufSize)) in *.
  assert (Hlen : Z.of_nat (length data) = 65536).
  { unfold data. rewrite repeat_length, Z2Nat.id by (vm_compute; congruence). reflexivity. }
  clearbody data.
  assert (Hpos : 0 < 65536) by lia.
  assert (Hsmall : 65536 <= chunkSize) by (vm_compute; congruence).
  assert (Hbody : body = (repeat full 1600 ++ repeat full 1600
                            ++ repeat full 800 ++ [mkRead [] ErrEOF true])%list).
  { unfold body. change 4000%nat with (1600 + (1600 + 800))%nat.
    rewrite !repeat_split, <- !app_assoc. reflexivity. }
  pose (st0 := mkCopy (∅ : FS) [] [] None (getCacheFilePath path) 0 0).
  destruct (part_written path Hcache data 65536 Hlen Hpos Hsmall 1599
              (repeat full 1600 ++ repeat full 800 ++ [mkRead [] ErrEOF true]) st0)
    as (st1 & E1 & F1 & P1 & N1 & T1 & O1 & S1);
    [left; split; reflexivity | vm_compute; split; congruence | vm_compute; congruence | ].
  destruct (part_written path Hcache data 65536 Hlen Hpos Hsmall 1599
              (repeat full 800 ++ [mkRead [] ErrEOF true]) st1)
    as (st2 & E2 & F2 & P2 & N2 & T2 & O2 & S2);
    [right; rewrite F1, T1; split; [discriminate | vm_compute; repeat split; congruence]
    | rewrite N1; vm_compute; split; congruence | vm_compute; congruence | ].
  destruct (part_written path Hcache data 65536 Hlen Hpos Hsmall 799
              [mkRead [] ErrEOF true] st2)
    as (st3 & E3 & F3 & P3 & N3 & T3 & O3 & S3);
    [right; rewrite F2, T2; split; [discriminate | vm_compute; repeat split; congruence]
    | rewrite N2, N1; vm_compute; split; congruence | vm_compute; congruence | ].
  change (part st0) with 0 in *.
  rewrite N1 in *. rewrite N2 in *. change (0 + 1) with 1 in *. change (1 + 1) with 2 in *.
  change (2 + 1) with 3 in N3.
  change (Z.of_nat 1600 * 65536) with 104857600 in *.
  change (Z.of_nat 800 * 65536) with 52428800 in *.
  assert (Hrun : run = (Streamed AtEOF,
                        mkRun main_urls (fs_of (write_record path true st3)) (Some 200)
                          (w_of (write_record path true st3)) 0 1 1
                          (Some (cacheFilePath (write_record path true st3),
                                 "262144000")))).
  { unfold run, stream.
    change (100 * 1024 * 1024 <? 262144000) with true.
    change (URL_Path blob_request) with path.
    fold body. rewrite Hbody.
    change (mkCopy _ _ _ _ _ _ _) with st0.
    fold full in E1, E2, E3.
    rewrite E1, E2, E3.
    change (copy_body path true [mkRead [] ErrEOF true] st3) with (AtEOF, st3).
    cbv beta iota. rewrite Hcache. reflexivity. }
  rewrite Hrun. cbn [fst snd fs].
  assert (Hfs : fs_of (write_record path true st3)
                = <[getRecordFilePath path :=
                      list_byte_of_string (Sprintf_record 3 52428800)]> (fs_of st3)).
  { unfold write_record. rewrite Hcache, N3, T3. reflexivity. }
  rewrite Hfs.
  unfold file_size in *.
  split; [reflexivity | ].
  split.
  { rewrite lookup_insert_ne by (vm_compute; congruence).
    rewrite O3 by (vm_compute; congruence).
    rewrite O2 by (vm_compute; congruence). exact S1. }
  split.
  { rewrite lookup_insert_ne by (vm_compute; congruence).
    rewrite O3 by (vm_compute; congruence). exact S2. }
  split.
  { rewrite lookup_insert_ne by (vm_compute; congruence). exact S3. }
  split.
  { rewrite lookup_insert_ne by (vm_compute; congruence).
    rewrite O3 by (vm_compute; congruence).
    rewrite O2 by (vm_compute; congruence).
    rewrite O1 by (vm_compute; congruence). reflexivity. }
  split; [apply lookup_insert_eq | ].
  split; [vm_compute; reflexivity | reflexivity].
Qed.

End SplitScenario.

(** * Further properties *)

(** ** The order of binary64 *)

Section FloatOrder.

Lemma SFltb_irrefl (x : spec_float) : SFltb x x = false.
Proof.
  destruct x as [s | s | | s m e]; try (destruct s); try reflexivity;
    unfold SFltb, SFcompare; rewrite Z.compare_refl, Pos.compare_cont_refl; reflexivity.
Qed.

Lemma SFltb_trans (x y z : spec_float) :
  SFltb x y = true -> SFltb y z = true -> SFltb x z = true.
Proof.
  unfold SFltb.
  destruct x as [sx | sx | | sx mx ex]; destruct y as [sy | sy | | sy my ey];
    destruct z as [sz | sz | | sz mz ez];
    try (destruct sx); try (destruct sy); try (destruct sz);
    cbn; try congruence.
  all: destruct (Z.compare_spec ex ey); destruct (Z.compare_spec ey ez);
    destruct (Z.compare_spec ex ez); try lia; try congruence; subst.
  all: rewrite ?Pos.compare_cont_spec; cbn;
    destruct (Pos.compare_spec mx my); destruct (Pos.compare_spec my mz);
    destruct (Pos.compare_spec mx mz); cbn; try lia; try congruence.
Qed.

Lemma ltb_irrefl (x : float) : PrimFloat.ltb x x = false.
Proof. rewrite FloatAxioms.ltb_spec. apply SFltb_irrefl. Qed.

Lemma ltb_trans (x y z : float) :
  PrimFloat.ltb x y = true -> PrimFloat.ltb y z = true -> PrimFloat.ltb x z = true.
Proof. rewrite !FloatAxioms.ltb_spec. apply SFltb_trans. Qed.

End FloatOrder.

(** ** What the scan selects *)

Section Selection.
Import Num Selector Ratio.

(** A visit lowers [minLoadRatio] or leaves it: what is below it after
    the visit was below it before. *)
Lemma visit_lowers us startIndex acc i (r : float) :
  PrimFloat.ltb r (snd (visit us startIndex acc i)) = true ->
  PrimFloat.ltb r (snd acc) = true.
Proof.
  unfold visit, scan_step.
  destruct (us !! _) as [u | ]; [ | auto].
  destruct (Dead u); [auto | ].
  destruct (PrimFloat.ltb _ (snd acc)) eqn:Hlt; [ | auto].
  cbn. intros H. eapply ltb_trans; [exact H | exact Hlt].
Qed.

Lemma fold_lowers us startIndex (l : list nat) (r : float) :
  forall acc,
  PrimFloat.ltb r (snd (fold_left (visit us startIndex) l acc)) = true ->
  PrimFloat.ltb r (snd acc) = true.
Proof.
  induction l as [ | i l IH]; intros acc H; [exact H | ].
  cbn in H. eapply visit_lowers, IH, H.
Qed.

(** After the visit of a live mirror its ratio is not below [minLoadRatio]. *)
Lemma visit_bounds us startIndex acc i (v : URLInfo) :
  us !! ((startIndex + i) mod length us)%nat = Some v -> Dead v = false ->
  PrimFloat.ltb (loadRatio v) (snd (visit us startIndex acc i)) = false.
Proof.
  intros Hv Hd. unfold visit. rewrite Hv. unfold scan_step. rewrite Hd.
  fold (loadRatio v).
  destruct (PrimFloat.ltb (loadRatio v) (snd acc)) eqn:Hlt; cbn;
    [apply ltb_irrefl | exact Hlt].
Qed.

Lemma fold_bounds us startIndex (l : list nat) (i : nat) (v : URLInfo) :
  In i l ->
  us !! ((startIndex + i) mod length us)%nat = Some v -> Dead v = false ->
  forall acc,
  PrimFloat.ltb (loadRatio v) (snd (fold_left (visit us startIndex) l acc)) = false.
Proof.
  intros Hin Hv Hd. induction l as [ | j l IH]; intros acc; [destruct Hin | ].
  cbn [fold_left]. destruct Hin as [-> | Hin]; [ | apply IH, Hin].
  destruct (PrimFloat.ltb (loadRatio v)
              (snd (fold_left (visit us startIndex) l (visit us startIndex acc i))))
    eqn:Hlt; [ | reflexivity].
  apply fold_lowers in Hlt. rewrite (visit_bounds us startIndex acc i v Hv Hd) in Hlt.
  discriminate.
Qed.

Lemma fold_carries_min us startIndex (l : list nat) :
  forall acc, carries_min us acc ->
  carries_min us (fold_left (visit us startIndex) l acc).
Proof.
  induction l as [ | i l IH]; intros acc H; [exact H | ].
  cbn. apply IH. unfold visit, scan_step.
  destruct (us !! _) as [u | ] eqn:Hu; [ | exact H].
  destruct (Dead u) eqn:Hd; [exact H | ].
  destruct (PrimFloat.ltb _ _); [ | exact H].
  intros idx Hidx. cbn in Hidx. injection Hidx as <-. exists u. auto.
Qed.

(** The scan selects a live mirror whose load ratio no live mirror is
    below. *)
Lemma scan_least_loaded (us : list URLInfo) (startIndex idx : nat) :
  fst (scan us startIndex) = Some idx ->
  exists u, us !! idx = Some u /\ Dead u = false /\ least_loaded us u.
Proof.
  intros Hsel.
  assert (Hc : carries_min us (scan us startIndex)).
  { rewrite scan_unfold. apply fold_carries_min. intros i Hi. discriminate. }
  destruct (Hc idx Hsel) as (u & Hu & Hd & Hmin).
  exists u. split; [exact Hu | split; [exact Hd | ]].
  intros v Hv Hdv. rewrite <- Hmin.
  apply list_elem_of_lookup in Hv as (j & Hj).
  assert (Hlt : (j < length us)%nat) by (eapply lookup_lt_Some; exact Hj).
  destruct (scan_reaches (length us) startIndex j Hlt) as (i & Hi & Hij).
  rewrite scan_unfold. apply (fold_bounds us startIndex _ i v Hi); [ | exact Hdv].
  rewrite Hij. exact Hj.
Qed.

(** A round of [Get] that finds a live mirror to select returns it. *)
Lemma Get_loop_selects (um : URLManager) (rnd : nat -> nat) (fuel passes : nat) :
  Exists (fun u => Dead u = false /\ selectable u = true) (urls um) ->
  exists idx u,
    urls um !! idx = Some u
    /\ Dead u = false
    /\ least_loaded (urls um) u
    /\ Get_loop (S fuel) rnd passes um
       = mkGetResult (Some (URL u)) passes
           (mkURLManager (<[idx := incr_Load u]> (urls um))).
Proof.
  intros Hex.
  destruct (scan_selects (urls um) (rnd O mod length (urls um)) Hex)
    as (idx & u0 & Hsel & _ & _).
  destruct (scan_least_loaded _ _ _ Hsel) as (u & Hu & Hd & Hmin).
  exists idx, u. split; [exact Hu | split; [exact Hd | split; [exact Hmin | ]]].
  cbn [Get_loop].
  assert (Hn : (length (urls um) =? 0)%nat = false).
  { apply Nat.eqb_neq. apply lookup_lt_Some in Hu. lia. }
  rewrite Hn, Hsel, Hu. reflexivity.
Qed.

(** X1. With a live mirror that can be selected, [Get] returns in its
    first round, without a resurrection pass: the mirror it names was
    alive, no live mirror has a smaller load ratio, that mirror's load is
    raised by one and nothing else in the selector changes. *)
Theorem Get_takes_least_loaded_live_mirror (um : URLManager) (rnd : nat -> nat)
    (fuel : nat) :
  Exists (fun u => Dead u = false /\ selectable u = true) (urls um) ->
  exists idx u,
    urls um !! idx = Some u
    /\ Dead u = false
    /\ least_loaded (urls um) u
    /\ Get (S fuel) rnd um
       = mkGetResult (Some (URL u)) O
           (mkURLManager (<[idx := incr_Load u]> (urls um))).
Proof. intros Hex. apply (Get_loop_selects um rnd fuel O Hex). Qed.

Lemma Get_takes_least_loaded_live_mirror_witness :
  let um := calls [CallGet 1 (fun _ => O); CallMarkDead "https://b.io"]
              (registered ["https://a.io"; "https://b.io"; "https://c.io"]) in
  Exists (fun u => Dead u = false /\ selectable u = true) (urls um)
  /\ exists idx u,
       urls um !! idx = Some u /\ Dead u = false /\ least_loaded (urls um) u
       /\ Get 1 (fun _ => O) um
          = mkGetResult (Some (URL u)) O
              (mkURLManager (<[idx := incr_Load u]> (urls um))).
Proof.
  cbv zeta.
  assert (Hex : Exists (fun u => Dead u = false /\ selectable u = true)
                  (urls (calls [CallGet 1 (fun _ => O); CallMarkDead "https://b.io"]
                           (registered ["https://a.io"; "https://b.io"; "https://c.io"]))))
    by (apply Exists_cons_hd; split; vm_compute; reflexivity).
  split; [exact Hex | ].
  exact (Get_takes_least_loaded_live_mirror _ (fun _ => O) O Hex).
Defined.

(** A scan over dead mirrors selects nothing. *)
Lemma scan_all_dead (us : list URLInfo) (startIndex : nat) :
  Forall (fun u => Dead u = true) us -> fst (scan us startIndex) = None.
Proof.
  intros Hdead. rewrite scan_unfold.
  assert (H : forall l acc, fold_left (visit us startIndex) l acc = acc).
  { induction l as [ | i l IH]; intros acc; [reflexivity | ].
    cbn [fold_left].
    assert (Hv : visit us startIndex acc i = acc).
    { unfold visit, scan_step. destruct (us !! _) as [u | ] eqn:Hu; [ | reflexivity].
      rewrite (proj1 (Forall_lookup _ _) Hdead _ _ Hu). reflexivity. }
    rewrite Hv. apply IH. }
  rewrite H. reflexivity.
Qed.

(** X2. When every mirror is dead and some mirror can be selected, [Get]
    makes exactly one resurrection pass: all mirrors are alive again, and
    the one returned is least loaded among all of them, with its load
    raised by one. *)
Theorem Get_resurrects_all_once (um : URLManager) (rnd : nat -> nat) (fuel : nat) :
  urls um <> [] ->
  Forall (fun u => Dead u = true) (urls um) ->
  Exists (fun u => selectable u = true) (urls um) ->
  exists idx u,
    urls (resume um) !! idx = Some u
    /\ least_loaded (urls (resume um)) u
    /\ Get (S (S fuel)) rnd um
       = mkGetResult (Some (URL u)) 1
           (mkURLManager (<[idx := incr_Load u]> (urls (resume um))))
    /\ Forall (fun v => Dead v = false) (urls (after (Get (S (S fuel)) rnd um))).
Proof.
  intros Hne Hdead Hex.
  assert (Hex' : Exists (fun u => Dead u = false /\ selectable u = true)
                   (urls (resume um))).
  { unfold resume. cbn. apply Exists_exists in Hex as (u & Hin & Hs).
    apply Exists_exists. exists (set_Dead false u). split.
    - apply list_elem_of_fmap. exists u. split; [reflexivity | exact Hin].
    - split; [reflexivity | exact Hs]. }
  destruct (Get_loop_selects (resume um) (fun k => rnd (S k)) fuel 1 Hex')
    as (idx & u & Hu & Hd & Hmin & Hget).
  exists idx, u. split; [exact Hu | split; [exact Hmin | ]].
  assert (Hrun : Get (S (S fuel)) rnd um
                 = mkGetResult (Some (URL u)) 1
                     (mkURLManager (<[idx := incr_Load u]> (urls (resume um))))).
  { unfold Get. rewrite <- Hget.
    change (Get_loop (S (S fuel)) rnd O um)
      with (if (length (urls um) =? 0)%nat then mkGetResult (Some "") O um
            else match fst (scan (urls um) (rnd O mod length (urls um))) with
                 | Some idx =>
                     match urls um !! idx with
                     | Some u =>
                         mkGetResult (Some (URL u)) O
                           (mkURLManager (<[idx := incr_Load u]> (urls um)))
                     | None => mkGetResult None O um
                     end
                 | None => Get_loop (S fuel) (fun k => rnd (S k)) 1 (resume um)
                 end).
    rewrite (scan_all_dead _ _ Hdead).
    destruct (urls um); [congruence | reflexivity]. }
  split; [exact Hrun | ].
  rewrite Hrun. cbn [after urls].
  apply Forall_insert; [apply resume_alive | exact Hd].
Qed.

Lemma Get_resurrects_all_once_witness :
  let um := calls [CallMarkDead "https://a.io"; CallMarkDead "https://b.io"]
              (registered ["https://a.io"; "https://b.io"]) in
  (urls um <> []
   /\ Forall (fun u => Dead u = true) (urls um)
   /\ Exists (fun u => selectable u = true) (urls um))
  /\ exists idx u,
       urls (resume um) !! idx = Some u
       /\ least_loaded (urls (resume um)) u
       /\ Get 2 (fun _ => O) um
          = mkGetResult (Some (URL u)) 1
              (mkURLManager (<[idx := incr_Load u]> (urls (resume um))))
       /\ Forall (fun v => Dead v = false) (urls (after (Get 2 (fun _ => O) um))).
Proof.
  cbv zeta.
  assert (H1 : urls (calls [CallMarkDead "https://a.io"; CallMarkDead "https://b.io"]
                       (registered ["https://a.io"; "https://b.io"])) <> [])
    by discriminate.
  assert (H2 : Forall (fun u => Dead u = true)
                 (urls (calls [CallMarkDead "https://a.io"; CallMarkDead "https://b.io"]
                          (registered ["https://a.io"; "https://b.io"]))))
    by (repeat constructor).
  assert (H3 : Exists (fun u => selectable u = true)
                 (urls (calls [CallMarkDead "https://a.io"; CallMarkDead "https://b.io"]
                          (registered ["https://a.io"; "https://b.io"]))))
    by (apply Exists_cons_hd; vm_compute; reflexivity).
  split; [split; [exact H1 | split; [exact H2 | exact H3]] | ].
  exact (Get_resurrects_all_once _ (fun _ => O) O H1 H2 H3).
Defined.

End Selection.

(** ** How the calls of the selector compose *)

Section SelectorCalls.
Import Num Selector Ratio.

(** X3. A name that no mirror carries: [Done] and [MarkDead] leave the
    selector exactly as it is. *)
Theorem unknown_name_changes_nothing (um : URLManager) (url : string)
    (responseTime : float) (contentLength : Z) :
  Forall (fun u => URL u <> url) (urls um) ->
  Done um url responseTime contentLength = um /\ MarkDead um url = um.
Proof.
  intros H. unfold Done, MarkDead. rewrite !update_first_no_match by exact H.
  destruct um; split; reflexivity.
Qed.

Lemma unknown_name_changes_nothing_witness :
  Forall (fun u => URL u <> "https://a.io/v2/")
    (urls (registered ["https://a.io"; "https://b.io"]))
  /\ Done (registered ["https://a.io"; "https://b.io"]) "https://a.io/v2/" 1%float 10
     = registered ["https://a.io"; "https://b.io"]
  /\ MarkDead (registered ["https://a.io"; "https://b.io"]) "https://a.io/v2/"
     = registered ["https://a.io"; "https://b.io"].
Proof.
  assert (H : Forall (fun u => URL u <> "https://a.io/v2/")
                (urls (registered ["https://a.io"; "https://b.io"])))
    by (repeat constructor; discriminate).
  split; [exact H | ].
  exact (unknown_name_changes_nothing _ "https://a.io/v2/" 1%float 10 H).
Defined.

Lemma update_first_names (url : string) (f : URLInfo -> URLInfo) (us : list URLInfo) :
  (forall u, URL (f u) = URL u) ->
  map URL (update_first url f us) = map URL us.
Proof.
  intros Hf. induction us as [ | u us IH]; cbn; [reflexivity | ].
  destruct (String.eqb (URL u) url); cbn; [rewrite Hf | rewrite IH]; reflexivity.
Qed.

Lemma insert_names (us : list URLInfo) (idx : nat) (u u' : URLInfo) :
  us !! idx = Some u -> URL u' = URL u ->
  map URL (<[idx := u']> us) = map URL us.
Proof.
  intros Hu Hn. change (map URL) with (fmap (M := list) URL).
  rewrite list_fmap_insert, Hn. apply list_insert_id.
  rewrite list_lookup_fmap, Hu. reflexivity.
Qed.

Lemma resume_names (um : URLManager) : map URL (urls (resume um)) = map URL (urls um).
Proof.
  unfold resume. cbn. rewrite map_map. apply map_ext. intros u. reflexivity.
Qed.

Lemma call_names (um : URLManager) (c : Call) :
  map URL (urls (call um c)) = map URL (urls um).
Proof.
  destruct c as [fuel rnd | url rt cl | url]; cbn.
  - unfold Get.
    apply (Get_loop_keeps (fun um' => map URL (urls um') = map URL (urls um))
             (fun um' => map URL (urls um') = map URL (urls um))); auto.
    + intros um' H. rewrite resume_names. exact H.
    + intros um' idx u H Hu. cbn. rewrite (insert_names _ idx u); auto.
  - apply update_first_names. intros u. reflexivity.
  - apply update_first_names. intros u. reflexivity.
Qed.

(** X4. The mirrors are fixed by registration: no sequence of [Get],
    [Done] and [MarkDead] calls adds, drops, renames or reorders one. *)
Theorem calls_keep_the_mirror_list (names : list string) (cs : list Call) :
  map URL (urls (calls cs (registered names))) = names.
Proof.
  assert (H : forall um, map URL (urls (calls cs um)) = map URL (urls um)).
  { induction cs as [ | c cs IH]; intros um; [reflexivity | ].
    change (calls (c :: cs) um) with (calls cs (call um c)).
    rewrite IH. apply call_names. }
  rewrite H, registered_urls, map_map. cbn. apply map_id.
Qed.

(** With distinct names, the mirror at [i] is the first of its name. *)
Lemma NoDup_names_first (us : list URLInfo) (i : nat) (u : URLInfo) :
  NoDup (map URL us) -> us !! i = Some u ->
  forall j v, (j < i)%nat -> us !! j = Some v -> URL v <> URL u.
Proof.
  intros Hnd Hi j v Hj Hv Heq.
  assert (Hi' : map URL us !! i = Some (URL u)).
  { change (map URL) with (fmap (M := list) URL). rewrite list_lookup_fmap, Hi. reflexivity. }
  assert (Hj' : map URL us !! j = Some (URL u)).
  { change (map URL) with (fmap (M := list) URL).
    rewrite list_lookup_fmap, Hv. cbn. rewrite Heq. reflexivity. }
  pose proof (NoDup_lookup _ _ _ _ Hnd Hi' Hj'). lia.
Qed.

(** With distinct names, the only mirror [MarkDead] can name is dead
    afterwards. *)
Lemma MarkDead_named_is_dead (us : list URLInfo) (url : string) :
  NoDup (map URL us) ->
  Forall (fun u => URL u = url -> Dead u = true)
    (update_first url (fun u => set_Load 0 (set_Dead true u)) us).
Proof.
  induction us as [ | u us IH]; intros Hnd; cbn; [constructor | ].
  apply NoDup_cons in Hnd as [Hnotin Hnd].
  destruct (String.eqb_spec (URL u) url) as [Hu | Hu].
  - constructor; [intros _; reflexivity | ].
    apply Forall_forall. intros v Hv Hvu. exfalso. apply Hnotin.
    rewrite Hu, <- Hvu. apply list_elem_of_fmap. exists v. split; [reflexivity | exact Hv].
  - constructor; [intros H; contradiction | apply IH, Hnd].
Qed.

Lemma update_first_other (url : string) (f : URLInfo -> URLInfo) (us : list URLInfo)
    (v : URLInfo) :
  v ∈ us -> URL v <> url -> v ∈ update_first url f us.
Proof.
  induction us as [ | u us IH]; intros Hin Hv; [inversion Hin | ].
  cbn. apply elem_of_cons in Hin as [-> | Hin].
  - destruct (String.eqb_spec (URL u) url); [contradiction | apply list_elem_of_here].
  - destruct (String.eqb (URL u) url); apply list_elem_of_further; [exact Hin | auto].
Qed.

(** X5. A mirror marked dead is passed over: with distinct names and
    another mirror that is alive and can be selected, the [Get] that
    follows [MarkDead(url)] returns at once, without a resurrection pass,
    a name other than [url]. *)
Theorem marked_mirror_is_passed_over (um : URLManager) (url : string)
    (rnd : nat -> nat) (fuel : nat) :
  NoDup (map URL (urls um)) ->
  Exists (fun u => URL u <> url /\ Dead u = false /\ selectable u = true) (urls um) ->
  exists t,
    got (Get (S fuel) rnd (MarkDead um url)) = Some t
    /\ t <> url
    /\ resumes (Get (S fuel) rnd (MarkDead um url)) = O.
Proof.
  intros Hnd Hex.
  assert (Hex' : Exists (fun u => Dead u = false /\ selectable u = true)
                   (urls (MarkDead um url))).
  { apply Exists_exists in Hex as (v & Hin & Hv & Hd & Hs).
    apply Exists_exists. exists v. split; [ | auto].
    unfold MarkDead. cbn. apply update_first_other; assumption. }
  destruct (Get_loop_selects (MarkDead um url) rnd fuel O Hex')
    as (idx & u & Hu & Hd & _ & Hget).
  unfold Get. rewrite Hget. cbn. exists (URL u).
  split; [reflexivity | split; [ | reflexivity]].
  intros Hurl.
  pose proof (MarkDead_named_is_dead (urls um) url Hnd) as Hdead.
  unfold MarkDead in Hu. cbn in Hu.
  pose proof (proj1 (Forall_lookup _ _) Hdead _ _ Hu Hurl). congruence.
Qed.

Lemma marked_mirror_is_passed_over_witness :
  let um := registered ["https://a.io"; "https://b.io"; "https://c.io"] in
  (NoDup (map URL (urls um))
   /\ Exists (fun u => URL u <> "https://a.io" /\ Dead u = false /\ selectable u = true)
        (urls um))
  /\ exists t,
       got (Get 1 (fun _ => O) (MarkDead um "https://a.io")) = Some t
       /\ t <> "https://a.io"
       /\ resumes (Get 1 (fun _ => O) (MarkDead um "https://a.io")) = O.
Proof.
  cbv zeta.
  assert (H1 : NoDup (map URL (urls (registered
                 ["https://a.io"; "https://b.io"; "https://c.io"])))).
  { apply NoDup_ListNoDup. cbn. repeat constructor; cbn; intuition discriminate. }
  assert (H2 : Exists (fun u => URL u <> "https://a.io" /\ Dead u = false
                                /\ selectable u = true)
                 (urls (registered ["https://a.io"; "https://b.io"; "https://c.io"]))).
  { apply Exists_cons_tl, Exists_cons_hd. split; [discriminate | ].
    split; vm_compute; reflexivity. }
  split; [split; [exact H1 | exact H2] | ].
  exact (marked_mirror_is_passed_over _ "https://a.io" (fun _ => O) O H1 H2).
Defined.

Lemma resume_loads (um : URLManager) : map Load (urls (resume um)) = map Load (urls um).
Proof.
  unfold resume. cbn. rewrite map_map. apply map_ext. intros u. reflexivity.
Qed.

(** What a returning [Get] has done: passes that change no load and no
    name, and one load raised. *)
Lemma Get_loop_shape (fuel : nat) :
  forall (rnd : nat -> nat) (passes : nat) (um : URLManager) (t : string),
  got (Get_loop fuel rnd passes um) = Some t ->
  (urls um = [] /\ after (Get_loop fuel rnd passes um) = um)
  \/ exists idx u um',
       map Load (urls um') = map Load (urls um)
       /\ map URL (urls um') = map URL (urls um)
       /\ urls um' !! idx = Some u /\ URL u = t
       /\ after (Get_loop fuel rnd passes um)
          = mkURLManager (<[idx := incr_Load u]> (urls um')).
Proof.
  induction fuel as [ | fuel IH]; intros rnd passes um t; cbn [Get_loop]; [discriminate | ].
  destruct (length (urls um) =? 0)%nat eqn:Hn.
  - intros _. left. split; [ | reflexivity].
    destruct (urls um); [reflexivity | discriminate].
  - destruct (fst (scan (urls um) (rnd O mod length (urls um)))) as [idx | ].
    + destruct (urls um !! idx) as [u | ] eqn:Hu; cbn; [ | discriminate].
      intros H. injection H as <-. right. exists idx, u, um. auto.
    + intros H. apply IH in H as [[Hnil _] | (idx & u & um' & HL & HN & Hu & Ht & Ha)].
      * unfold resume in Hnil. cbn in Hnil. apply map_eq_nil in Hnil.
        rewrite Hnil in Hn. discriminate.
      * right. exists idx, u, um'.
        rewrite HL, HN, resume_loads, resume_names. auto.
Qed.

(** X6. Release undoes acquire: with distinct names and loads within
    range, after [Get] has returned a name and [Done] is called with that
    name, every mirror has the load it had before the [Get]. *)
Theorem release_undoes_acquire (um : URLManager) (rnd : nat -> nat) (fuel : nat)
    (t : string) (responseTime : float) (contentLength : Z) :
  NoDup (map URL (urls um)) ->
  Forall (fun u => 0 <= Load u < MaxInt64) (urls um) ->
  got (Get fuel rnd um) = Some t ->
  map Load (urls (Done (after (Get fuel rnd um)) t responseTime contentLength))
  = map Load (urls um).
Proof.
  intros Hnd Hrange Hgot. unfold Get in *.
  destruct (Get_loop_shape fuel rnd O um t Hgot)
    as [[Hnil Ha] | (idx & u & um' & HL & HN & Hu & Ht & Ha)].
  - rewrite Ha. unfold Done. rewrite Hnil. reflexivity.
  - rewrite Ha. unfold Done. cbn [urls].
    assert (Hlen : (idx < length (urls um'))%nat) by (eapply lookup_lt_Some; exact Hu).
    assert (Hat : <[idx := incr_Load u]> (urls um') !! idx = Some (incr_Load u))
      by (apply list_lookup_insert_eq; exact Hlen).
    assert (Hnd' : NoDup (map URL (<[idx := incr_Load u]> (urls um')))).
    { rewrite (insert_names _ idx u) by auto. rewrite HN. exact Hnd. }
    rewrite (update_first_at t _ _ idx (incr_Load u) Hat Ht).
    2: { intros j v Hj Hv. rewrite <- Ht.
         apply (NoDup_names_first _ idx (incr_Load u) Hnd' Hat j v Hj Hv). }
    rewrite list_insert_insert_eq.
    assert (Hload : 0 <= Load u < MaxInt64).
    { assert (HF : Forall (fun z => 0 <= z < MaxInt64) (map Load (urls um'))).
      { rewrite HL. apply Forall_map. exact Hrange. }
      apply Forall_map in HF. exact (proj1 (Forall_lookup _ _) HF _ _ Hu). }
    rewrite <- HL.
    change (map Load) with (fmap (M := list) Load).
    rewrite list_fmap_insert. apply list_insert_id.
    rewrite list_lookup_fmap, Hu. cbn. f_equal.
    rewrite wrap64_id by (unfold in_int64, MinInt64, MaxInt64 in *; lia).
    destruct (Z.ltb_spec 0 (Load u + 1)); lia.
Qed.

Lemma release_undoes_acquire_witness :
  let um := registered ["https://a.io"; "https://b.io"] in
  (NoDup (map URL (urls um))
   /\ Forall (fun u => 0 <= Load u < MaxInt64) (urls um)
   /\ got (Get 1 (fun _ => 1%nat) um) = Some "https://b.io")
  /\ map Load (urls (Done (after (Get 1 (fun _ => 1%nat) um)) "https://b.io"
                       2%float 3000000))
     = map Load (urls um).
Proof.
  cbv zeta.
  assert (H1 : NoDup (map URL (urls (registered ["https://a.io"; "https://b.io"])))).
  { apply NoDup_ListNoDup. cbn. repeat constructor; cbn; intuition discriminate. }
  assert (H2 : Forall (fun u => 0 <= Load u < MaxInt64)
                 (urls (registered ["https://a.io"; "https://b.io"]))).
  { rewrite registered_urls. cbn.
    repeat (apply Forall_cons_2; [cbn; unfold MaxInt64; lia | ]). apply Forall_nil_2. }
  assert (H3 : got (Get 1 (fun _ => 1%nat) (registered ["https://a.io"; "https://b.io"]))
               = Some "https://b.io")
    by (vm_compute; reflexivity).
  split; [split; [exact H1 | split; [exact H2 | exact H3]] | ].
  exact (release_undoes_acquire _ (fun _ => 1%nat) 1 "https://b.io" 2%float 3000000
           H1 H2 H3).
Defined.

End SelectorCalls.

(** ** The key of a request and the names of its files *)

Section KeyFacts.
Import Paths.

Lemma take_hex_app (h rest : string) :
  all_hex h -> take_hex rest = "" -> take_hex (h ++ rest) = h.
Proof.
  unfold all_hex. induction h as [ | c h IH]; intros Hh Hrest; [exact Hrest | ].
  rewrite append_cons. cbn in *.
  destruct (is_hex c); [ | discriminate].
  injection Hh as Hh. rewrite IH; auto.
Qed.

(** The marker does not start inside a prefix that has no colon. *)
Lemma no_marker_in_prefix (c : ascii) (p x : string) :
  has_char ":" (String c p) = false ->
  strip_prefix "sha256:" (String c p ++ "sha256:" ++ x) = None.
Proof.
  intros Hc.
  destruct (strip_prefix "sha256:" (String c p ++ "sha256:" ++ x)) as [r | ] eqn:H;
    [ | reflexivity].
  exfalso. apply strip_prefix_app in H.
  change ("sha256:" ++ r)
    with (String "s" (String "h" (String "a" (String "2" (String "5"
            (String "6" (String ":" r))))))) in H.
  change ("sha256:" ++ x)
    with (String "s" (String "h" (String "a" (String "2" (String "5"
            (String "6" (String ":" x))))))) in H.
  rewrite append_cons in H. injection H as -> H.
  do 5 (destruct p as [ | ? p];
        [discriminate H | rewrite append_cons in H; injection H as -> H]).
  destruct p as [ | ? p]; [discriminate H | ].
  rewrite append_cons in H. injection H as -> H.
  cbn in Hc. discriminate Hc.
Qed.

Lemma find_sha256_skips_prefix (prefix x : string) :
  has_char ":" prefix = false ->
  find_sha256 (prefix ++ "sha256:" ++ x) = find_sha256 ("sha256:" ++ x).
Proof.
  induction prefix as [ | c p IH]; intros Hc; [reflexivity | ].
  assert (Hp : has_char ":" p = false).
  { cbn in Hc. apply orb_false_iff in Hc as [_ Hc]. exact Hc. }
  rewrite <- (IH Hp).
  pose proof (no_marker_in_prefix c p x Hc) as Hnone.
  rewrite append_cons in *. cbn [find_sha256]. rewrite Hnone. reflexivity.
Qed.

(** X7. The key of a blob request is its digest: for a path made of a
    prefix without colon, the marker [sha256:], a non-empty run of
    hexadecimal digits and a rest that does not go on with one,
    [extractHashFromURL] returns exactly that run, whatever the prefix and
    the rest are. *)
Theorem key_is_the_digest (prefix h rest : string) :
  has_char ":" prefix = false ->
  h <> "" -> all_hex h -> take_hex rest = "" ->
  extractHashFromURL (prefix ++ "sha256:" ++ h ++ rest) = h.
Proof.
  intros Hc Hne Hh Hrest. unfold extractHashFromURL.
  rewrite find_sha256_skips_prefix by exact Hc.
  assert (H : find_sha256 ("sha256:" ++ h ++ rest) = Some h).
  { change ("sha256:" ++ h ++ rest)
      with (String "s" (String "h" (String "a" (String "2" (String "5"
              (String "6" (String ":" (h ++ rest)))))))).
    cbn [find_sha256 strip_prefix Ascii.eqb Bool.eqb].
    rewrite take_hex_app by assumption.
    destruct h; [congruence | reflexivity]. }
  rewrite H. reflexivity.
Qed.

Lemma key_is_the_digest_witness :
  (has_char ":" "/v2/library/nginx/blobs/" = false
   /\ "0a1B" <> ""
   /\ all_hex "0a1B"
   /\ take_hex "/upload" = "")
  /\ extractHashFromURL ("/v2/library/nginx/blobs/" ++ "sha256:" ++ "0a1B" ++ "/upload")
     = "0a1B".
Proof.
  assert (H1 : has_char ":" "/v2/library/nginx/blobs/" = false) by reflexivity.
  assert (H2 : "0a1B" <> "") by discriminate.
  assert (H3 : all_hex "0a1B") by reflexivity.
  assert (H4 : take_hex "/upload" = "") by reflexivity.
  split; [split; [exact H1 | split; [exact H2 | split; [exact H3 | exact H4]]] | ].
  exact (key_is_the_digest _ _ _ H1 H2 H3 H4).
Defined.

End KeyFacts.

Section FileNames.
Import Paths.

Lemma fmt_d_inj (p q : Z) : fmt_d p = fmt_d q -> p = q.
Proof.
  unfold fmt_d. intros H.
  assert (Hnil : forall z, Z.to_int z <> Decimal.Pos Decimal.Nil
                           /\ Z.to_int z <> Decimal.Neg Decimal.Nil).
  { intros [ | x | x]; cbn; split; try discriminate;
      intros E; injection E as E; exact (DecimalPos.Unsigned.to_uint_nonnil _ E). }
  apply (f_equal NilZero.int_of_string) in H.
  rewrite !NilZero.isi in H by apply Hnil.
  injection H as H. apply (f_equal Z.of_int) in H.
  rewrite !DecimalZ.of_to in H. exact H.
Qed.

Lemma append_length (a b : string) :
  String.length (a ++ b) = (String.length a + String.length b)%nat.
Proof.
  induction a as [ | c a IH]; [reflexivity | ].
  rewrite append_cons. cbn. rewrite IH. reflexivity.
Qed.

Lemma append_inj_r (a b c : string) : a ++ c = b ++ c -> a = b.
Proof.
  revert b. induction a as [ | x a IH]; intros b H.
  - destruct b as [ | y b]; [reflexivity | ].
    apply (f_equal String.length) in H. rewrite !append_length in H. cbn in H. lia.
  - destruct b as [ | y b].
    + apply (f_equal String.length) in H. rewrite !append_length in H. cbn in H. lia.
    + rewrite !append_cons in H. injection H as -> H. f_equal. apply IH, H.
Qed.

(** Two names made of a run of hexadecimal digits followed by a suffix
    that starts with another character: the runs are equal and the
    suffixes are. *)
Lemma hex_prefix_inj (h1 h2 s1 s2 : string) :
  all_hex h1 -> all_hex h2 -> take_hex s1 = "" -> take_hex s2 = "" ->
  h1 ++ s1 = h2 ++ s2 -> h1 = h2 /\ s1 = s2.
Proof.
  intros H1 H2 Hs1 Hs2 H.
  assert (Hh : h1 = h2).
  { rewrite <- (take_hex_app h1 s1 H1 Hs1), <- (take_hex_app h2 s2 H2 Hs2), H.
    reflexivity. }
  split; [exact Hh | ]. subst h2. apply append_inj_l in H. exact H.
Qed.

(** X8. The files of the cache do not collide.  For two blob paths with
    digests [h1] and [h2]: the flat files are the same file only for equal
    digests, two part files only for equal digests and equal part numbers,
    and a part file is never a flat file or a record file, nor a record
    file a flat file. *)
Theorem cache_files_do_not_collide (p1 p2 h1 h2 : string) (a b : Z) :
  find_sha256 p1 = Some h1 -> find_sha256 p2 = Some h2 ->
  (getCacheFilePath p1 = getCacheFilePath p2 -> h1 = h2)
  /\ (getCacheFilePathWithPart p1 a = getCacheFilePathWithPart p2 b ->
      h1 = h2 /\ a = b)
  /\ getCacheFilePathWithPart p1 a <> getCacheFilePath p2
  /\ getCacheFilePathWithPart p1 a <> getRecordFilePath p2
  /\ getRecordFilePath p1 <> getCacheFilePath p2.
Proof.
  intros Hf1 Hf2.
  pose proof (find_sha256_all_hex _ _ Hf1) as Hx1.
  pose proof (find_sha256_all_hex _ _ Hf2) as Hx2.
  unfold getCacheFilePath, getCacheFilePathWithPart, getRecordFilePath, extractHashFromURL.
  rewrite Hf1, Hf2.
  split; [ | split; [ | split; [ | split]]].
  - intros H. apply Join_inj in H.
    apply (hex_prefix_inj h1 h2 ".dat" ".dat" Hx1 Hx2 eq_refl eq_refl H).
  - intros H. apply Join_inj in H.
    destruct (hex_prefix_inj h1 h2 ("_part_" ++ fmt_d a ++ ".dat")
                ("_part_" ++ fmt_d b ++ ".dat") Hx1 Hx2 eq_refl eq_refl H) as [Hh Hs].
    split; [exact Hh | ].
    apply (append_inj_l "_part_") in Hs. apply append_inj_r in Hs.
    apply fmt_d_inj, Hs.
  - intros H. apply Join_inj in H.
    destruct (hex_prefix_inj h1 h2 ("_part_" ++ fmt_d a ++ ".dat") ".dat"
                Hx1 Hx2 eq_refl eq_refl H) as [_ Hs].
    discriminate Hs.
  - intros H. apply Join_inj in H.
    destruct (hex_prefix_inj h1 h2 ("_part_" ++ fmt_d a ++ ".dat") "_record.txt"
                Hx1 Hx2 eq_refl eq_refl H) as [_ Hs].
    apply (append_inj_l "_") in Hs.
    change ("part_" ++ fmt_d a ++ ".dat")
      with (String "p" ("art_" ++ fmt_d a ++ ".dat")) in Hs.
    discriminate Hs.
  - intros H. apply Join_inj in H.
    destruct (hex_prefix_inj h1 h2 "_record.txt" ".dat" Hx1 Hx2 eq_refl eq_refl H)
      as [_ Hs].
    discriminate Hs.
Qed.

Lemma cache_files_do_not_collide_witness :
  let p1 := "/v2/a/blobs/sha256:0a1b" in
  let p2 := "/v2/b/blobs/sha256:0a1b/x" in
  (find_sha256 p1 = Some "0a1b" /\ find_sha256 p2 = Some "0a1b")
  /\ (getCacheFilePathWithPart p1 3 = getCacheFilePathWithPart p2 3 ->
      "0a1b" = "0a1b" /\ 3 = 3)
  /\ getCacheFilePathWithPart p1 3 <> getCacheFilePath p2.
Proof.
  cbv zeta.
  assert (H1 : find_sha256 "/v2/a/blobs/sha256:0a1b" = Some "0a1b") by reflexivity.
  assert (H2 : find_sha256 "/v2/b/blobs/sha256:0a1b/x" = Some "0a1b") by reflexivity.
  split; [split; [exact H1 | exact H2] | ].
  destruct (cache_files_do_not_collide _ _ _ _ 3 3 H1 H2) as (_ & Hb & Hc & _).
  split; [exact Hb | exact Hc].
Defined.

End FileNames.

(** ** The record file *)

Section RecordFacts.
Import Num Paths Cache Digits.

Lemma read_digits_stop (acc : Z) (seen : nat) (s : string) :
  no_digit_ahead s -> read_digits acc seen s = (acc, seen, s).
Proof.
  destruct s as [ | c s]; cbn; [reflexivity | ]. intros ->. reflexivity.
Qed.

Lemma read_digits_uint (d : Decimal.uint) :
  forall (acc : Z) (seen : nat) (rest : string),
  no_digit_ahead rest ->
  exists more,
    read_digits acc seen (NilEmpty.string_of_uint d ++ rest)
    = (uval acc d, (seen + more)%nat, rest)
    /\ (d <> Decimal.Nil -> (0 < seen + more)%nat).
Proof.
  induction d as [ | d IH | d IH | d IH | d IH | d IH | d IH | d IH | d IH | d IH | d IH];
    intros acc seen rest Hrest.
  1: { exists O. cbn [NilEmpty.string_of_uint]. change ("" ++ rest) with rest.
       rewrite read_digits_stop by exact Hrest. rewrite Nat.add_0_r.
       split; [reflexivity | congruence]. }
  all: cbn [NilEmpty.string_of_uint uval]; rewrite append_cons; cbn [read_digits];
    match goal with
    | |- context [is_digit ?c] => change (is_digit c) with true; cbv iota
    end;
    match goal with
    | Hr : no_digit_ahead ?r |- context [read_digits ?a (S ?s) _] =>
        destruct (IH a (S s) r Hr) as (more & Heq & _)
    end;
    exists (S more);
    (split; [ | intros _; lia]);
    match goal with
    | |- read_digits ?a _ _ = (uval ?b _, _, _) =>
        replace b with a by (cbn; lia)
    end;
    rewrite Heq; f_equal; f_equal; lia.
Qed.

Lemma uval_of_uint_acc (d : Decimal.uint) :
  forall acc : positive, Z.pos (Pos.of_uint_acc d acc) = uval (Z.pos acc) d.
Proof.
  induction d; intros acc; cbn [Pos.of_uint_acc uval]; [reflexivity | ..];
    rewrite IHd; f_equal; lia.
Qed.

Lemma uval_of_uint (d : Decimal.uint) : Z.of_N (Pos.of_uint d) = uval 0 d.
Proof.
  induction d; cbn [Pos.of_uint uval]; [reflexivity | exact IHd | ..];
    cbn [Z.of_N]; rewrite uval_of_uint_acc; reflexivity.
Qed.

Lemma uval_to_uint (p : positive) : uval 0 (Pos.to_uint p) = Z.pos p.
Proof. rewrite <- uval_of_uint, DecimalPos.Unsigned.of_to. reflexivity. Qed.

Lemma in_int64_leb (v : Z) :
  in_int64 v -> (MinInt64 <=? v) && (v <=? MaxInt64) = true.
Proof.
  unfold in_int64. intros [H1 H2].
  rewrite (proj2 (Z.leb_le _ _) H1), (proj2 (Z.leb_le _ _) H2). reflexivity.
Qed.

(** A run of digits that does not start with a sign is read as it
    stands. *)
Lemma read_int_unsigned (d : Decimal.uint) (rest : string) :
  d <> Decimal.Nil -> no_digit_ahead rest -> in_int64 (uval 0 d) ->
  read_int (NilEmpty.string_of_uint d ++ rest) = Some (uval 0 d, rest).
Proof.
  intros Hd Hrest Hrange.
  destruct (read_digits_uint d 0 O rest Hrest) as (more & Heq & Hmore).
  specialize (Hmore Hd).
  assert (Hplain : read_int (NilEmpty.string_of_uint d ++ rest)
                   = let '(v, seen, r) :=
                       read_digits 0 O (NilEmpty.string_of_uint d ++ rest) in
                     match seen with
                     | O => None
                     | S _ => if (MinInt64 <=? v) && (v <=? MaxInt64)
                              then Some (v, r) else None
                     end).
  { destruct d; [congruence | ..]; reflexivity. }
  rewrite Hplain, Heq. cbv beta iota zeta.
  destruct (0 + more)%nat; [lia | ].
  rewrite in_int64_leb by exact Hrange. reflexivity.
Qed.

Lemma read_int_negative (d : Decimal.uint) (rest : string) :
  d <> Decimal.Nil -> no_digit_ahead rest -> in_int64 (- uval 0 d) ->
  read_int (String "-" (NilEmpty.string_of_uint d ++ rest)) = Some (- uval 0 d, rest).
Proof.
  intros Hd Hrest Hrange.
  destruct (read_digits_uint d 0 O rest Hrest) as (more & Heq & Hmore).
  specialize (Hmore Hd).
  unfold read_int. cbv beta iota zeta. rewrite Heq. cbv beta iota zeta.
  destruct (0 + more)%nat; [lia | ].
  rewrite in_int64_leb by exact Hrange. reflexivity.
Qed.

(** What [%d] prints, [%d] reads. *)
Lemma read_int_fmt_d (z : Z) (rest : string) :
  in_int64 z -> no_digit_ahead rest ->
  read_int (fmt_d z ++ rest) = Some (z, rest).
Proof.
  intros Hz Hrest. unfold fmt_d.
  destruct z as [ | p | p]; cbn [Z.to_int NilZero.string_of_int].
  - change (NilZero.string_of_uint Decimal.zero)
      with (NilEmpty.string_of_uint (Decimal.D0 Decimal.Nil)).
    rewrite read_int_unsigned; [reflexivity | discriminate | exact Hrest | exact Hz].
  - assert (Hnil := DecimalPos.Unsigned.to_uint_nonnil p).
    replace (NilZero.string_of_uint (Pos.to_uint p))
      with (NilEmpty.string_of_uint (Pos.to_uint p))
      by (destruct (Pos.to_uint p); [congruence | ..]; reflexivity).
    rewrite read_int_unsigned; rewrite ?uval_to_uint; auto.
  - assert (Hnil := DecimalPos.Unsigned.to_uint_nonnil p).
    replace (NilZero.string_of_uint (Pos.to_uint p))
      with (NilEmpty.string_of_uint (Pos.to_uint p))
      by (destruct (Pos.to_uint p); [congruence | ..]; reflexivity).
    rewrite append_cons.
    rewrite read_int_negative; rewrite ?uval_to_uint; auto.
Qed.

(** What [%d] prints does not start with a blank. *)
Lemma skip_blanks_fmt_d (z : Z) (rest : string) :
  skip_blanks (fmt_d z ++ rest) = fmt_d z ++ rest.
Proof.
  unfold fmt_d. destruct z as [ | p | p]; cbn [Z.to_int NilZero.string_of_int].
  - reflexivity.
  - assert (Hnil := DecimalPos.Unsigned.to_uint_nonnil p).
    destruct (Pos.to_uint p); [congruence | ..]; reflexivity.
  - reflexivity.
Qed.

(** The scan of the text the forwarder writes. *)
Lemma Fscanf_Sprintf_record (parts total : Z) :
  in_int64 parts -> in_int64 total ->
  Fscanf_record (Sprintf_record parts total) = (parts, total).
Proof.
  intros Hp Ht. unfold Fscanf_record, Sprintf_record.
  change (strip_prefix "Parts:"
            ("Parts: " ++ fmt_d parts ++ newline ++ "TotalSize: " ++ fmt_d total ++ newline))
    with (Some (String " " (fmt_d parts ++ newline ++ "TotalSize: "
                              ++ fmt_d total ++ newline))).
  cbv beta iota.
  change (format_space (String " " ?x)) with (Some (skip_blanks x)).
  cbv beta iota.
  rewrite !skip_blanks_fmt_d, read_int_fmt_d by (auto; reflexivity).
  cbv beta iota.
  change (strip_prefix newline
            (skip_blanks (newline ++ "TotalSize: " ++ fmt_d total ++ newline)))
    with (Some ("TotalSize: " ++ fmt_d total ++ newline)).
  cbv beta iota.
  change (strip_prefix "TotalSize:" ("TotalSize: " ++ fmt_d total ++ newline))
    with (Some (String " " (fmt_d total ++ newline))).
  cbv beta iota.
  change (format_space (String " " ?x)) with (Some (skip_blanks x)).
  cbv beta iota.
  rewrite !skip_blanks_fmt_d, read_int_fmt_d by (auto; reflexivity).
  reflexivity.
Qed.

Lemma partCount_of_record (parts total : Z) :
  in_int64 parts -> in_int64 total ->
  partCount_of (list_byte_of_string (Sprintf_record parts total)) = parts.
Proof.
  intros Hp Ht. unfold partCount_of.
  rewrite string_of_list_byte_of_string, Fscanf_Sprintf_record by assumption.
  reflexivity.
Qed.

(** X9. The record file is read back as it was written: for a part count
    and a size within 64 bits, the line the forwarder writes is scanned by
    [serveFromCache] and [checkCacheFileSize] into the same two numbers,
    and the part count they loop over is the one written. *)
Theorem record_is_read_back (parts total : Z) :
  in_int64 parts -> in_int64 total ->
  Fscanf_record (Sprintf_record parts total) = (parts, total)
  /\ partCount_of (list_byte_of_string (Sprintf_record parts total)) = parts.
Proof.
  intros Hp Ht.
  split; [apply Fscanf_Sprintf_record | apply partCount_of_record]; assumption.
Qed.

Lemma record_is_read_back_witness :
  (in_int64 3 /\ in_int64 52428800)
  /\ Fscanf_record (Sprintf_record 3 52428800) = (3, 52428800)
  /\ partCount_of (list_byte_of_string (Sprintf_record 3 52428800)) = 3.
Proof.
  assert (H1 : in_int64 3) by (unfold in_int64, MinInt64, MaxInt64; lia).
  assert (H2 : in_int64 52428800) by (unfold in_int64, MinInt64, MaxInt64; lia).
  split; [split; [exact H1 | exact H2] | ].
  exact (record_is_read_back 3 52428800 H1 H2).
Defined.

End RecordFacts.


(** ** Reading and verifying an entry *)

Section ReadFacts.
Import Num Paths Cache Forwarder Served.

(** With a client that takes everything and a log file that opens, the
    general functions are [serveFromCache] and [proxyRequest]. *)
Lemma serve_parts_to_all (fs0 : FS) (cacheFilePath : string) (n : nat) :
  forall (part : Z) (w : list byte),
  serve_parts_to (fun _ => None) fs0 cacheFilePath n part w
  = serve_parts fs0 cacheFilePath n part w.
Proof.
  induction n as [ | n IH]; intros part w; cbn [serve_parts_to serve_parts];
    [reflexivity | ].
  destruct (fs0 !! _); [apply IH | reflexivity].
Qed.

Lemma serveFromCache_to_all (fs0 : FS) (w : list byte) (cacheFilePath : string) :
  serveFromCache_to (fun _ => None) fs0 w cacheFilePath
  = serveFromCache fs0 w cacheFilePath.
Proof.
  unfold serveFromCache_to, serveFromCache.
  destruct (fs0 !! getRecordFilePath cacheFilePath); [apply serve_parts_to_all | ].
  reflexivity.
Qed.

Lemma proxyRequest_in_all (fuel : nat) (req : Request) (script : list Upstream)
    (rnd : nat -> nat) (um : Selector.URLManager) (fs0 : FS) :
  proxyRequest_in (mkEnv true (fun _ => None)) fuel req script rnd um fs0
  = Ran (fst (proxyRequest fuel req script rnd um fs0))
        (snd (proxyRequest fuel req script rnd um fs0)).
Proof.
  unfold proxyRequest_in, proxyRequest. cbn [log_opens accepts].
  rewrite serveFromCache_to_all.
  destruct (if shouldCache (URL_Path req) then _ else _) as [hit w].
  destruct hit; [reflexivity | ].
  destruct (attempt_loop _ _ _ _ _ _) as [e r]. reflexivity.
Qed.

(** The loop of [serveFromCache] over parts that are all there and all
    copied. *)
Lemma serve_parts_present (accepts : Z -> option nat) (fs0 : FS) (cacheFilePath : string)
    (parts : list (list byte)) :
  forall (start : Z) (w : list byte) (more : nat),
  (forall i d, parts !! i = Some d ->
     fs0 !! getCacheFilePathWithPart cacheFilePath (start + Z.of_nat i) = Some d
     /\ accepts (start + Z.of_nat i) = None) ->
  serve_parts_to accepts fs0 cacheFilePath (length parts + more) start w
  = serve_parts_to accepts fs0 cacheFilePath more (start + Z.of_nat (length parts))
      (w ++ concat parts)%list.
Proof.
  induction parts as [ | d parts IH]; intros start w more H;
    cbn [serve_parts_to length concat Nat.add].
  - rewrite app_nil_r, Z.add_0_r. reflexivity.
  - destruct (H O d eq_refl) as [H0 Ha]. rewrite Z.add_0_r in H0, Ha. rewrite H0, Ha.
    rewrite IH.
    + rewrite app_assoc. f_equal. lia.
    + intros i x Hi. replace (start + 1 + Z.of_nat i) with (start + Z.of_nat (S i)) by lia.
      apply H. exact Hi.
Qed.

(** X10. A split entry whose record file, as the forwarder writes it, and
    parts are all in place is served whole to a client that takes every
    part: [serveFromCache] returns [true] and the client receives the
    parts [0 .. count-1] one after the other, in that order. *)
Theorem split_entry_is_served_in_order (accepts : Z -> option nat) (fs0 : FS)
    (w : list byte) (cacheFilePath : string) (total : Z) (parts : list (list byte)) :
  Z.of_nat (length parts) <= MaxInt64 -> in_int64 total ->
  fs0 !! getRecordFilePath cacheFilePath
  = Some (list_byte_of_string (Sprintf_record (Z.of_nat (length parts)) total)) ->
  (forall i d, parts !! i = Some d ->
     fs0 !! getCacheFilePathWithPart cacheFilePath (Z.of_nat i) = Some d
     /\ accepts (Z.of_nat i) = None) ->
  serveFromCache_to accepts fs0 w cacheFilePath = (true, (w ++ concat parts)%list).
Proof.
  intros Hlen Htotal Hrec Hparts. unfold serveFromCache_to.
  rewrite Hrec, partCount_of_record, Nat2Z.id;
    [ | unfold in_int64, MinInt64 in *; lia | exact Htotal].
  rewrite <- (Nat.add_0_r (length parts)).
  rewrite serve_parts_present; [reflexivity | ].
  intros i d Hi. rewrite Z.add_0_l. apply Hparts, Hi.
Qed.

(** X11. A split entry, its record file as the forwarder writes it, that
    cannot be served whole: at the first part that is missing, or whose
    copy to the client fails, [serveFromCache] returns [false], and what
    it has written to the client by then is the parts before it and, for
    a failing copy, the bytes of the part that went through. *)
Theorem split_entry_with_missing_part (accepts : Z -> option nat) (fs0 : FS)
    (w : list byte) (cacheFilePath : string) (count total : Z)
    (before : list (list byte)) :
  in_int64 count -> in_int64 total ->
  Z.of_nat (length before) < count ->
  fs0 !! getRecordFilePath cacheFilePath
  = Some (list_byte_of_string (Sprintf_record count total)) ->
  (forall i d, before !! i = Some d ->
     fs0 !! getCacheFilePathWithPart cacheFilePath (Z.of_nat i) = Some d
     /\ accepts (Z.of_nat i) = None) ->
  (fs0 !! getCacheFilePathWithPart cacheFilePath (Z.of_nat (length before)) = None ->
   serveFromCache_to accepts fs0 w cacheFilePath = (false, (w ++ concat before)%list))
  /\ (forall d k,
        fs0 !! getCacheFilePathWithPart cacheFilePath (Z.of_nat (length before)) = Some d ->
        accepts (Z.of_nat (length before)) = Some k ->
        serveFromCache_to accepts fs0 w cacheFilePath
        = (false, (w ++ concat before ++ take k d)%list)).
Proof.
  intros Hcount Htotal Hlt Hrec Hparts.
  assert (Hm : exists m, Z.to_nat count = (length before + S m)%nat)
    by (exists (Z.to_nat count - S (length before))%nat; lia).
  destruct Hm as [m Hm].
  assert (Hrun : serveFromCache_to accepts fs0 w cacheFilePath
                 = serve_parts_to accepts fs0 cacheFilePath (S m)
                     (Z.of_nat (length before)) (w ++ concat before)%list).
  { unfold serveFromCache_to.
    rewrite Hrec, partCount_of_record, Hm by assumption.
    rewrite serve_parts_present; [rewrite Z.add_0_l; reflexivity | ].
    intros i d Hi. rewrite Z.add_0_l. apply Hparts, Hi. }
  split.
  - intros Hmiss. rewrite Hrun. cbn [serve_parts_to]. rewrite Hmiss. reflexivity.
  - intros d k Hd Hk. rewrite Hrun. cbn [serve_parts_to]. rewrite Hd, Hk.
    rewrite app_assoc. reflexivity.
Qed.

Lemma split_entry_is_served_in_order_witness :
  let cacheFilePath := "cache/0a1b.dat" in
  let parts := [[x01; x02; x03]; [x04; x05; x06]] in
  let fs0 : FS :=
    <[getRecordFilePath cacheFilePath := list_byte_of_string (Sprintf_record 2 6)]>
      (<[getCacheFilePathWithPart cacheFilePath 0 := [x01; x02; x03]]>
         (<[getCacheFilePathWithPart cacheFilePath 1 := [x04; x05; x06]]> ∅)) in
  let accepts := fun _ : Z => @None nat in
  (Z.of_nat (length parts) <= MaxInt64
   /\ in_int64 6
   /\ fs0 !! getRecordFilePath cacheFilePath
      = Some (list_byte_of_string (Sprintf_record (Z.of_nat (length parts)) 6))
   /\ (forall i d, parts !! i = Some d ->
         fs0 !! getCacheFilePathWithPart cacheFilePath (Z.of_nat i) = Some d
         /\ accepts (Z.of_nat i) = None))
  /\ serveFromCache_to accepts fs0 [x00] cacheFilePath
     = (true, [x00; x01; x02; x03; x04; x05; x06]).
Proof.
  cbv zeta.
  match goal with
  | |- (?A /\ ?B /\ ?C /\ ?D) /\ _ =>
      assert (H1 : A) by (vm_compute; discriminate);
      assert (H2 : B) by (unfold in_int64, MinInt64, MaxInt64; lia);
      assert (H3 : C) by (vm_compute; reflexivity);
      assert (H4 : D)
  end.
  { intros [ | [ | i]] d Hd; cbn in Hd; try discriminate;
      injection Hd as <-; (split; [vm_compute; reflexivity | reflexivity]). }
  split; [split; [exact H1 | split; [exact H2 | split; [exact H3 | exact H4]]] | ].
  exact (split_entry_is_served_in_order _ _ [x00] _ 6 _ H1 H2 H3 H4).
Defined.

Lemma split_entry_with_missing_part_witness :
  let cacheFilePath := "cache/0a1b.dat" in
  let before := [[x01; x02; x03]] in
  let fs0 : FS :=
    <[getRecordFilePath cacheFilePath := list_byte_of_string (Sprintf_record 2 6)]>
      (<[getCacheFilePathWithPart cacheFilePath 0 := [x01; x02; x03]]> ∅) in
  let accepts := fun _ : Z => @None nat in
  (in_int64 2
   /\ in_int64 6
   /\ Z.of_nat (length before) < 2
   /\ fs0 !! getRecordFilePath cacheFilePath
      = Some (list_byte_of_string (Sprintf_record 2 6))
   /\ (forall i d, before !! i = Some d ->
         fs0 !! getCacheFilePathWithPart cacheFilePath (Z.of_nat i) = Some d
         /\ accepts (Z.of_nat i) = None)
   /\ fs0 !! getCacheFilePathWithPart cacheFilePath (Z.of_nat (length before)) = None)
  /\ serveFromCache_to accepts fs0 [] cacheFilePath = (false, [x01; x02; x03]).
Proof.
  cbv zeta.
  match goal with
  | |- (?A1 /\ ?A2 /\ ?A3 /\ ?A4 /\ ?A5 /\ ?A6) /\ _ =>
      assert (H1 : A1) by (unfold in_int64, MinInt64, MaxInt64; lia);
      assert (H2 : A2) by (unfold in_int64, MinInt64, MaxInt64; lia);
      assert (H3 : A3) by (cbn; lia);
      assert (H4 : A4) by (vm_compute; reflexivity);
      assert (H6 : A6) by (vm_compute; reflexivity);
      assert (H5 : A5)
  end.
  { intros [ | i] d Hd; cbn in Hd; try discriminate;
      injection Hd as <-; (split; [vm_compute; reflexivity | reflexivity]). }
  split; [exact (conj H1 (conj H2 (conj H3 (conj H4 (conj H5 H6))))) | ].
  exact (proj1 (split_entry_with_missing_part _ _ [] _ 2 6 _ H1 H2 H3 H4 H5) H6).
Defined.

End ReadFacts.

Section VerifyFacts.
Import Num Paths Cache.

Variable sha256_hex : list byte -> string.

Lemma ParseInt_nonempty (s : string) (n : Z) : ParseInt s = Some n -> String.eqb s "" = false.
Proof. destruct s; [discriminate | reflexivity]. Qed.


(** The reading loop of [checkCacheFileSize] over parts that are all
    there. *)
Lemma read_parts_present (fs0 : FS) (cacheFilePath : string) (parts : list (list byte)) :
  forall (start : Z) (reader : list byte),
  (forall i d, parts !! i = Some d ->
     fs0 !! getCacheFilePathWithPart cacheFilePath (start + Z.of_nat i) = Some d) ->
  read_parts fs0 cacheFilePath (length parts) start reader
  = Some (reader ++ concat parts)%list.
Proof.
  induction parts as [ | d parts IH]; intros start reader H; cbn [read_parts length concat].
  - rewrite app_nil_r. reflexivity.
  - pose proof (H O d eq_refl) as H0. rewrite Z.add_0_r in H0. rewrite H0.
    rewrite IH; [rewrite app_assoc; reflexivity | ].
    intros i x Hi. replace (start + 1 + Z.of_nat i) with (start + Z.of_nat (S i)) by lia.
    apply H. exact Hi.
Qed.

(** The removing loop removes the parts it is asked to and no other
    file. *)
Lemma remove_parts_part (cacheFilePath : string) (n : nat) :
  forall (start : Z) (fs0 : FS) (i : nat),
  (i < n)%nat ->
  remove_parts cacheFilePath n start fs0
    !! getCacheFilePathWithPart cacheFilePath (start + Z.of_nat i) = None.
Proof.
  induction n as [ | n IH]; intros start fs0 i Hi; [lia | ].
  cbn [remove_parts]. destruct i as [ | i].
  - rewrite Z.add_0_r.
    assert (H : forall m s (g : FS) q, g !! q = None ->
                remove_parts cacheFilePath m s g !! q = None).
    { induction m as [ | m IHm]; intros s g q Hq; [exact Hq | ].
      cbn [remove_parts]. apply IHm. unfold Remove.
      apply lookup_delete_None. right. exact Hq. }
    apply H. unfold Remove. apply lookup_delete_eq.
  - replace (start + Z.of_nat (S i)) with (start + 1 + Z.of_nat i) by lia.
    apply IH. lia.
Qed.

Lemma remove_parts_other (cacheFilePath : string) (n : nat) :
  forall (start : Z) (fs0 : FS) (q : string),
  (forall p, q <> getCacheFilePathWithPart cacheFilePath p) ->
  remove_parts cacheFilePath n start fs0 !! q = fs0 !! q.
Proof.
  induction n as [ | n IH]; intros start fs0 q Hq; [reflexivity | ].
  cbn [remove_parts]. rewrite IH by exact Hq. unfold Remove.
  apply lookup_delete_ne. intros H. exact (Hq _ (eq_sym H)).
Qed.

Lemma read_parts_missing (fs0 : FS) (cacheFilePath : string) (before : list (list byte)) :
  forall (n : nat) (start : Z) (reader : list byte),
  (length before < n)%nat ->
  (forall i d, before !! i = Some d ->
     fs0 !! getCacheFilePathWithPart cacheFilePath (start + Z.of_nat i) = Some d) ->
  fs0 !! getCacheFilePathWithPart cacheFilePath (start + Z.of_nat (length before)) = None ->
  read_parts fs0 cacheFilePath n start reader = None.
Proof.
  induction before as [ | d before IH]; intros n start reader Hn H Hmiss;
    (destruct n as [ | n]; [cbn in Hn; lia | ]); cbn [read_parts].
  - cbn in Hmiss. rewrite Z.add_0_r in Hmiss. rewrite Hmiss. reflexivity.
  - pose proof (H O d eq_refl) as H0. rewrite Z.add_0_r in H0. rewrite H0.
    apply IH.
    + cbn in Hn. lia.
    + intros i x Hi. replace (start + 1 + Z.of_nat i) with (start + Z.of_nat (S i)) by lia.
      apply H. exact Hi.
    + replace (start + 1 + Z.of_nat (length before))
        with (start + Z.of_nat (length (d :: before))) by (cbn [length]; lia).
      exact Hmiss.
Qed.

(** The record file of an entry is none of its part files. *)
Lemma record_is_no_part (p : string) (i : Z) :
  getRecordFilePath p <> getCacheFilePathWithPart p i.
Proof.
  unfold getRecordFilePath, getCacheFilePathWithPart. intros H.
  apply Join_inj in H. apply append_inj_l in H.
  apply (append_inj_l "_") in H.
  change ("part_" ++ fmt_d i ++ ".dat") with (String "p" ("art_" ++ fmt_d i ++ ".dat")) in H.
  discriminate H.
Qed.

(** X13. Verification of a split set of files, for [checkCacheFileSize]
    called with a path and a numeric content length.  The files are those
    the function looks for: a record file, as the forwarder writes one,
    and the parts it counts, under the names derived from the cache file
    path of the path (not the names under which the forwarder writes the
    entry of that path, as C7 has it).  When the parts, read in order,
    hash to the key nothing changes; when they do not, the record file
    and every part are removed and every other file is left as it is. *)
Theorem split_entry_verification (url contentLengthStr : string) (n total : Z)
    (fs0 : FS) (parts : list (list byte)) :
  let cacheFilePath := getCacheFilePath url in
  ParseInt contentLengthStr = Some n ->
  Z.of_nat (length parts) <= MaxInt64 -> in_int64 total ->
  fs0 !! getRecordFilePath cacheFilePath
  = Some (list_byte_of_string (Sprintf_record (Z.of_nat (length parts)) total)) ->
  (forall i d, parts !! i = Some d ->
     fs0 !! getCacheFilePathWithPart cacheFilePath (Z.of_nat i) = Some d) ->
  let fs1 := checkCacheFileSize sha256_hex url contentLengthStr fs0 in
  (sha256_hex (concat parts) = extractHashFromURL url -> fs1 = fs0)
  /\ (sha256_hex (concat parts) <> extractHashFromURL url ->
      fs1 !! getRecordFilePath cacheFilePath = None
      /\ (forall i, (i < length parts)%nat ->
            fs1 !! getCacheFilePathWithPart cacheFilePath (Z.of_nat i) = None)
      /\ (forall q, q <> getRecordFilePath cacheFilePath ->
            (forall p, q <> getCacheFilePathWithPart cacheFilePath p) ->
            fs1 !! q = fs0 !! q)).
Proof.
  intros cacheFilePath Hn Hlen Htotal Hrec Hparts fs1.
  assert (Hcount : in_int64 (Z.of_nat (length parts)))
    by (unfold in_int64, MinInt64 in *; lia).
  assert (Hread : read_parts fs0 cacheFilePath (length parts) 0 []
                  = Some (concat parts)).
  { rewrite (read_parts_present fs0 cacheFilePath parts 0 []); [reflexivity | ].
    intros i d Hi. rewrite Z.add_0_l. apply Hparts, Hi. }
  assert (Hfs1 : fs1 = if String.eqb (sha256_hex (concat parts)) (extractHashFromURL url)
                       then fs0
                       else Remove (getRecordFilePath cacheFilePath)
                              (remove_parts cacheFilePath (length parts) 0 fs0)).
  { unfold fs1, checkCacheFileSize.
    rewrite (ParseInt_nonempty _ _ Hn), Hn. cbv zeta.
    fold cacheFilePath.
    rewrite Hrec, partCount_of_record, Nat2Z.id, Hread by assumption. reflexivity. }
  split.
  - intros Hsha. rewrite Hfs1, Hsha, String.eqb_refl. reflexivity.
  - intros Hsha. rewrite Hfs1.
    destruct (String.eqb_spec (sha256_hex (concat parts)) (extractHashFromURL url));
      [contradiction | ].
    unfold Remove. split; [apply lookup_delete_eq | split].
    + intros i Hi. rewrite lookup_delete_ne by apply record_is_no_part.
      pose proof (remove_parts_part cacheFilePath (length parts) 0 fs0 i Hi) as H.
      rewrite Z.add_0_l in H. exact H.
    + intros q Hq Hp. rewrite lookup_delete_ne by (intros E; exact (Hq (eq_sym E))).
      apply remove_parts_other, Hp.
Qed.

(** X14. Verification gives up on a split set of files with a missing
    part, the record file being as the forwarder writes one and the names
    those that [checkCacheFileSize] derives: whatever the parts before
    the missing one hold, nothing is hashed and nothing is removed. *)
Theorem verification_gives_up_on_missing_part (url contentLengthStr : string)
    (fs0 : FS) (count total : Z) (before : list (list byte)) :
  let cacheFilePath := getCacheFilePath url in
  in_int64 count -> in_int64 total ->
  fs0 !! getRecordFilePath cacheFilePath
  = Some (list_byte_of_string (Sprintf_record count total)) ->
  Z.of_nat (length before) < count ->
  (forall i d, before !! i = Some d ->
     fs0 !! getCacheFilePathWithPart cacheFilePath (Z.of_nat i) = Some d) ->
  fs0 !! getCacheFilePathWithPart cacheFilePath (Z.of_nat (length before)) = None ->
  checkCacheFileSize sha256_hex url contentLengthStr fs0 = fs0.
Proof.
  intros cacheFilePath Hcount Htotal Hrec Hlt Hparts Hmiss.
  unfold checkCacheFileSize.
  destruct (String.eqb contentLengthStr ""); [reflexivity | ].
  destruct (ParseInt contentLengthStr); [ | reflexivity].
  cbv zeta. fold cacheFilePath. rewrite Hrec, partCount_of_record by assumption.
  rewrite (read_parts_missing fs0 cacheFilePath before); [reflexivity | lia | | ].
  - intros i d Hi. rewrite Z.add_0_l. apply Hparts, Hi.
  - rewrite Z.add_0_l. exact Hmiss.
Qed.

End VerifyFacts.

Section VerifyWitnesses.
Import Num Paths Cache.


Lemma split_entry_verification_witness :
  let url := "/v2/a/blobs/sha256:0a1b" in
  let sha256_hex := fun _ : list byte => "ffff" in
  let cacheFilePath := getCacheFilePath url in
  let parts := [[x01; x02; x03]; [x04; x05; x06]] in
  let fs0 : FS :=
    <[getRecordFilePath cacheFilePath := list_byte_of_string (Sprintf_record 2 6)]>
      (<[getCacheFilePathWithPart cacheFilePath 0 := [x01; x02; x03]]>
         (<[getCacheFilePathWithPart cacheFilePath 1 := [x04; x05; x06]]> ∅)) in
  (ParseInt "6" = Some 6
   /\ Z.of_nat (length parts) <= MaxInt64
   /\ in_int64 6
   /\ fs0 !! getRecordFilePath cacheFilePath
      = Some (list_byte_of_string (Sprintf_record (Z.of_nat (length parts)) 6))
   /\ (forall i d, parts !! i = Some d ->
         fs0 !! getCacheFilePathWithPart cacheFilePath (Z.of_nat i) = Some d))
  /\ checkCacheFileSize sha256_hex url "6" fs0 !! getRecordFilePath cacheFilePath = None
  /\ checkCacheFileSize sha256_hex url "6" fs0
       !! getCacheFilePathWithPart cacheFilePath 1 = None.
Proof.
  cbv zeta.
  match goal with
  | |- (?A /\ ?B /\ ?C /\ ?D /\ ?E) /\ _ =>
      assert (H1 : A) by (vm_compute; reflexivity);
      assert (H2 : B) by (vm_compute; discriminate);
      assert (H3 : C) by (unfold in_int64, MinInt64, MaxInt64; lia);
      assert (H4 : D) by (vm_compute; reflexivity);
      assert (H5 : E)
  end.
  { intros [ | [ | i]] d Hd; cbn in Hd; try discriminate;
      injection Hd as <-; vm_compute; reflexivity. }
  split; [exact (conj H1 (conj H2 (conj H3 (conj H4 H5)))) | ].
  destruct (split_entry_verification (fun _ => "ffff") "/v2/a/blobs/sha256:0a1b" "6" 6 6
              _ _ H1 H2 H3 H4 H5) as [_ H].
  destruct H as (Ha & Hb & _); [vm_compute; discriminate | ].
  split; [exact Ha | exact (Hb 1%nat ltac:(cbn; lia))].
Defined.

Lemma verification_gives_up_on_missing_part_witness :
  let url := "/v2/a/blobs/sha256:0a1b" in
  let sha256_hex := fun _ : list byte => "ffff" in
  let cacheFilePath := getCacheFilePath url in
  let before := [[x01; x02; x03]] in
  let fs0 : FS :=
    <[getRecordFilePath cacheFilePath := list_byte_of_string (Sprintf_record 2 6)]>
      (<[getCacheFilePathWithPart cacheFilePath 0 := [x01; x02; x03]]> ∅) in
  (in_int64 2
   /\ in_int64 6
   /\ fs0 !! getRecordFilePath cacheFilePath
      = Some (list_byte_of_string (Sprintf_record 2 6))
   /\ Z.of_nat (length before) < 2
   /\ (forall i d, before !! i = Some d ->
         fs0 !! getCacheFilePathWithPart cacheFilePath (Z.of_nat i) = Some d)
   /\ fs0 !! getCacheFilePathWithPart cacheFilePath (Z.of_nat (length before)) = None)
  /\ checkCacheFileSize sha256_hex url "6" fs0 = fs0.
Proof.
  cbv zeta.
  match goal with
  | |- (?A1 /\ ?A2 /\ ?A3 /\ ?A4 /\ ?A5 /\ ?A6) /\ _ =>
      assert (H1 : A1) by (unfold in_int64, MinInt64, MaxInt64; lia);
      assert (H2 : A2) by (unfold in_int64, MinInt64, MaxInt64; lia);
      assert (H3 : A3) by (vm_compute; reflexivity);
      assert (H4 : A4) by (cbn; lia);
      assert (H6 : A6) by (vm_compute; reflexivity);
      assert (H5 : A5)
  end.
  { intros [ | i] d Hd; cbn in Hd; try discriminate;
      injection Hd as <-; vm_compute; reflexivity. }
  split; [exact (conj H1 (conj H2 (conj H3 (conj H4 (conj H5 H6))))) | ].
  exact (verification_gives_up_on_missing_part (fun _ => "ffff")
           "/v2/a/blobs/sha256:0a1b" "6" _ 2 6 _ H1 H2 H3 H4 H5 H6).
Defined.

End VerifyWitnesses.

(** ** What a request does to the cache and to the client *)

Section StreamFacts.
Import Num Selector Paths Cache Forwarder.

Lemma tee_flat_w (data : list byte) (st : Copy) :
  w_of (tee_flat data st) = w_of st /\ builder (tee_flat data st) = builder st.
Proof. unfold tee_flat. destruct (cacheFile st) eqn:E; cbn; rewrite ?E; split; reflexivity. Qed.

Lemma tee_split_w (urlPath : string) (data : list byte) (st : Copy) :
  w_of (tee_split urlPath data st) = w_of st
  /\ builder (tee_split urlPath data st) = builder st.
Proof.
  unfold tee_split. destruct (cacheFile st) eqn:E; [ | cbn; split; reflexivity].
  destruct (chunkSize <? _); cbn; rewrite ?E; split; reflexivity.
Qed.

Lemma abort_w (urlPath : string) (st : Copy) :
  w_of (abort urlPath st) = w_of st /\ builder (abort urlPath st) = builder st.
Proof. unfold abort. destruct (shouldCache urlPath); split; reflexivity. Qed.

(** A path that is not cached: the loop leaves the file system alone. *)
Lemma copy_body_uncached (urlPath : string) (split : bool) :
  shouldCache urlPath = false ->
  forall (evs : list ReadEvent) (st : Copy),
  fs_of (snd (copy_body urlPath split evs st)) = fs_of st.
Proof.
  intros Hc. induction evs as [ | ev evs IH]; intros st; [reflexivity | ].
  cbn [copy_body]. rewrite Hc. unfold abort. rewrite Hc.
  destruct (0 <? Z.of_nat (length (rdata ev))), (wok ev), (rerr ev);
    cbn [andb negb snd fs_of]; try reflexivity;
    rewrite IH; reflexivity.
Qed.

Lemma stream_uncached (req : Request) (cacheFilePath : string) (StatusCode ContentLength : Z)
    (clh : string) (body : list ReadEvent) (r : Run) :
  shouldCache (URL_Path req) = false ->
  fs (snd (stream req cacheFilePath StatusCode ContentLength clh body r)) = fs r
  /\ verify (snd (stream req cacheFilePath StatusCode ContentLength clh body r)) = None.
Proof.
  intros Hc. unfold stream.
  pose proof (copy_body_uncached (URL_Path req) (100 * 1024 * 1024 <? ContentLength) Hc
                body (mkCopy (fs (WriteHeader StatusCode r)) (sent (WriteHeader StatusCode r))
                        [] None cacheFilePath 0 0)) as H.
  destruct (copy_body _ _ _ _) as [e c]. cbn [snd fs_of] in H.
  unfold write_record. rewrite Hc.
  destruct e; cbn; split; try exact H; reflexivity.
Qed.

Lemma attempt_loop_uncached (fuel : nat) (req : Request) (cacheFilePath : string) :
  shouldCache (URL_Path req) = false ->
  forall (script : list Upstream) (rnd : nat -> nat) (r : Run),
  fs (snd (attempt_loop fuel req cacheFilePath script rnd r)) = fs r
  /\ (verify r = None ->
      verify (snd (attempt_loop fuel req cacheFilePath script rnd r)) = None).
Proof.
  intros Hc. induction script as [ | up script IH]; intros rnd r;
    rewrite attempt_loop_eq; cbv zeta.
  - destruct (6 <=? _); [split; [reflexivity | intros H; exact H] | ].
    destruct (got _) as [t | ]; [ | split; [reflexivity | intros H; exact H]].
    destruct (String.eqb t ""); [split; [reflexivity | intros H; exact H] | ].
    destruct (Url.Parse t); split; try reflexivity; intros H; exact H.
  - destruct (6 <=? _); [split; [reflexivity | intros H; exact H] | ].
    destruct (got _) as [t | ]; [ | split; [reflexivity | intros H; exact H]].
    destruct (String.eqb t ""); [split; [reflexivity | intros H; exact H] | ].
    destruct (Url.Parse t) as [u | ]; [ | split; [reflexivity | intros H; exact H]].
    destruct up as [rt | rt sc cl clh body].
    + destruct (IH (fun k => rnd (k + S (resumes (Get fuel rnd (glourls (defer_tick r)))))%nat)
                  (count_attempt (with_glourls (after (Get fuel rnd (glourls (defer_tick r))))
                                    (defer_tick r)))) as [H1 H2].
      split; [rewrite H1; reflexivity | intros H; apply H2; exact H].
    + destruct (sc =? StatusNotFound).
      * match goal with
        | |- context [attempt_loop fuel req cacheFilePath script ?f ?s] =>
            destruct (IH f s) as [H1 H2]
        end.
        split; [rewrite H1; reflexivity | intros H; apply H2; exact H].
      * match goal with
        | |- context [stream req cacheFilePath sc cl clh body ?s] =>
            destruct (stream_uncached req cacheFilePath sc cl clh body s Hc) as [H1 H2]
        end.
        split; [rewrite H1; reflexivity | intros _; exact H2].
Qed.

(** X15. A request whose path is not a blob path never touches the
    cache: whatever the mirrors answer, after [proxyRequest] the cache
    directory is as it was and no verification has been started. *)
Theorem uncached_request_leaves_cache (fuel : nat) (req : Request)
    (script : list Upstream) (rnd : nat -> nat) (um : URLManager) (fs0 : FS) :
  shouldCache (URL_Path req) = false ->
  fs (snd (proxyRequest fuel req script rnd um fs0)) = fs0
  /\ verify (snd (proxyRequest fuel req script rnd um fs0)) = None.
Proof.
  intros Hc. unfold proxyRequest. rewrite Hc. cbv zeta. cbn [negb].
  destruct (attempt_loop_uncached fuel req (getCacheFilePath (URL_Path req)) Hc script rnd
              (mkRun um fs0 None [] 0 0 0 None)) as [H1 H2].
  destruct (attempt_loop _ _ _ _ _ _) as [e r]. cbn [snd fs verify] in *.
  destruct (has_returned e); cbn; split; try exact H1; apply H2; reflexivity.
Qed.

(** The cache side of one round in flat mode: the bytes are appended to
    the file at [cacheFilePath], created at the first round. *)
Lemma tee_flat_file (p : string) (fs0 : FS) (acc d : list byte) (st : Copy) :
  cacheFilePath st = p ->
  match acc with
  | [] => cacheFile st = None /\ fs_of st = fs0
  | _ => cacheFile st = Some p /\ fs_of st = <[p := acc]> fs0
  end ->
  cacheFile (tee_flat d st) = Some p
  /\ cacheFilePath (tee_flat d st) = p
  /\ fs_of (tee_flat d st) = <[p := (acc ++ d)%list]> fs0.
Proof.
  intros Hp Hinv. unfold tee_flat. destruct acc as [ | b acc].
  - destruct Hinv as [Hf Hfs]. rewrite Hf. cbn. rewrite Hp, Hfs.
    unfold Write, Create. rewrite alter_insert_eq. auto.
  - destruct Hinv as [Hf Hfs]. rewrite Hf. cbn. rewrite Hf, Hfs.
    unfold Write. rewrite alter_insert_eq. auto.
Qed.

(** A body read to its end in flat mode: the client has received every
    byte, and the file at [cacheFilePath] holds them, unless there was
    none.  The read that reports the end delivers no byte. *)
Lemma copy_flat_complete (urlPath p : string) (fs0 : FS) (lst : ReadEvent) :
  shouldCache urlPath = true -> rerr lst = ErrEOF -> rdata lst = [] ->
  forall (front : list ReadEvent) (acc : list byte) (st : Copy),
  Forall (fun ev => rerr ev = ErrNil /\ wok ev = true) front ->
  cacheFilePath st = p ->
  match acc with
  | [] => cacheFile st = None /\ fs_of st = fs0
  | _ => cacheFile st = Some p /\ fs_of st = <[p := acc]> fs0
  end ->
  fst (copy_body urlPath false (front ++ [lst]) st) = AtEOF
  /\ w_of (snd (copy_body urlPath false (front ++ [lst]) st))
     = (w_of st ++ concat (rdata <$> (front ++ [lst])))%list
  /\ cacheFilePath (snd (copy_body urlPath false (front ++ [lst]) st)) = p
  /\ fs_of (snd (copy_body urlPath false (front ++ [lst]) st))
     = match (acc ++ concat (rdata <$> (front ++ [lst])))%list with
       | [] => fs0
       | c => <[p := c]> fs0
       end.
Proof.
  intros Hc Heof Hlast.
  induction front as [ | ev front IH]; intros acc st Hfront Hp Hinv.
  - cbn [app copy_body fmap list_fmap concat]. rewrite Hc, Heof, Hlast.
    change (0 <? Z.of_nat (length (@nil byte))) with false.
    cbn [andb fst snd app]. rewrite !app_nil_r.
    split; [reflexivity | split; [reflexivity | ]].
    split; [exact Hp | ]. destruct acc; [apply Hinv | apply Hinv].
  - apply Forall_cons in Hfront as [[Hnil Hw] Hfront].
    cbn [app copy_body fmap list_fmap concat]. rewrite Hc, Hnil, Hw.
    destruct (rdata ev) as [ | b d] eqn:Hd.
    + cbn [length Z.of_nat Z.ltb Z.compare andb negb app].
      destruct (IH acc st Hfront Hp Hinv) as (H1 & H2 & H3 & H4).
      split; [exact H1 | split; [exact H2 | split; [exact H3 | exact H4]]].
    + change (0 <? Z.of_nat (length (b :: d))) with true. cbn [andb negb].
      destruct (tee_flat_file p fs0 acc (b :: d)
                  (mkCopy (fs_of st) (w_of st) (builder st ++ b :: d)%list (cacheFile st)
                     (cacheFilePath st) (part st) (totalReadSize st)) Hp Hinv)
        as (Hf' & Hp' & Hfs').
      rewrite (proj1 (tee_flat_w _ _)). cbn [w_of].
      match goal with
      | |- context [copy_body urlPath false (front ++ [lst]) ?s] =>
          destruct (IH (acc ++ b :: d)%list s Hfront Hp') as (H1 & H2 & H3 & H4)
      end.
      { cbn [cacheFile fs_of]. destruct acc; cbn [app]; split; assumption. }
      cbn [w_of] in H2.
      split; [exact H1 | split; [ | split; [exact H3 | ]]].
      * rewrite H2, <- app_assoc. reflexivity.
      * rewrite H4, <- app_assoc. reflexivity.
Qed.

(** The record file [serveFromCache] looks for is not the flat file. *)
Lemma record_of_flat_differs (urlPath h : string) :
  find_sha256 urlPath = Some h ->
  getRecordFilePath (getCacheFilePath urlPath) <> getCacheFilePath urlPath.
Proof.
  intros Hfind.
  pose proof (find_sha256_all_hex _ _ Hfind) as Hhex.
  assert (Hh : extractHashFromURL urlPath = h)
    by (unfold extractHashFromURL; rewrite Hfind; reflexivity).
  assert (Hp : getCacheFilePath urlPath = Join cacheDir (h ++ ".dat"))
    by (unfold getCacheFilePath; rewrite Hh; reflexivity).
  rewrite Hp.
  rewrite getRecordFilePath_cache_file by (try exact Hhex; reflexivity).
  intros H. apply Join_inj, append_inj_l in H. discriminate H.
Qed.

(** The streaming of a complete body of at most 100 MiB declared, for a
    blob path. *)
Lemma stream_flat_complete (req : Request) (p : string) (StatusCode ContentLength : Z)
    (clh : string) (front : list ReadEvent) (lst : ReadEvent) (r : Run) :
  shouldCache (URL_Path req) = true ->
  ContentLength <= 100 * 1024 * 1024 ->
  Forall (fun ev => rerr ev = ErrNil /\ wok ev = true) front ->
  rerr lst = ErrEOF -> rdata lst = [] ->
  stream req p StatusCode ContentLength clh (front ++ [lst])%list r
  = (Streamed AtEOF,
     mkRun (glourls r)
       (match concat (rdata <$> (front ++ [lst])%list) with
        | [] => fs r
        | c => <[p := c]> (fs r)
        end)
       (match status r with Some c => Some c | None => Some StatusCode end)
       (sent r ++ concat (rdata <$> (front ++ [lst])%list))%list
       (tickets r) (deferred r) (attempts r) (Some (p, clh))).
Proof.
  intros Hc Hcl Hfront Heof Hlast. unfold stream.
  assert (Hs : (100 * 1024 * 1024 <? ContentLength) = false) by (apply Z.ltb_ge; exact Hcl).
  rewrite Hs.
  destruct (copy_flat_complete (URL_Path req) p (fs r) lst Hc Heof Hlast front []
              (mkCopy (fs (WriteHeader StatusCode r)) (sent (WriteHeader StatusCode r))
                 [] None p 0 0) Hfront eq_refl (conj eq_refl eq_refl))
    as (H1 & H2 & H3 & H4).
  destruct (copy_body _ _ _ _) as [e c]. cbn [fst snd] in H1, H2, H3, H4. subst e.
  unfold write_record. rewrite Hc. cbn [andb].
  cbn [app] in H4. rewrite H2, H3, H4. reflexivity.
Qed.

(** In flat mode the loop writes to the file at [cacheFilePath] and to no
    other. *)
Lemma tee_flat_frame (d : list byte) (st : Copy) :
  cacheFile st = None \/ cacheFile st = Some (cacheFilePath st) ->
  cacheFile (tee_flat d st) = Some (cacheFilePath st)
  /\ cacheFilePath (tee_flat d st) = cacheFilePath st
  /\ delete (cacheFilePath st) (fs_of (tee_flat d st)) = delete (cacheFilePath st) (fs_of st).
Proof.
  intros [Hf | Hf]; unfold tee_flat; rewrite Hf;
    cbn [cacheFile cacheFilePath fs_of]; rewrite ?Hf; cbn [cacheFile cacheFilePath fs_of];
    unfold Write, Create.
  - rewrite delete_alter_eq, delete_insert_eq. auto.
  - rewrite delete_alter_eq. auto.
Qed.

Lemma copy_flat_returned (urlPath : string) :
  shouldCache urlPath = true ->
  forall (evs : list ReadEvent) (st : Copy),
  cacheFile st = None \/ cacheFile st = Some (cacheFilePath st) ->
  fst (copy_body urlPath false evs st) = Returned ->
  fs_of (snd (copy_body urlPath false evs st)) = delete (cacheFilePath st) (fs_of st).
Proof.
  intros Hc. induction evs as [ | ev evs IH]; intros st Hinv; [discriminate | ].
  cbn [copy_body]. rewrite Hc. unfold abort. rewrite Hc.
  destruct (rdata ev) as [ | b d] eqn:Hd.
  - cbn [length Z.of_nat Z.ltb Z.compare andb].
    destruct (rerr ev); cbn [fst snd]; intros H; try discriminate.
    + apply IH; assumption.
    + reflexivity.
  - change (0 <? Z.of_nat (length (b :: d))) with true. cbn [andb].
    destruct (tee_flat_frame (b :: d)
                (mkCopy (fs_of st) (w_of st) (builder st ++ b :: d)%list (cacheFile st)
                   (cacheFilePath st) (part st) (totalReadSize st)) Hinv)
      as (Hf & Hp & Hfs).
    cbn [cacheFilePath fs_of] in Hf, Hp, Hfs.
    destruct (wok ev); cbn [negb fst snd].
    + destruct (rerr ev); cbn [fst snd]; intros H; try discriminate.
      * rewrite IH; [ | cbn [cacheFile cacheFilePath]; right; congruence | exact H].
        cbn [cacheFilePath fs_of]. rewrite Hp. exact Hfs.
      * unfold with_fs. cbn [fs_of cacheFilePath]. rewrite Hp. exact Hfs.
    + intros _. unfold with_fs. cbn [fs_of cacheFilePath]. rewrite Hp. exact Hfs.
Qed.

(** X17. A fetch in flat mode that is cut short, by a failing read of the
    upstream body or a failing write to the client, leaves no file for
    the key: after [proxyRequest]'s streaming the cache directory is the
    one before it with the flat file removed, and no verification is
    started.  A read that reports an error or the end delivers no
    byte. *)
Theorem aborted_fetch_leaves_no_flat_file (req : Request) (p : string)
    (StatusCode ContentLength : Z) (clh : string) (body : list ReadEvent) (r : Run) :
  shouldCache (URL_Path req) = true ->
  ContentLength <= 100 * 1024 * 1024 ->
  Forall (fun ev => rerr ev <> ErrNil -> rdata ev = []) body ->
  fst (stream req p StatusCode ContentLength clh body r) = Streamed Returned ->
  fs (snd (stream req p StatusCode ContentLength clh body r)) = Remove p (fs r)
  /\ verify (snd (stream req p StatusCode ContentLength clh body r)) = None.
Proof.
  intros Hc Hcl _. unfold stream.
  assert (Hs : (100 * 1024 * 1024 <? ContentLength) = false) by (apply Z.ltb_ge; exact Hcl).
  rewrite Hs.
  pose proof (copy_flat_returned (URL_Path req) Hc body
                (mkCopy (fs (WriteHeader StatusCode r)) (sent (WriteHeader StatusCode r))
                   [] None p 0 0) (or_introl eq_refl)) as H.
  destruct (copy_body _ _ _ _) as [e c]. cbn [fst snd] in H.
  destruct e; cbn [fst snd fs verify]; intros He; try discriminate.
  split; [ | reflexivity]. apply H. reflexivity.
Qed.

Lemma uncached_request_leaves_cache_witness :
  let req := mkRequest "GET" "/v2/library/nginx/manifests/latest" "" in
  let script := [DoResponse 1%float 200 2 "2" [mkRead [x01; x02] ErrEOF true]] in
  let fs0 : FS := <["cache/0a1b.dat" := [x00]]> ∅ in
  shouldCache (URL_Path req) = false
  /\ fs (snd (proxyRequest 1 req script (fun _ => O) main_urls fs0)) = fs0
  /\ verify (snd (proxyRequest 1 req script (fun _ => O) main_urls fs0)) = None.
Proof.
  cbv zeta.
  assert (H : shouldCache (URL_Path (mkRequest "GET" "/v2/library/nginx/manifests/latest" ""))
              = false) by (vm_compute; reflexivity).
  split; [exact H | ].
  exact (uncached_request_leaves_cache 1 _ _ (fun _ => O) main_urls _ H).
Defined.

Lemma aborted_fetch_leaves_no_flat_file_witness :
  let p := getCacheFilePath (URL_Path blob_request) in
  let body := [mkRead [x01; x02] ErrNil true; mkRead [] ErrOther true] in
  let r := mkRun main_urls ∅ None [] 0 1 1 None in
  (shouldCache (URL_Path blob_request) = true
   /\ 3 <= 100 * 1024 * 1024
   /\ Forall (fun ev => rerr ev <> ErrNil -> rdata ev = []) body
   /\ fst (stream blob_request p 200 3 "3" body r) = Streamed Returned)
  /\ fs (snd (stream blob_request p 200 3 "3" body r)) = Remove p (fs r)
  /\ verify (snd (stream blob_request p 200 3 "3" body r)) = None.
Proof.
  cbv zeta.
  match goal with
  | |- (?A1 /\ ?A2 /\ ?A3 /\ ?A4) /\ _ =>
      assert (H1 : A1) by (vm_compute; reflexivity);
      assert (H2 : A2) by lia;
      assert (H3 : A3)
        by (repeat (apply Forall_cons_2; [cbn; intros H; congruence | ]);
            apply Forall_nil_2);
      assert (H4 : A4) by (vm_compute; reflexivity)
  end.
  split; [repeat apply conj; assumption | ].
  exact (aborted_fetch_leaves_no_flat_file blob_request _ 200 3 "3" _ _ H1 H2 H3 H4).
Defined.

End StreamFacts.

(** ** What the client receives *)

Section ClientFacts.
Import Num Selector Paths Cache Forwarder.

(** The cache side of a round leaves the response alone. *)
Lemma tee_w (urlPath : string) (split : bool) (data : list byte) (st : Copy) :
  w_of (if shouldCache urlPath
        then if split then tee_split urlPath data st else tee_flat data st
        else st) = w_of st.
Proof.
  destruct (shouldCache urlPath); [ | reflexivity].
  destruct split; [apply tee_split_w | apply tee_flat_w].
Qed.

Lemma copy_body_sent_prefix (urlPath : string) (split : bool) :
  forall (evs : list ReadEvent) (st : Copy),
  exists l : list byte,
    l `prefix_of` concat (rdata <$> evs)
    /\ w_of (snd (copy_body urlPath split evs st)) = (w_of st ++ l)%list.
Proof.
  induction evs as [ | ev evs IH]; intros st.
  - exists []. split; [apply prefix_nil | cbn; rewrite app_nil_r; reflexivity].
  - cbn [copy_body fmap list_fmap concat].
    destruct (rdata ev) as [ | b d] eqn:Hd.
    + change (0 <? Z.of_nat (length (@nil byte))) with false. cbn [andb app].
      destruct (rerr ev); cbn [snd].
      * apply IH.
      * exists []. split; [apply prefix_nil | rewrite app_nil_r; reflexivity].
      * exists []. split; [apply prefix_nil | ].
        rewrite (proj1 (abort_w _ _)), app_nil_r. reflexivity.
    + change (0 <? Z.of_nat (length (b :: d))) with true. cbn [andb].
      destruct (wok ev); cbn [negb].
      * destruct (rerr ev); cbn [snd].
        -- match goal with
           | |- context [copy_body urlPath split evs ?s] => destruct (IH s) as (l & Hl & Hw)
           end.
           exists ((b :: d) ++ l)%list. split; [apply prefix_app, Hl | ].
           rewrite Hw. cbn [w_of]. rewrite tee_w. cbn [w_of].
           rewrite <- app_assoc. reflexivity.
        -- exists (b :: d). split; [apply prefix_app_r; reflexivity | ].
           cbn [w_of]. rewrite tee_w. reflexivity.
        -- exists (b :: d). split; [apply prefix_app_r; reflexivity | ].
           rewrite (proj1 (abort_w _ _)). cbn [w_of]. rewrite tee_w. reflexivity.
      * exists []. split; [apply prefix_nil | ].
        cbn [snd]. rewrite (proj1 (abort_w _ _)), tee_w, app_nil_r. reflexivity.
Qed.

Lemma copy_body_complete (urlPath : string) (split : bool) (lst : ReadEvent) :
  rerr lst = ErrEOF -> rdata lst = [] ->
  forall (front : list ReadEvent) (st : Copy),
  Forall (fun ev => rerr ev = ErrNil /\ wok ev = true) front ->
  fst (copy_body urlPath split (front ++ [lst]) st) = AtEOF
  /\ w_of (snd (copy_body urlPath split (front ++ [lst]) st))
     = (w_of st ++ concat (rdata <$> (front ++ [lst])))%list.
Proof.
  intros Heof Hlast. induction front as [ | ev front IH]; intros st Hfront.
  - cbn [app copy_body fmap list_fmap concat]. rewrite Heof, Hlast.
    change (0 <? Z.of_nat (length (@nil byte))) with false. cbn [andb fst snd app].
    rewrite app_nil_r. split; reflexivity.
  - apply Forall_cons in Hfront as [[Hnil Hw] Hfront].
    cbn [app copy_body fmap list_fmap concat]. rewrite Hnil, Hw.
    destruct (rdata ev) as [ | b d] eqn:Hd.
    + change (0 <? Z.of_nat (length (@nil byte))) with false. cbn [andb negb app]. apply IH, Hfront.
    + change (0 <? Z.of_nat (length (b :: d))) with true. cbn [andb negb].
      match goal with
      | |- context [copy_body urlPath split (front ++ [lst]) ?s] =>
          destruct (IH s Hfront) as [H1 H2]
      end.
      split; [exact H1 | ]. rewrite H2. cbn [w_of]. rewrite tee_w. cbn [w_of].
      rewrite <- app_assoc. reflexivity.
Qed.

(** X18. What the client receives of an upstream response, when a read
    that reports an error or the end delivers no byte.  Whatever the
    path, the declared length and the course of the reads and writes,
    the bytes sent are a prefix of the bytes read from the upstream body,
    after what was sent before; and when every write succeeds and the
    body is read to its end, they are all of them. *)
Theorem client_receives_what_was_read (req : Request) (p : string)
    (StatusCode ContentLength : Z) (clh : string) (body : list ReadEvent) (r : Run) :
  Forall (fun ev => rerr ev <> ErrNil -> rdata ev = []) body ->
  (exists l : list byte,
     l `prefix_of` concat (rdata <$> body)
     /\ sent (snd (stream req p StatusCode ContentLength clh body r)) = (sent r ++ l)%list)
  /\ (forall (front : list ReadEvent) (lst : ReadEvent),
        body = (front ++ [lst])%list ->
        Forall (fun ev => rerr ev = ErrNil /\ wok ev = true) front ->
        rerr lst = ErrEOF ->
        fst (stream req p StatusCode ContentLength clh body r) = Streamed AtEOF
        /\ sent (snd (stream req p StatusCode ContentLength clh body r))
           = (sent r ++ concat (rdata <$> body))%list).
Proof.
  intros Hbody.
  assert (Hrec : forall split c, w_of (write_record (URL_Path req) split c) = w_of c).
  { intros split c. unfold write_record. destruct (_ && _); reflexivity. }
  split.
  - unfold stream.
    destruct (copy_body_sent_prefix (URL_Path req) (100 * 1024 * 1024 <? ContentLength) body
                (mkCopy (fs (WriteHeader StatusCode r)) (sent (WriteHeader StatusCode r))
                   [] None p 0 0)) as (l & Hl & Hw).
    exists l. split; [exact Hl | ].
    destruct (copy_body _ _ _ _) as [e c]. cbn [snd w_of] in Hw.
    destruct e; cbn [snd sent]; rewrite ?Hrec; exact Hw.
  - intros front lst -> Hfront Heof.
    assert (Hlast : rdata lst = []).
    { apply Forall_app in Hbody as [_ Hl]. apply Forall_cons in Hl as [Hl _].
      apply Hl. rewrite Heof. discriminate. }
    unfold stream.
    destruct (copy_body_complete (URL_Path req) (100 * 1024 * 1024 <? ContentLength) lst
                Heof Hlast front
                (mkCopy (fs (WriteHeader StatusCode r)) (sent (WriteHeader StatusCode r))
                   [] None p 0 0) Hfront) as [H1 H2].
    destruct (copy_body _ _ _ _) as [e c]. cbn [fst snd w_of] in H1, H2. subst e.
    cbn [fst snd sent]. rewrite Hrec. split; [reflexivity | exact H2].
Qed.

Lemma client_receives_what_was_read_witness :
  let body := [mkRead [x01; x02] ErrNil true; mkRead [] ErrEOF true] in
  let r := mkRun main_urls ∅ None [] 0 1 1 None in
  Forall (fun ev => rerr ev <> ErrNil -> rdata ev = []) body
  /\ fst (stream blob_request (getCacheFilePath (URL_Path blob_request)) 200 2 "2" body r)
     = Streamed AtEOF
  /\ sent (snd (stream blob_request (getCacheFilePath (URL_Path blob_request)) 200 2 "2"
                  body r)) = [x01; x02].
Proof.
  cbv zeta.
  match goal with
  | |- ?A1 /\ _ =>
      assert (H1 : A1)
        by (repeat (apply Forall_cons_2; [cbn; intros H; congruence | ]);
            apply Forall_nil_2)
  end.
  split; [exact H1 | ].
  destruct (client_receives_what_was_read blob_request
              (getCacheFilePath (URL_Path blob_request)) 200 2 "2" _
              (mkRun main_urls ∅ None [] 0 1 1 None) H1) as [_ H].
  apply (H [mkRead [x01; x02] ErrNil true] (mkRead [] ErrEOF true));
    [reflexivity | repeat constructor | reflexivity].
Defined.

End ClientFacts.

(** ** The rate limiter *)

Section LimiterFacts.
Import Num Limiter.

Lemma rateLimiter_refuses (ip : string) (c : Clock) (st : State) (e : Z) :
  blacklist st !! ip = Some e -> at_check c < e ->
  rateLimiter ip c st = (Forbidden, st).
Proof.
  intros Hb Hlt. unfold rateLimiter. rewrite Hb. unfold Before.
  rewrite (proj2 (Z.ltb_lt _ _) Hlt). reflexivity.
Qed.

(** A request of one address leaves the entries of the others alone. *)
Lemma rateLimiter_frame (ip ip' : string) (c : Clock) (st : State) :
  ip <> ip' ->
  requestCounts (snd (rateLimiter ip c st)) !! ip' = requestCounts st !! ip'
  /\ blacklist (snd (rateLimiter ip c st)) !! ip' = blacklist st !! ip'.
Proof.
  intros Hne. unfold rateLimiter.
  destruct (blacklist st !! ip) as [e | ] eqn:Hb.
  - destruct (Before (at_check c) e); [split; reflexivity | ].
    cbv zeta. destruct (requestLimit <? _); cbn [snd requestCounts blacklist].
    + rewrite !lookup_insert_ne, lookup_delete_ne by exact Hne. split; reflexivity.
    + rewrite lookup_insert_ne, lookup_delete_ne by exact Hne. split; reflexivity.
  - cbv zeta. destruct (requestLimit <? _); cbn [snd requestCounts blacklist].
    + rewrite !lookup_insert_ne by exact Hne. split; reflexivity.
    + rewrite lookup_insert_ne by exact Hne. split; reflexivity.
Qed.

Lemma rateLimiter_blacklists (ip : string) (c : Clock) (st : State) :
  fst (rateLimiter ip c st) = TooManyRequests ->
  blacklist (snd (rateLimiter ip c st)) !! ip = Some (Add (at_store c) blacklistTime).
Proof.
  unfold rateLimiter.
  destruct (blacklist st !! ip) as [e | ] eqn:Hb.
  - destruct (Before (at_check c) e); [discriminate | ].
    cbv zeta. destruct (requestLimit <? _); [ | discriminate].
    intros _. cbn [snd blacklist]. apply lookup_insert_eq.
  - cbv zeta. destruct (requestLimit <? _); [ | discriminate].
    intros _. cbn [snd blacklist]. apply lookup_insert_eq.
Qed.

(** While an address is on the blacklist, every request of it is
    refused, whatever the requests of other addresses in between. *)
Lemma serve_blacklisted (ip : string) (e : Z) :
  forall (reqs : list (string * Clock)) (st : State),
  blacklist st !! ip = Some e ->
  (forall c, (ip, c) ∈ reqs -> at_check c < e) ->
  forall (i : nat) (c : Clock),
  reqs !! i = Some (ip, c) -> fst (serve reqs st) !! i = Some Forbidden.
Proof.
  induction reqs as [ | [ip0 c0] reqs IH]; intros st Hb Hlt i c Hi; [discriminate | ].
  cbn [serve].
  destruct (rateLimiter ip0 c0 st) as [a st1] eqn:Hr.
  destruct (serve reqs st1) as [l st2] eqn:Hs. cbn [fst].
  assert (Hb1 : blacklist st1 !! ip = Some e).
  { destruct (decide (ip0 = ip)) as [-> | Hne].
    - rewrite (rateLimiter_refuses ip c0 st e Hb) in Hr
        by (apply Hlt, list_elem_of_here).
      injection Hr as _ <-. exact Hb.
    - pose proof (proj2 (rateLimiter_frame ip0 ip c0 st Hne)) as H.
      rewrite Hr in H. cbn [snd] in H. rewrite H. exact Hb. }
  destruct i as [ | i].
  - cbn in Hi. injection Hi as -> ->. cbn.
    rewrite (rateLimiter_refuses ip c st e Hb) in Hr by (apply Hlt, list_elem_of_here).
    injection Hr as <- _. reflexivity.
  - cbn in Hi. cbn [lookup list_lookup].
    pose proof (IH st1 Hb1 (fun c1 H1 => Hlt c1 (list_elem_of_further _ _ _ H1)) i c Hi) as H.
    rewrite Hs in H. exact H.
Qed.

(** X20. An address that is answered 429 is refused for an hour: from
    then on every request of it that is checked before the time stored
    plus [blacklistTime] is answered 403, whatever requests of other
    addresses come in between. *)
Theorem blacklisted_address_is_refused (ip : string) (c : Clock) (st : State)
    (reqs : list (string * Clock)) (i : nat) (c' : Clock) :
  fst (rateLimiter ip c st) = TooManyRequests ->
  (forall c1, (ip, c1) ∈ reqs -> at_check c1 < Add (at_store c) blacklistTime) ->
  reqs !! i = Some (ip, c') ->
  fst (serve reqs (snd (rateLimiter ip c st))) !! i = Some Forbidden.
Proof.
  intros H429 Hlt Hi.
  exact (serve_blacklisted ip _ reqs _ (rateLimiter_blacklists ip c st H429) Hlt i c' Hi).
Qed.

(** X21. A request of one address changes nothing for another: its
    counts and its entry on the blacklist stay, and the answer to a
    request depends on the entries of its own address only. *)
Theorem limiter_is_per_address (ip ip' : string) (c : Clock) (st st' : State) :
  (ip <> ip' ->
   requestCounts (snd (rateLimiter ip c st)) !! ip' = requestCounts st !! ip'
   /\ blacklist (snd (rateLimiter ip c st)) !! ip' = blacklist st !! ip')
  /\ (requestCounts st !! ip = requestCounts st' !! ip ->
      blacklist st !! ip = blacklist st' !! ip ->
      fst (rateLimiter ip c st) = fst (rateLimiter ip c st')).
Proof.
  split; [apply rateLimiter_frame | ].
  intros Hc Hb. unfold rateLimiter. rewrite <- Hb, <- Hc.
  destruct (blacklist st !! ip) as [e | ].
  - destruct (Before (at_check c) e); [reflexivity | ].
    cbv zeta. destruct (requestLimit <? _); reflexivity.
  - cbv zeta. destruct (requestLimit <? _); reflexivity.
Qed.

(** X22. The cleanup of the blacklist drops the entries whose time has
    passed and no other, and it changes no answer: a request checked at
    or after the time of the cleanup is answered as it would have been
    without it. *)
Theorem cleanup_changes_no_answer (now : Z) (ip : string) (c : Clock) (st : State) :
  (forall e, blacklist (cleanupBlacklist now st) !! ip = Some e
             <-> blacklist st !! ip = Some e /\ now <= e)
  /\ requestCounts (cleanupBlacklist now st) = requestCounts st
  /\ (now <= at_check c ->
      fst (rateLimiter ip c (cleanupBlacklist now st)) = fst (rateLimiter ip c st)).
Proof.
  assert (Hclean : forall e, blacklist (cleanupBlacklist now st) !! ip = Some e
                             <-> blacklist st !! ip = Some e /\ now <= e).
  { intros e. unfold cleanupBlacklist. cbn [blacklist].
    rewrite map_lookup_filter_Some. cbn [snd]. unfold Before.
    rewrite Z.ltb_ge. reflexivity. }
  split; [exact Hclean | split; [reflexivity | ]].
  intros Hnow. unfold rateLimiter.
  change (requestCounts (cleanupBlacklist now st)) with (requestCounts st).
  destruct (blacklist (cleanupBlacklist now st) !! ip) as [e | ] eqn:Hb.
  - destruct (proj1 (Hclean e) eq_refl) as [Hb0 He]. rewrite Hb0.
    destruct (Before (at_check c) e); [reflexivity | ].
    cbv zeta. destruct (requestLimit <? _); reflexivity.
  - destruct (blacklist st !! ip) as [e | ] eqn:Hb0.
    + assert (He : e < now).
      { destruct (Z_lt_le_dec e now) as [H | H]; [exact H | ].
        discriminate (proj2 (Hclean e) (conj eq_refl H)). }
      unfold Before. rewrite (proj2 (Z.ltb_ge (at_check c) e)) by lia.
      cbv zeta. destruct (requestLimit <? _); reflexivity.
    + cbv zeta. destruct (requestLimit <? _); reflexivity.
Qed.

(** A request of an address that is not on the blacklist, with [k]
    requests counted in its second. *)
Lemma rateLimiter_passes (ip : string) (c : Clock) (st : State) (k : Z) :
  blacklist st !! ip = None ->
  count_at ip (Unix (at_count c)) st = k -> 0 <= k < requestLimit ->
  fst (rateLimiter ip c st) = Next
  /\ blacklist (snd (rateLimiter ip c st)) !! ip = None
  /\ count_at ip (Unix (at_count c)) (snd (rateLimiter ip c st)) = k + 1.
Proof.
  intros Hb Hk Hr. unfold requestLimit in Hr. unfold rateLimiter. rewrite Hb. cbv zeta.
  unfold count_at in Hk. rewrite Hk.
  rewrite wrap64_id by (unfold in_int64, MinInt64, MaxInt64; lia).
  unfold requestLimit. rewrite (proj2 (Z.ltb_ge 5 (k + 1))) by lia.
  cbn [fst snd blacklist]. split; [reflexivity | split; [exact Hb | ]].
  unfold count_at. cbn [requestCounts]. rewrite lookup_insert_eq. cbn [default].
  unfold id.
  rewrite (proj2 (map_lookup_filter_Some _ _ (Unix (at_count c)) (k + 1))); [reflexivity | ].
  split; [apply lookup_insert_eq | cbn [fst]; apply Z.ltb_irrefl].
Qed.

Lemma rateLimiter_limit (ip : string) (c : Clock) (st : State) (k : Z) :
  blacklist st !! ip = None ->
  count_at ip (Unix (at_count c)) st = k -> requestLimit <= k < MaxInt64 ->
  fst (rateLimiter ip c st) = TooManyRequests.
Proof.
  intros Hb Hk Hr. unfold requestLimit in Hr. unfold rateLimiter. rewrite Hb. cbv zeta.
  unfold count_at in Hk. rewrite Hk.
  rewrite wrap64_id by (unfold in_int64, MinInt64, MaxInt64 in *; lia).
  unfold requestLimit. rewrite (proj2 (Z.ltb_lt 5 (k + 1))) by lia. reflexivity.
Qed.

Lemma serve_refused (ip : string) (e : Z) :
  forall (cs : list Clock) (st : State),
  blacklist st !! ip = Some e ->
  (forall c, c ∈ cs -> at_check c < e) ->
  fst (serve (pair ip <$> cs) st) = replicate (length cs) Forbidden.
Proof.
  induction cs as [ | c cs IH]; intros st Hb Hlt; [reflexivity | ].
  cbn [fmap list_fmap serve length replicate].
  rewrite (rateLimiter_refuses ip c st e Hb) by (apply Hlt, list_elem_of_here).
  pose proof (IH st Hb (fun c1 H1 => Hlt c1 (list_elem_of_further _ _ _ H1))) as H.
  destruct (serve (pair ip <$> cs) st) as [l st2]. cbn [fst] in *. rewrite H. reflexivity.
Qed.

Lemma serve_burst (ip : string) (s : Z) :
  forall (cs : list Clock) (k : nat) (st : State),
  blacklist st !! ip = None ->
  count_at ip s st = Z.of_nat k -> (k <= 5)%nat ->
  Forall (fun c => Unix (at_count c) = s) cs ->
  (forall c c', c ∈ cs -> c' ∈ cs -> at_check c' < Add (at_store c) blacklistTime) ->
  fst (serve (pair ip <$> cs) st)
  = (replicate (min (5 - k) (length cs)) Next
     ++ replicate (min 1 (length cs - (5 - k))) TooManyRequests
     ++ replicate (length cs - (6 - k)) Forbidden)%list.
Proof.
  induction cs as [ | c cs IH]; intros k st Hb Hk Hle Hs Hlt.
  - cbn. rewrite Nat.min_0_r. reflexivity.
  - apply Forall_cons in Hs as [Hc Hs].
    cbn [fmap list_fmap serve length].
    destruct (decide (k = 5)%nat) as [-> | Hne].
    + assert (H429 : fst (rateLimiter ip c st) = TooManyRequests).
      { apply (rateLimiter_limit ip c st 5 Hb); [rewrite Hc; exact Hk | ].
        unfold requestLimit, MaxInt64. lia. }
      pose proof (rateLimiter_blacklists ip c st H429) as Hb1.
      destruct (rateLimiter ip c st) as [a st1]. cbn [fst snd] in H429, Hb1. subst a.
      pose proof (serve_refused ip _ cs st1 Hb1
                    (fun c1 H1 => Hlt c c1 (list_elem_of_here _ _)
                                    (list_elem_of_further _ _ _ H1))) as H.
      destruct (serve (pair ip <$> cs) st1) as [l st2]. cbn [fst] in *. rewrite H.
      cbn. rewrite Nat.sub_0_r. reflexivity.
    + destruct (rateLimiter_passes ip c st (Z.of_nat k) Hb) as (Ha & Hb1 & Hk1);
        [rewrite Hc; exact Hk | unfold requestLimit; lia | ].
      rewrite Hc in Hk1.
      destruct (rateLimiter ip c st) as [a st1]. cbn [fst snd] in Ha, Hb1, Hk1. subst a.
      pose proof (IH (S k) st1 Hb1) as H.
      rewrite Nat2Z.inj_succ in H.
      specialize (H ltac:(lia) ltac:(lia) Hs
                    (fun c1 c2 H1 H2 => Hlt c1 c2 (list_elem_of_further _ _ _ H1)
                                          (list_elem_of_further _ _ _ H2))).
      destruct (serve (pair ip <$> cs) st1) as [l st2]. cbn [fst] in *. rewrite H.
      replace (5 - k)%nat with (S (5 - S k)) by lia.
      cbn [min Nat.min replicate app].
      replace (S (length cs) - S (5 - S k))%nat with (length cs - (5 - S k))%nat by lia.
      replace (S (length cs) - (6 - k))%nat with (length cs - (6 - S k))%nat by lia.
      reflexivity.
Qed.

(** X23. A burst is cut at the limit.  For an address that is neither
    counted nor on the blacklist, requests that fall in one second and
    within an hour of each other: the first five are passed on, the sixth
    is answered 429 and every later one 403. *)
Theorem burst_is_cut_at_the_limit (ip : string) (s : Z) (cs : list Clock) (st : State) :
  requestCounts st !! ip = None ->
  blacklist st !! ip = None ->
  Forall (fun c => Unix (at_count c) = s) cs ->
  (forall c c', c ∈ cs -> c' ∈ cs -> at_check c' < Add (at_store c) blacklistTime) ->
  fst (serve (pair ip <$> cs) st)
  = (replicate (min 5 (length cs)) Next
     ++ replicate (min 1 (length cs - 5)) TooManyRequests
     ++ replicate (length cs - 6) Forbidden)%list.
Proof.
  intros Hc Hb Hs Hlt.
  apply (serve_burst ip s cs O st Hb); [ | lia | exact Hs | exact Hlt].
  unfold count_at. rewrite Hc. reflexivity.
Qed.

Lemma blacklisted_address_is_refused_witness :
  let ip := "10.0.0.1:5000" in
  let st := mkState (<[ip := <[0 := 5]> ∅]> ∅) ∅ in
  let c := mkClock 0 0 0 in
  let reqs := [("10.0.0.2:6000", mkClock 1 1 1); (ip, mkClock 2 2 2)] in
  (fst (rateLimiter ip c st) = TooManyRequests
   /\ (forall c1, (ip, c1) ∈ reqs -> at_check c1 < Add (at_store c) blacklistTime)
   /\ reqs !! 1%nat = Some (ip, mkClock 2 2 2))
  /\ fst (serve reqs (snd (rateLimiter ip c st))) !! 1%nat = Some Forbidden.
Proof.
  cbv zeta.
  match goal with
  | |- (?A1 /\ ?A2 /\ ?A3) /\ _ =>
      assert (H1 : A1) by (vm_compute; reflexivity);
      assert (H3 : A3) by reflexivity;
      assert (H2 : A2)
  end.
  { intros c1 H. apply elem_of_cons in H as [H | H]; [discriminate H | ].
    apply list_elem_of_singleton in H. injection H as ->. vm_compute. reflexivity. }
  split; [split; [exact H1 | split; [exact H2 | exact H3]] | ].
  exact (blacklisted_address_is_refused _ _ _ _ 1%nat _ H1 H2 H3).
Defined.

Lemma burst_is_cut_at_the_limit_witness :
  let ip := "10.0.0.1:5000" in
  let cs := replicate 7 (mkClock 1500000000 1500000001 1500000002) in
  let st := mkState ∅ ∅ in
  (requestCounts st !! ip = None
   /\ blacklist st !! ip = None
   /\ Forall (fun c => Unix (at_count c) = 1) cs
   /\ (forall c c', c ∈ cs -> c' ∈ cs -> at_check c' < Add (at_store c) blacklistTime))
  /\ fst (serve (pair ip <$> cs) st)
     = [Next; Next; Next; Next; Next; TooManyRequests; Forbidden].
Proof.
  cbv zeta.
  match goal with
  | |- (?A1 /\ ?A2 /\ ?A3 /\ ?A4) /\ _ =>
      assert (H1 : A1) by reflexivity;
      assert (H2 : A2) by reflexivity;
      assert (H3 : A3) by (repeat constructor);
      assert (H4 : A4)
  end.
  { intros c c' Hc Hc'. apply elem_of_replicate_inv in Hc, Hc'. subst c c'.
    vm_compute. reflexivity. }
  split; [split; [exact H1 | split; [exact H2 | split; [exact H3 | exact H4]]] | ].
  exact (burst_is_cut_at_the_limit _ 1 _ _ H1 H2 H3 H4).
Defined.

End LimiterFacts.

(** ** The size of the parts *)

Section ChunkFacts.
Import Num Paths Cache Forwarder Chunks.

Lemma part_names_inj (urlPath : string) (i j : Z) :
  getCacheFilePathWithPart urlPath i = getCacheFilePathWithPart urlPath j -> i = j.
Proof.
  unfold getCacheFilePathWithPart. intros H.
  apply Join_inj, append_inj_l, (append_inj_l "_part_"), append_inj_r in H.
  apply fmt_d_inj, H.
Qed.

Lemma part_inv_bounded (urlPath : string) (fs0 fs1 : FS) (cf : option string)
    (part total : Z) :
  part_inv urlPath fs0 fs1 cf part total -> parts_bounded urlPath fs0 fs1.
Proof.
  intros (Hp & Ht & Hcf & Hlow & Hout) i d Hi.
  destruct (Z_lt_le_dec i 0) as [Hneg | Hpos].
  - right. rewrite <- Hout by (left; exact Hneg). exact Hi.
  - destruct (Z_lt_le_dec i part) as [Hlt | Hge].
    + left. apply (Hlow i d); [lia | exact Hi].
    + right. rewrite <- Hout by (right; exact Hge). exact Hi.
Qed.

Lemma parts_bounded_Remove (urlPath q : string) (fs0 fs1 : FS) :
  parts_bounded urlPath fs0 fs1 -> parts_bounded urlPath fs0 (Remove q fs1).
Proof.
  intros H i d Hi. unfold Remove in Hi.
  apply lookup_delete_Some in Hi as [_ Hi]. apply (H i d Hi).
Qed.

(** The cache side of one round keeps the invariant, for a read of at
    most [bufSize] bytes. *)
Lemma tee_split_inv (urlPath : string) (fs0 : FS) (data : list byte) (st : Copy) :
  part_inv urlPath fs0 (fs_of st) (cacheFile st) (part st) (totalReadSize st) ->
  Z.of_nat (length data) <= bufSize ->
  part st < MaxInt64 ->
  part_inv urlPath fs0 (fs_of (tee_split urlPath data st))
    (cacheFile (tee_split urlPath data st)) (part (tee_split urlPath data st))
    (totalReadSize (tee_split urlPath data st))
  /\ part (tee_split urlPath data st) <= part st + 1.
Proof.
  intros (Hp & Ht & Hcf & Hlow & Hout) Hn Hmax.
  assert (Hbuf : bufSize = 65536) by reflexivity.
  assert (Hchunk : chunkSize = 104857600) by reflexivity.
  assert (Hw : wrap64 (totalReadSize st + Z.of_nat (length data))
               = totalReadSize st + Z.of_nat (length data)).
  { apply wrap64_id. unfold in_int64, MinInt64, MaxInt64. lia. }
  assert (Hw0 : wrap64 (0 + Z.of_nat (length data)) = Z.of_nat (length data)).
  { apply wrap64_id. unfold in_int64, MinInt64, MaxInt64. lia. }
  assert (Hw1 : wrap64 (part st + 1) = part st + 1).
  { apply wrap64_id. unfold in_int64, MinInt64, MaxInt64 in *. lia. }
  assert (Hrot : forall total,
             total = 0 ->
             let path := getCacheFilePathWithPart urlPath (part st) in
             part_inv urlPath fs0 (Write path data (Create path (fs_of st))) (Some path)
               (part st + 1) (wrap64 (total + Z.of_nat (length data)))).
  { intros total -> path. rewrite Hw0. unfold Write, Create. rewrite alter_insert_eq.
    cbn [app].
    split; [lia | split; [lia | split; [ | split]]].
    - split; [unfold path; f_equal; lia | split; [lia | ]].
      exists data. split; [apply lookup_insert_eq | reflexivity].
    - intros i d Hi Hd. destruct (decide (i = part st)) as [-> | Hne].
      + fold path in Hd. rewrite lookup_insert_eq in Hd. injection Hd as <-. lia.
      + rewrite lookup_insert_ne in Hd
          by (unfold path; intros E; apply part_names_inj in E; congruence).
        apply (Hlow i d); [lia | exact Hd].
    - intros i Hi. rewrite lookup_insert_ne
        by (unfold path; intros E; apply part_names_inj in E; lia).
      apply Hout. lia. }
  unfold tee_split. destruct (cacheFile st) as [f | ] eqn:Hf.
  - destruct Hcf as (Hfp & Hpos & d0 & Hd0 & Hlen).
    rewrite Hw.
    destruct (chunkSize <? totalReadSize st + Z.of_nat (length data)) eqn:Hover.
    + cbn [cacheFile fs_of part totalReadSize]. rewrite Hw1.
      split; [apply Hrot; reflexivity | lia].
    + apply Z.ltb_ge in Hover. rewrite ?Hf.
      cbn [cacheFile fs_of part totalReadSize]. rewrite ?Hf, ?Hw.
      cbn [cacheFile fs_of part totalReadSize].
      split; [ | lia].
      split; [lia | split; [lia | split; [ | split]]].
      * split; [exact Hfp | split; [exact Hpos | ]].
        exists (d0 ++ data)%list. unfold Write. rewrite lookup_alter_eq, Hd0.
        split; [reflexivity | rewrite length_app; lia].
      * intros i d Hi Hd. unfold Write in Hd.
        destruct (decide (getCacheFilePathWithPart urlPath i = f)) as [E | Hne].
        -- rewrite E, lookup_alter_eq, Hd0 in Hd. injection Hd as <-.
           rewrite length_app. lia.
        -- rewrite lookup_alter_ne in Hd by (intros E; apply Hne; symmetry; exact E).
           apply (Hlow i d Hi Hd).
      * intros i Hi. unfold Write. rewrite lookup_alter_ne.
        -- apply Hout, Hi.
        -- rewrite Hfp. intros E. apply part_names_inj in E. lia.
  - cbn [cacheFile fs_of part totalReadSize]. rewrite Hw1.
    split; [apply Hrot; exact Hcf | lia].
Qed.

Lemma copy_split_bounded (urlPath : string) (fs0 : FS) :
  shouldCache urlPath = true ->
  forall (evs : list ReadEvent) (st : Copy),
  part_inv urlPath fs0 (fs_of st) (cacheFile st) (part st) (totalReadSize st) ->
  Forall (fun ev => Z.of_nat (length (rdata ev)) <= bufSize) evs ->
  part st + Z.of_nat (length evs) < MaxInt64 ->
  parts_bounded urlPath fs0 (fs_of (snd (copy_body urlPath true evs st))).
Proof.
  intros Hc. induction evs as [ | ev evs IH]; intros st Hinv Hsmall Hlen.
  - exact (part_inv_bounded _ _ _ _ _ _ Hinv).
  - apply Forall_cons in Hsmall as [Hev Hsmall].
    cbn [length] in Hlen. rewrite Nat2Z.inj_succ in Hlen.
    cbn [copy_body]. rewrite Hc. unfold abort. rewrite Hc.
    destruct (rdata ev) as [ | b d] eqn:Hd.
    + change (0 <? Z.of_nat (length (@nil byte))) with false. cbn [andb].
      destruct (rerr ev); cbn [snd].
      * apply IH; [exact Hinv | exact Hsmall | lia].
      * exact (part_inv_bounded _ _ _ _ _ _ Hinv).
      * unfold with_fs. cbn [fs_of]. apply parts_bounded_Remove.
        exact (part_inv_bounded _ _ _ _ _ _ Hinv).
    + change (0 <? Z.of_nat (length (b :: d))) with true. cbn [andb].
      destruct (tee_split_inv urlPath fs0 (b :: d)
                  (mkCopy (fs_of st) (w_of st) (builder st ++ b :: d)%list (cacheFile st)
                     (cacheFilePath st) (part st) (totalReadSize st)) Hinv Hev)
        as [Hinv1 Hpart]; [cbn [part]; lia | ].
      cbn [part] in Hpart.
      destruct (wok ev); cbn [negb].
      * destruct (rerr ev); cbn [snd].
        -- apply IH; [exact Hinv1 | exact Hsmall | cbn [part]; lia].
        -- exact (part_inv_bounded _ _ _ _ _ _ Hinv1).
        -- unfold with_fs. cbn [fs_of]. apply parts_bounded_Remove.
           exact (part_inv_bounded _ _ _ _ _ _ Hinv1).
      * cbn [snd]. unfold with_fs. cbn [fs_of]. apply parts_bounded_Remove.
        exact (part_inv_bounded _ _ _ _ _ _ Hinv1).
Qed.

(** X24. No part exceeds the chunk size.  For a blob path and a declared
    length above 100 MiB, with reads of at most [bufSize] bytes, none when
    the read reports an error or the end: however the body arrives and
    however the streaming ends, every part file of
    the key in the cache directory holds at most [chunkSize] bytes, or is
    a file that was there before and has not been touched. *)
Theorem parts_stay_within_the_chunk_size (req : Request) (p : string)
    (StatusCode ContentLength : Z) (clh : string) (body : list ReadEvent) (r : Run) :
  shouldCache (URL_Path req) = true ->
  100 * 1024 * 1024 < ContentLength ->
  Forall (fun ev => Z.of_nat (length (rdata ev)) <= bufSize) body ->
  Forall (fun ev => rerr ev <> ErrNil -> rdata ev = []) body ->
  Z.of_nat (length body) < MaxInt64 ->
  parts_bounded (URL_Path req) (fs r)
    (fs (snd (stream req p StatusCode ContentLength clh body r))).
Proof.
  intros Hc Hcl Hsmall _ Hlen. unfold stream.
  rewrite (proj2 (Z.ltb_lt _ _) Hcl).
  assert (Hinv0 : part_inv (URL_Path req) (fs r) (fs r) None 0 0).
  { split; [lia | split; [unfold chunkSize; lia | split; [reflexivity | split]]].
    - intros i d Hi. lia.
    - intros i _. reflexivity. }
  pose proof (copy_split_bounded (URL_Path req) (fs r) Hc body
                (mkCopy (fs (WriteHeader StatusCode r)) (sent (WriteHeader StatusCode r))
                   [] None p 0 0) Hinv0 Hsmall ltac:(cbn [part]; lia)) as H.
  destruct (copy_body _ _ _ _) as [e c]. cbn [snd] in H.
  destruct e; cbn [snd fs]; try exact H.
  unfold write_record. rewrite Hc. cbn [andb with_fs fs_of].
  intros i d Hi. rewrite lookup_insert_ne in Hi by apply record_is_no_part.
  apply (H i d Hi).
Qed.

Lemma parts_stay_within_the_chunk_size_witness :
  let body := [mkRead [x01; x02] ErrNil true; mkRead [] ErrEOF true] in
  let r := mkRun main_urls ∅ None [] 0 1 1 None in
  (shouldCache (URL_Path blob_request) = true
   /\ 100 * 1024 * 1024 < 3 * chunkSize
   /\ Forall (fun ev => Z.of_nat (length (rdata ev)) <= bufSize) body
   /\ Forall (fun ev => rerr ev <> ErrNil -> rdata ev = []) body
   /\ Z.of_nat (length body) < MaxInt64)
  /\ parts_bounded (URL_Path blob_request) (fs r)
       (fs (snd (stream blob_request (getCacheFilePath (URL_Path blob_request)) 200
                   (3 * chunkSize) "314572800" body r))).
Proof.
  cbv zeta.
  match goal with
  | |- (?A1 /\ ?A2 /\ ?A3 /\ ?A4 /\ ?A5) /\ _ =>
      assert (H1 : A1) by (vm_compute; reflexivity);
      assert (H2 : A2) by (vm_compute; reflexivity);
      assert (H3 : A3) by (repeat constructor; vm_compute; discriminate);
      assert (H4 : A4)
        by (repeat (apply Forall_cons_2; [cbn; intros H; congruence | ]);
            apply Forall_nil_2);
      assert (H5 : A5) by (vm_compute; reflexivity)
  end.
  split; [repeat apply conj; assumption | ].
  exact (parts_stay_within_the_chunk_size blob_request _ 200 (3 * chunkSize) "314572800"
           _ _ H1 H2 H3 H4 H5).
Defined.

End ChunkFacts.

(** ** A request from its first lines to the cache *)

Section FetchFacts.
Import Num Selector Paths Cache Forwarder Served.

(** What verification can change: the flat file, the record file and the
    parts under the names it derives from its path, and nothing else. *)
Lemma checkCacheFileSize_frame (sha256_hex : list byte -> string)
    (url contentLengthStr q : string) (fs0 : FS) :
  q <> getCacheFilePath url ->
  q <> getRecordFilePath (getCacheFilePath url) ->
  (forall i, q <> getCacheFilePathWithPart (getCacheFilePath url) i) ->
  checkCacheFileSize sha256_hex url contentLengthStr fs0 !! q = fs0 !! q.
Proof.
  intros Hflat Hrec Hpart. unfold checkCacheFileSize.
  destruct (String.eqb contentLengthStr ""); [reflexivity | ].
  destruct (ParseInt contentLengthStr); [ | reflexivity].
  cbv zeta.
  destruct (fs0 !! getRecordFilePath (getCacheFilePath url)).
  - destruct (read_parts _ _ _ _ _); [ | reflexivity].
    destruct (String.eqb _ _); [reflexivity | ].
    unfold Remove. rewrite lookup_delete_ne by (apply not_eq_sym, Hrec).
    apply remove_parts_other. exact Hpart.
  - destruct (fs0 !! getCacheFilePath url); [ | reflexivity].
    destruct (String.eqb _ _); [reflexivity | ].
    unfold Remove. apply lookup_delete_ne. apply not_eq_sym, Hflat.
Qed.

(** The files verification looks at, when it is started on the cache file
    path of a blob path, are not the two that a read of the key looks
    at. *)
Lemma verified_names_differ (urlPath h : string) :
  find_sha256 urlPath = Some h ->
  let p := getCacheFilePath urlPath in
  (p <> getCacheFilePath p
   /\ p <> getRecordFilePath (getCacheFilePath p)
   /\ forall i, p <> getCacheFilePathWithPart (getCacheFilePath p) i)
  /\ (getRecordFilePath p <> getCacheFilePath p
      /\ getRecordFilePath p <> getRecordFilePath (getCacheFilePath p)
      /\ forall i, getRecordFilePath p <> getCacheFilePathWithPart (getCacheFilePath p) i).
Proof.
  intros Hfind p.
  pose proof (find_sha256_all_hex _ _ Hfind) as Hhex.
  assert (Hh : extractHashFromURL urlPath = h)
    by (unfold extractHashFromURL; rewrite Hfind; reflexivity).
  assert (Hp : p = Join cacheDir (h ++ ".dat"))
    by (unfold p, getCacheFilePath; rewrite Hh; reflexivity).
  assert (Hpp : getCacheFilePath p = Join cacheDir (h ++ ".dat.dat")).
  { rewrite Hp. apply (getCacheFilePath_cache_file h ".dat");
      [exact Hhex | reflexivity | reflexivity]. }
  assert (Hr : getRecordFilePath p = Join cacheDir (h ++ ".dat_record.txt")).
  { rewrite Hp. apply (getRecordFilePath_cache_file h ".dat");
      [exact Hhex | reflexivity | reflexivity]. }
  assert (Hrr : getRecordFilePath (getCacheFilePath p)
                = Join cacheDir (h ++ ".dat.dat_record.txt")).
  { rewrite Hpp. apply (getRecordFilePath_cache_file h ".dat.dat");
      [exact Hhex | reflexivity | reflexivity]. }
  assert (Hparts : forall i, getCacheFilePathWithPart (getCacheFilePath p) i
                             = Join cacheDir (h ++ ".dat.dat_part_" ++ fmt_d i ++ ".dat")).
  { intros i. rewrite Hpp. unfold getCacheFilePathWithPart.
    rewrite (extractHashFromURL_cache_file h ".dat.dat")
      by (try exact Hhex; reflexivity).
    rewrite append_assoc. reflexivity. }
  assert (Hne : forall a b : string, a <> b -> Join cacheDir (h ++ a) <> Join cacheDir (h ++ b)).
  { intros a b Hab H. apply Join_inj, append_inj_l in H. contradiction. }
  split; (split; [ | split; [ | intros i]]);
    rewrite ?Hparts, ?Hrr, ?Hpp, ?Hr, ?Hp; apply Hne; discriminate.
Qed.

(** X16. Fetch, then hit.  A blob request of at most 235 bytes of path,
    so that the names of its log file and of its cache file are file
    names, that misses the cache, when the selected mirror answers with a
    final status (200 to 999) other than 404, a declared length of at most
    100 MiB and a body that is read to its end and written to the
    response, the last read reporting the end without a byte.  When the
    log file of the request cannot be opened the run ends there: nothing
    is fetched, written or stored.  When it opens, the response has that
    status and that body after one upstream call; from then on, also
    after the verification task of the run, the same request is served
    from the cache with the same bytes to a client that takes them,
    whatever the mirrors are and would answer. *)
Theorem fetched_blob_is_served_from_cache (env : Env) (fuel : nat) (req : Request)
    (h t : string) (u : Url.URL) (rt : float) (StatusCode ContentLength : Z)
    (clh : string) (front : list ReadEvent) (lst : ReadEvent) (rest : list Upstream)
    (rnd : nat -> nat) (um : URLManager) (fs0 : FS) :
  let p := getCacheFilePath (URL_Path req) in
  let content := concat (rdata <$> (front ++ [lst])%list) in
  shouldCache (URL_Path req) = true ->
  find_sha256 (URL_Path req) = Some h ->
  (String.length (URL_Path req) <= 235)%nat ->
  fs0 !! p = None -> fs0 !! getRecordFilePath p = None ->
  got (Get fuel rnd um) = Some t -> t <> "" -> Url.Parse t = Some u ->
  StatusCode <> StatusNotFound -> 200 <= StatusCode <= 999 ->
  ContentLength <= 100 * 1024 * 1024 ->
  Forall (fun ev => rerr ev = ErrNil /\ wok ev = true) front ->
  rerr lst = ErrEOF -> rdata lst = [] -> content <> [] ->
  let run :=
    proxyRequest_in env fuel req
      (DoResponse rt StatusCode ContentLength clh (front ++ [lst])%list :: rest)
      rnd um fs0 in
  (log_opens env = false -> run = LogNotOpened (mkRun um fs0 None [] 0 O O None))
  /\ (log_opens env = true ->
      exists r,
        run = Ran (Streamed AtEOF) r
        /\ status r = Some StatusCode
        /\ sent r = content
        /\ attempts r = 1%nat
        /\ forall sha256_hex env' fuel' script' rnd' um',
             accepts env' 0 = None ->
             proxyRequest_in env' fuel' req script' rnd' um' (run_verify sha256_hex r)
             = Ran ServedFromCache
                 (mkRun um' (run_verify sha256_hex r) (Some 200) content 0 0 0 None)).
Proof.
  intros p content Hc Hfind _ Hflat Hrec Hgot Hne Hparse Hsc _ Hcl Hfront Heof Hlast
    Hcontent run.
  assert (Hmiss : serveFromCache_to (accepts env) fs0 [] p = (false, [])).
  { unfold serveFromCache_to. rewrite Hrec, Hflat. reflexivity. }
  split.
  - intros Hlog. unfold run, proxyRequest_in. fold p. rewrite Hc, Hmiss, Hlog. reflexivity.
  - intros Hlog.
    assert (Hrun : exists r,
               run = Ran (Streamed AtEOF) r
               /\ status r = Some StatusCode
               /\ sent r = content
               /\ attempts r = 1%nat
               /\ fs r = <[p := content]> fs0
               /\ verify r = Some (p, clh)).
    { unfold run, proxyRequest_in. fold p. rewrite Hc, Hmiss, Hlog. cbv beta iota zeta.
      rewrite attempt_loop_eq. cbv beta iota zeta.
      unfold defer_tick at 1. cbn [tickets].
      change (6 <=? 0) with false. cbv beta iota.
      cbn [glourls defer_tick]. rewrite Hgot.
      destruct (String.eqb_spec t ""); [contradiction | ].
      rewrite Hparse.
      destruct (Z.eqb_spec StatusCode StatusNotFound); [contradiction | ].
      rewrite (stream_flat_complete req p StatusCode ContentLength clh front lst _
                 Hc Hcl Hfront Heof Hlast).
      fold content. cbn [has_returned fst snd run_deferred status sent attempts fs
                           with_glourls count_attempt app verify].
      destruct content; [contradiction | ].
      eexists. split; [reflexivity | ]. repeat split; reflexivity. }
    destruct Hrun as (r & H0 & H1 & H2 & H3 & H4 & H5).
    exists r. split; [exact H0 | split; [exact H1 | split; [exact H2 | split; [exact H3 | ]]]].
    intros sha256_hex env' fuel' script' rnd' um' Hacc.
    destruct (verified_names_differ _ _ Hfind) as [(Ha1 & Ha2 & Ha3) (Hb1 & Hb2 & Hb3)].
    fold p in Ha1, Ha2, Ha3, Hb1, Hb2, Hb3.
    assert (Hv : run_verify sha256_hex r = checkCacheFileSize sha256_hex p clh (fs r))
      by (unfold run_verify; rewrite H5; reflexivity).
    assert (Hhit : serveFromCache_to (accepts env') (run_verify sha256_hex r) [] p
                   = (true, content)).
    { unfold serveFromCache_to. rewrite Hv.
      rewrite (checkCacheFileSize_frame sha256_hex p clh _ (fs r) Hb1 Hb2 Hb3).
      rewrite (checkCacheFileSize_frame sha256_hex p clh _ (fs r) Ha1 Ha2 Ha3).
      rewrite H4.
      rewrite lookup_insert_ne by (apply not_eq_sym, (record_of_flat_differs _ _ Hfind)).
      rewrite Hrec, lookup_insert_eq, Hacc. reflexivity. }
    unfold proxyRequest_in. fold p. rewrite Hc, Hhit. reflexivity.
Qed.

(** X19. Without a mirror there is no upstream call.  A request that is
    not served from the cache, when its log file opens, is answered 503
    with the message of [http.Error], the deferred count of the attempt
    made once; when the log file cannot be opened the run ends before
    that, with no answer written.  The selector and the cache are as they
    were either way. *)
Theorem no_mirror_is_unavailable (env : Env) (fuel : nat) (req : Request)
    (script : list Upstream) (rnd : nat -> nat) (um : URLManager) (fs0 : FS) :
  urls um = [] ->
  (shouldCache (URL_Path req) = true ->
   serveFromCache_to (accepts env) fs0 [] (getCacheFilePath (URL_Path req)) = (false, [])) ->
  proxyRequest_in env (S fuel) req script rnd um fs0
  = if log_opens env
    then Ran NoAvailableURLs
           (mkRun um fs0 (Some StatusServiceUnavailable)
              (list_byte_of_string ("No available URLs" ++ newline)) 1 0 0 None)
    else LogNotOpened (mkRun um fs0 None [] 0 0 0 None).
Proof.
  intros Hum Hmiss. unfold proxyRequest_in.
  assert (Hm : (if shouldCache (URL_Path req)
                then serveFromCache_to (accepts env) fs0 []
                       (getCacheFilePath (URL_Path req))
                else (false, [])) = (false, [])).
  { destruct (shouldCache (URL_Path req)); [apply Hmiss; reflexivity | reflexivity]. }
  rewrite Hm. cbv beta iota zeta.
  destruct (log_opens env); [ | reflexivity].
  rewrite attempt_loop_eq. cbv beta iota zeta.
  unfold defer_tick at 1. cbn [tickets].
  change (6 <=? 0) with false. cbv beta iota.
  cbn [glourls defer_tick].
  unfold Get. cbn [Get_loop]. rewrite Hum. cbn [length Nat.eqb got after].
  change (String.eqb "" "") with true. cbv beta iota.
  destruct um as [us]. cbn in Hum. subst us. reflexivity.
Qed.

Lemma fetched_blob_is_served_from_cache_witness :
  let env := mkEnv true (fun _ => None) in
  let h := "e3b0c44298fc1c149afbf4c8996fb92427ae41e4649b934ca495991b7852b855" in
  let t := "https://yanyu.icu" in
  let u := Url.mkURL "https" "yanyu.icu" "" "" in
  let front := [mkRead [x01; x02] ErrNil true; mkRead [x03] ErrNil true] in
  let lst := mkRead [] ErrEOF true in
  let p := getCacheFilePath (URL_Path blob_request) in
  let rnd := fun _ : nat => O in
  let run :=
    proxyRequest_in env 1 blob_request
      [DoResponse 1%float 200 3 "3" (front ++ [lst])%list] rnd main_urls ∅ in
  (shouldCache (URL_Path blob_request) = true
   /\ find_sha256 (URL_Path blob_request) = Some h
   /\ (String.length (URL_Path blob_request) <= 235)%nat
   /\ (∅ : FS) !! p = None
   /\ (∅ : FS) !! getRecordFilePath p = None
   /\ got (Get 1 rnd main_urls) = Some t
   /\ t <> ""
   /\ Url.Parse t = Some u
   /\ 200 <> StatusNotFound
   /\ 200 <= 200 <= 999
   /\ 3 <= 100 * 1024 * 1024
   /\ Forall (fun ev => rerr ev = ErrNil /\ wok ev = true) front
   /\ rerr lst = ErrEOF
   /\ rdata lst = []
   /\ concat (rdata <$> (front ++ [lst])%list) <> [])
  /\ exists r,
       run = Ran (Streamed AtEOF) r
       /\ sent r = [x01; x02; x03]
       /\ proxyRequest_in env 0 blob_request [] rnd NewURLManager
            (run_verify (fun _ => "00") r)
          = Ran ServedFromCache
              (mkRun NewURLManager (run_verify (fun _ => "00") r) (Some 200)
                 [x01; x02; x03] 0 0 0 None).
Proof.
  cbv zeta.
  match goal with
  | |- (?A1 /\ ?A2 /\ ?A3 /\ ?A4 /\ ?A5 /\ ?A6 /\ ?A7 /\ ?A8 /\ ?A9 /\ ?A9b /\ ?A10
        /\ ?A11 /\ ?A12 /\ ?A13 /\ ?A14) /\ _ =>
      assert (H1 : A1) by (vm_compute; reflexivity);
      assert (H2 : A2) by (vm_compute; reflexivity);
      assert (H3 : A3) by (vm_compute; lia);
      assert (H4 : A4) by reflexivity;
      assert (H5 : A5) by reflexivity;
      assert (H6 : A6) by (vm_compute; reflexivity);
      assert (H7 : A7) by discriminate;
      assert (H8 : A8) by (vm_compute; reflexivity);
      assert (H9 : A9) by (unfold StatusNotFound; lia);
      assert (H9b : A9b) by lia;
      assert (H10 : A10) by lia;
      assert (H11 : A11) by (repeat constructor);
      assert (H12 : A12) by reflexivity;
      assert (H13 : A13) by reflexivity;
      assert (H14 : A14) by (cbn; discriminate)
  end.
  split; [exact (conj H1 (conj H2 (conj H3 (conj H4 (conj H5 (conj H6 (conj H7 (conj H8
            (conj H9 (conj H9b (conj H10 (conj H11 (conj H12 (conj H13 H14))))))))))))))
         | ].
  destruct (fetched_blob_is_served_from_cache (mkEnv true (fun _ => None)) 1 blob_request
              _ _ _ 1%float 200 3 "3" _ _ [] _ main_urls ∅
              H1 H2 H3 H4 H5 H6 H7 H8 H9 H9b H10 H11 H12 H13 H14) as [_ H].
  destruct (H eq_refl) as (r & Ha & _ & Hb & _ & Hd).
  exists r. split; [exact Ha | split; [exact Hb | ]].
  exact (Hd (fun _ => "00") (mkEnv true (fun _ => None)) O [] (fun _ => O) NewURLManager
           eq_refl).
Defined.

Lemma no_mirror_is_unavailable_witness :
  let req := mkRequest "GET" "/v2/" "" in
  let env := mkEnv true (fun _ => None) in
  (urls NewURLManager = []
   /\ (shouldCache (URL_Path req) = true ->
       serveFromCache_to (accepts env) ∅ [] (getCacheFilePath (URL_Path req))
       = (false, [])))
  /\ proxyRequest_in env 1 req [] (fun _ => O) NewURLManager ∅
     = Ran NoAvailableURLs
         (mkRun NewURLManager ∅ (Some 503)
            (list_byte_of_string ("No available URLs" ++ newline)) 1 0 0 None).
Proof.
  cbv zeta.
  assert (H1 : urls NewURLManager = []) by reflexivity.
  assert (H2 : shouldCache (URL_Path (mkRequest "GET" "/v2/" "")) = true ->
               serveFromCache_to (accepts (mkEnv true (fun _ => None))) ∅ []
                 (getCacheFilePath (URL_Path (mkRequest "GET" "/v2/" "")))
               = (false, [])) by (intros _; reflexivity).
  split; [split; [exact H1 | exact H2] | ].
  exact (no_mirror_is_unavailable (mkEnv true (fun _ => None)) O _ [] (fun _ => O)
           NewURLManager ∅ H1 H2).
Defined.

End FetchFacts.
